(** * pptEditor: the document engine, embedded from the TypeScript sources

    The development follows the source files:
    - [src/core/ChangeTracker.ts]  the bounded undo/redo log,
    - [src/core/PPTXParser.ts]     [xmlToObject] and the slide decoder,
    - [src/core/PPTXExporter.ts]   the re-encoder,
    - [src/core/PPTXEditor.ts]     the mutation API over a shared object store,
    - [src/components/SlideRenderer.tsx]  the order in which the canvas paints.

    JavaScript numbers that are used as array indices or counters are
    integers of [Z]; objects that the code shares between several owners
    live in an explicit store and are named by their location; a call
    that may throw returns a [Js.result].  What a call reads from the
    clock or from [Math.random] is an argument of its model.

    Outside the model: the archive codec (a container is the map from
    paths to parts that JSZip presents), the XML parser of the browser
    (a part carries the tree that [DOMParser] returns for it), the theme
    of the presentation, which nothing here reads, the saved state in
    [localStorage], and the React components apart from the paint
    order. *)

From Stdlib Require Import ZArith QArith Ascii String List Lia Bool.
From stdpp Require Import base option list gmap strings pretty.

Set Warnings "-register-all".

Local Open Scope Z_scope.

(** ** JavaScript helpers *)

Module Js.

(** The outcome of a call that may [throw new Error(msg)]. *)
Inductive result (A : Type) : Type :=
| Ok (a : A)
| Throw (msg : string).
Arguments Ok {A} a.
Arguments Throw {A} msg.

#[global] Instance result_ret : MRet result := fun A a => Ok a.
#[global] Instance result_bind : MBind result := fun A B f m =>
  match m with
  | Ok a => f a
  | Throw msg => Throw msg
  end.

(** What a [try { ... } catch { return null }] makes of an outcome. *)
Definition catchNull {A} (m : result A) : option A :=
  match m with
  | Ok a => Some a
  | Throw _ => None
  end.

(** Reading a property of [undefined]. *)
Definition typeError {A} : result A := Throw "TypeError".

(** [arr.slice(0, e)]: a negative [e] counts from the end, and the
    bounds are clamped to the array. *)
Definition slice0 {A} (l : list A) (e : Z) : list A :=
  let len := Z.of_nat (length l) in
  let k := if e <? 0 then Z.max (len + e) 0 else Z.min e len in
  take (Z.to_nat k) l.

(** [arr.slice(s)] for the same clamping rule. *)
Definition sliceFrom {A} (l : list A) (s : Z) : list A :=
  let len := Z.of_nat (length l) in
  let k := if s <? 0 then Z.max (len + s) 0 else Z.min s len in
  drop (Z.to_nat k) l.

(** [arr[i]]: [undefined] (here [None]) outside the array. *)
Definition index {A} (l : list A) (i : Z) : option A :=
  if i <? 0 then None else l !! Z.to_nat i.

(** [arr.shift()] dropping the returned head. *)
Definition shift {A} (l : list A) : list A := tail l.

(** *** Strings

    A string is a sequence of code units; the model keeps the code
    units below 256. *)

Local Open Scope string_scope.
Local Open Scope Z_scope.

Definition isEmpty (s : string) : bool :=
  match s with EmptyString => true | String _ _ => false end.

(** Truthiness of a string: the empty string is falsy. *)
Definition truthy (s : string) : bool := negb (isEmpty s).

(** [s.startsWith(p)] *)
Fixpoint startsWith (p s : string) : bool :=
  match p, s with
  | EmptyString, _ => true
  | String _ _, EmptyString => false
  | String a p', String b s' => Ascii.eqb a b && startsWith p' s'
  end.

Fixpoint dropChars (n : nat) (s : string) : string :=
  match n, s with
  | O, _ => s
  | S _, EmptyString => EmptyString
  | S n', String _ s' => dropChars n' s'
  end.

(** [s.includes(p)] *)
Fixpoint includes (p s : string) : bool :=
  startsWith p s ||
  match s with
  | EmptyString => false
  | String _ s' => includes p s'
  end.

(** [s.replace(pat, repl)] for a string pattern and a replacement text
    without [$]: the first occurrence is replaced. *)
Fixpoint replaceLiteral (pat repl s : string) : string :=
  if startsWith pat s then repl ++ dropChars (String.length pat) s
  else match s with
       | EmptyString => EmptyString
       | String c s' => String c (replaceLiteral pat repl s')
       end.

(** White space of [trim()] among the code units below 256. *)
Definition isWhiteSpace (c : ascii) : bool :=
  let n := nat_of_ascii c in
  ((9 <=? n) && (n <=? 13) || (n =? 32) || (n =? 160))%nat.

Fixpoint trimStart (s : string) : string :=
  match s with
  | EmptyString => EmptyString
  | String c s' => if isWhiteSpace c then trimStart s' else s
  end.

Definition reverse (s : string) : string :=
  string_of_list_ascii (rev (list_ascii_of_string s)).

Definition trimEnd (s : string) : string := reverse (trimStart (reverse s)).

Definition trim (s : string) : string := trimEnd (trimStart s).

(** [s.split(sep)] for a one-character separator. *)
Fixpoint split (sep : ascii) (s : string) : list string :=
  match s with
  | EmptyString => [EmptyString]
  | String c s' =>
      if Ascii.eqb c sep then EmptyString :: split sep s'
      else match split sep s' with
           | [] => [String c EmptyString]
           | w :: ws => String c w :: ws
           end
  end.

(** [toLowerCase] on a code unit below 256: the letters A to Z and the
    capital letters from 192 to 222, the multiplication sign 215 apart. *)
Definition toLowerChar (c : ascii) : ascii :=
  let n := nat_of_ascii c in
  if ((65 <=? n) && (n <=? 90)
      || (192 <=? n) && (n <=? 222) && negb (n =? 215))%nat
  then ascii_of_nat (n + 32)
  else c.

Fixpoint toLowerCase (s : string) : string :=
  match s with
  | EmptyString => EmptyString
  | String c s' => String (toLowerChar c) (toLowerCase s')
  end.

Definition newline : string := String (ascii_of_nat 10) EmptyString.

(** [a || b] on strings that may be [undefined]. *)
Definition orElse (a b : option string) : option string :=
  match a with
  | Some s => if truthy s then a else b
  | None => b
  end.

(** [a || d] with a string default. *)
Definition orDefault (a : option string) (d : string) : string :=
  match a with
  | Some s => if truthy s then s else d
  | None => d
  end.

(** *** [parseInt(s)] without a radix argument

    Leading white space is skipped, a sign is read, a [0x] prefix
    switches to base sixteen, and the longest run of digits is the
    value; without a digit the result is [NaN] (here [None]). *)

Definition digitValue (c : ascii) : option Z :=
  let n := Z.of_nat (nat_of_ascii c) in
  if (48 <=? n) && (n <=? 57) then Some (n - 48)
  else if (97 <=? n) && (n <=? 122) then Some (n - 87)
  else if (65 <=? n) && (n <=? 90) then Some (n - 55)
  else None.

Fixpoint digits (radix : Z) (acc : option Z) (s : string) : option Z :=
  match s with
  | EmptyString => acc
  | String c s' =>
      match digitValue c with
      | Some d =>
          if d <? radix
          then digits radix (Some (radix * default 0 acc + d)) s'
          else acc
      | None => acc
      end
  end.

Definition parseUnsigned (s : string) : option Z :=
  if startsWith "0x" s || startsWith "0X" s
  then digits 16 None (dropChars 2 s)
  else digits 10 None s.

Definition parseInt (s : string) : option Z :=
  match trimStart s with
  | String "-" r => Z.opp <$> parseUnsigned r
  | String "+" r => parseUnsigned r
  | r => parseUnsigned r
  end.

(** *** [RegExp] replacement

    Two patterns occur in the sources, both of the shape
    [open .*? close] without capture groups.  A pattern is given by its
    anchored matcher, which returns the matched text and the rest of
    the input. *)

Definition Matcher := string -> option (string * string).

(** The code units that [.] does not match. *)
Definition isLineTerminator (c : ascii) : bool :=
  let n := nat_of_ascii c in ((n =? 10) || (n =? 13))%nat.

(** [.*?close]: the shortest run of [.] that is followed by [close]. *)
Fixpoint lazyUntil (close : string) (s : string) : option (string * string) :=
  if startsWith close s
  then Some (close, dropChars (String.length close) s)
  else match s with
       | EmptyString => None
       | String c s' =>
           if isLineTerminator c then None
           else match lazyUntil close s' with
                | Some (m, r) => Some (String c m, r)
                | None => None
                end
       end.

(** [[^>]*>]: everything up to and including the first [>]. *)
Fixpoint untilGt (s : string) : option (string * string) :=
  match s with
  | EmptyString => None
  | String c s' =>
      if Ascii.eqb c ">" then Some (String c EmptyString, s')
      else match untilGt s' with
           | Some (m, r) => Some (String c m, r)
           | None => None
           end
  end.

(** [literal.*?close] *)
Definition literalPattern (open close : string) : Matcher := fun s =>
  if startsWith open s
  then match lazyUntil close (dropChars (String.length open) s) with
       | Some (m, r) => Some (open ++ m, r)
       | None => None
       end
  else None.

(** [open[^>]*>.*?close] *)
Definition tagPattern (open close : string) : Matcher := fun s =>
  if startsWith open s
  then match untilGt (dropChars (String.length open) s) with
       | Some (a, s1) =>
           match lazyUntil close s1 with
           | Some (m, r) => Some (open ++ a ++ m, r)
           | None => None
           end
       | None => None
       end
  else None.

(** The replacement text is a template: [$$] is a dollar sign, [$&] the
    matched text, [$`] the input before the match and [$'] the input
    after it; with no capture groups every other [$] stands for
    itself. *)
Fixpoint substitute (template before matched after : string) : string :=
  match template with
  | EmptyString => EmptyString
  | String c r =>
      if Ascii.eqb c "$" then
        match r with
        | EmptyString => String c EmptyString
        | String d r' =>
            if Ascii.eqb d "$" then String "$" (substitute r' before matched after)
            else if Ascii.eqb d "&" then matched ++ substitute r' before matched after
            else if Ascii.eqb d "`" then before ++ substitute r' before matched after
            else if Ascii.eqb d "'" then after ++ substitute r' before matched after
            else String c (substitute r before matched after)
        end
      else String c (substitute r before matched after)
  end.

(** [s.replace(/re/, template)]: the leftmost match is replaced.
    [before] is the input already passed. *)
Fixpoint replaceFirstFrom (re : Matcher) (template before s : string) : string :=
  match re s with
  | Some (m, rest) => substitute template before m rest ++ rest
  | None =>
      match s with
      | EmptyString => EmptyString
      | String c s' =>
          String c (replaceFirstFrom re template (before ++ String c EmptyString) s')
      end
  end.

Definition replaceFirst (re : Matcher) (template s : string) : string :=
  replaceFirstFrom re template EmptyString s.

(** [s.replace(/re/g, template)]: every match is replaced, the search
    resuming behind each match.  [skip] counts the code units of the
    current match that are still to be passed. *)
Fixpoint replaceAllFrom (re : Matcher) (template before : string)
    (skip : nat) (s : string) {struct s} : string :=
  match s with
  | EmptyString => EmptyString
  | String c s' =>
      let before' := before ++ String c EmptyString in
      match skip with
      | S n => replaceAllFrom re template before' n s'
      | O =>
          match re s with
          | Some (m, rest) =>
              substitute template before m rest
                ++ replaceAllFrom re template before' (String.length m - 1) s'
          | None => String c (replaceAllFrom re template before' O s')
          end
      end
  end.

Definition replaceAll (re : Matcher) (template s : string) : string :=
  replaceAllFrom re template EmptyString O s.

(** *** [btoa] over the bytes of a file *)

Definition base64Char (n : N) : ascii :=
  if (n <? 26)%N then ascii_of_N (n + 65)
  else if (n <? 52)%N then ascii_of_N (n + 71)
  else if (n <? 62)%N then ascii_of_N (n - 4)
  else if (n =? 62)%N then "+"%char else "/"%char.

Fixpoint btoaList (l : list N) : string :=
  match l with
  | [] => EmptyString
  | [a] =>
      String (base64Char (a / 4)) (String (base64Char ((a mod 4) * 16)) "==")
  | [a; b] =>
      String (base64Char (a / 4))
        (String (base64Char ((a mod 4) * 16 + b / 16))
           (String (base64Char ((b mod 16) * 4)) "="))
  | a :: b :: c :: l' =>
      String (base64Char (a / 4))
        (String (base64Char ((a mod 4) * 16 + b / 16))
           (String (base64Char ((b mod 16) * 4 + c / 64))
              (String (base64Char (c mod 64)) (btoaList l'))))
  end%N.

Definition btoa (s : string) : string :=
  btoaList (map N_of_ascii (list_ascii_of_string s)).

End Js.

(** ** Change records (src/types/index.ts) *)

(** A location of the object store: the identity of a JavaScript object. *)
Definition loc := positive.

(** ['add' | 'update' | 'delete'] *)
Inductive ChangeType := chAdd | chUpdate | chDelete.

(** Milliseconds since the epoch, as [Date.now()] gives them. *)
Definition Date := Z.

(** A JavaScript number that is not used as an index: a rational, or
    [NaN].  Rounding to IEEE doubles is not part of the model. *)
Inductive number :=
| Num (q : Q)
| NaN.

(** ['text' | 'image' | 'shape' | 'chart' | 'table'] *)
Inductive ElementType := tyText | tyImage | tyShape | tyChart | tyTable.

(** The [description] of a record is built from a template literal; the
    template and its arguments are kept apart, since rendering a number as
    text is not part of the model. *)
Inductive Description :=
| UpdatedText (newText : string)            (* `Updated text: "${newText}"` *)
| MovedElementTo (x y : number)             (* `Moved element to (${x}, ${y})` *)
| ResizedElementTo (width height : number)  (* `Resized element to ${width}x${height}` *)
| UpdatedElementStyle                       (* 'Updated element style' *)
| AddedText (t : string)                    (* `Added text: "${text}"` *)
| AddedImage                                (* 'Added image' *)
| DeletedElement (ty : ElementType)         (* `Deleted ${deletedElement.type} element` *)
| Literal (s : string).

(** [previousState] and [newState] are [any]: [null] or a reference to an
    element object. *)
Record ChangeRecord := {
  c_id : string;
  c_timestamp : Date;
  c_type : ChangeType;
  c_elementId : string;
  c_slideId : string;
  c_previousState : option loc;
  c_newState : option loc;
  c_description : Description
}.

(** ** The tree behind an XML part, and [xmlToObject] (src/core/PPTXParser.ts)

    [DOMParser] belongs to the browser.  The model starts from the tree
    it returns: text nodes, element nodes with their attributes (whose
    names are distinct) and ordered children, and every other kind of
    node (comments, CDATA sections, processing instructions). *)

Inductive DomNode :=
| TextNode (textContent : string)
| ElementNode (tagName : string) (attributes : list (string * string))
    (childNodes : list DomNode)
| OtherNode.

(** The root element of a parsed document. *)
Record DomDocument := {
  root_tagName : string;
  root_attributes : list (string * string);
  root_childNodes : list DomNode
}.

(** What [xmlToObject] builds: a string, or an object with the attribute
    map under [$] (only when there are attributes) and, under each tag
    name, the array of the children with that tag.  The keys keep their
    insertion order, as [Object.keys] reports them. *)
Inductive XmlObj :=
| XStr (s : string)
| XObj (dollar : option (list (string * string)))
       (fields : list (string * list XmlObj)).

Module Xml.

Local Open Scope string_scope.

Definition isTextNode (n : DomNode) : bool :=
  match n with TextNode _ => true | _ => false end.

Definition isElementNode (n : DomNode) : bool :=
  match n with ElementNode _ _ _ => true | _ => false end.

Definition textOf (n : DomNode) : string :=
  match n with TextNode s => Js.trim s | _ => "" end.

(** [groupedElements[tagName].push(childObj)], creating the array at the
    first child with that tag. *)
Fixpoint groupPush (tagName : string) (o : XmlObj)
    (g : list (string * list XmlObj)) : list (string * list XmlObj) :=
  match g with
  | [] => [(tagName, [o])]
  | (t, os) :: g' =>
      if String.eqb t tagName then (t, (os ++ [o])%list) :: g'
      else (t, os) :: groupPush tagName o g'
  end.

Definition groupByTag (l : list (string * XmlObj)) : list (string * list XmlObj) :=
  foldl (fun g p => groupPush (fst p) (snd p) g) [] l.

(** The object for an element node, from its attributes, its child
    nodes and the objects of its element children. *)
Definition elementObject (attributes : list (string * string))
    (childNodes : list DomNode) (childObjs : list (string * XmlObj)) : XmlObj :=
  let textNodes := List.filter isTextNode childNodes in
  let elementNodes := List.filter isElementNode childNodes in
  if (0 <? length textNodes)%nat && (length elementNodes =? 0)%nat
  then XStr (String.concat "" (map textOf textNodes))
  else XObj (match attributes with [] => None | _ :: _ => Some attributes end)
            (groupByTag childObjs).

(** [processNode]; [None] is [null]. *)
Fixpoint processNode (n : DomNode) : option XmlObj :=
  match n with
  | TextNode s => Some (XStr (Js.trim s))
  | OtherNode => None
  | ElementNode _ attributes childNodes =>
      let fix children (cs : list DomNode) : list (string * XmlObj) :=
        match cs with
        | [] => []
        | c :: cs' =>
            match processNode c with
            | Some o =>
                match c with
                | ElementNode tag _ _ => (tag, o) :: children cs'
                | _ => children cs'
                end
            | None => children cs'
            end
        end in
      Some (elementObject attributes childNodes (children childNodes))
  end.

(** The element children of a node, each with its tag and its object. *)
Fixpoint processChildren (cs : list DomNode) : list (string * XmlObj) :=
  match cs with
  | [] => []
  | c :: cs' =>
      match processNode c with
      | Some o =>
          match c with
          | ElementNode tag _ _ => (tag, o) :: processChildren cs'
          | _ => processChildren cs'
          end
      | None => processChildren cs'
      end
  end.

(** [xmlToObject(xml)] is [processNode(xml.documentElement)]. *)
Definition xmlToObject (d : DomDocument) : XmlObj :=
  elementObject (root_attributes d) (root_childNodes d)
    (processChildren (root_childNodes d)).

(** *** Writing a tree as text

    The text of a part whose tree is [d], for trees in which no text and
    no attribute value needs escaping; attribute values are written in
    single quotes.  [DOMParser] maps this text back to [d]. *)

Definition serializeAttribute (a : string * string) : string :=
  " " ++ fst a ++ "='" ++ snd a ++ "'".

Definition serializeTag (tagName : string) (attributes : list (string * string))
    (inner : string) : string :=
  let head := "<" ++ tagName ++ String.concat "" (map serializeAttribute attributes) in
  if Js.isEmpty inner then head ++ "/>"
  else head ++ ">" ++ inner ++ "</" ++ tagName ++ ">".

Fixpoint serializeNode (n : DomNode) : string :=
  match n with
  | TextNode s => s
  | OtherNode => ""
  | ElementNode tagName attributes childNodes =>
      serializeTag tagName attributes
        ((fix all (cs : list DomNode) : string :=
            match cs with
            | [] => ""
            | c :: cs' => serializeNode c ++ all cs'
            end) childNodes)
  end.

Definition serialize (d : DomDocument) : string :=
  serializeNode (ElementNode (root_tagName d) (root_attributes d) (root_childNodes d)).

(** *** Reading the objects *)

(** [o[key]] for a tag name [key]: the array of children, or
    [undefined]. *)
Definition field (o : XmlObj) (key : string) : option (list XmlObj) :=
  match o with
  | XStr _ => None
  | XObj _ fs => snd <$> List.find (fun p => String.eqb (fst p) key) fs
  end.

(** [o.$] *)
Definition dollar (o : XmlObj) : option (list (string * string)) :=
  match o with
  | XStr _ => None
  | XObj d _ => d
  end.

(** [a[name]] on an attribute map. *)
Definition attr (a : list (string * string)) (name : string) : option string :=
  snd <$> List.find (fun p => String.eqb (fst p) name) a.

(** [o[key]?.[0]] *)
Definition first (o : XmlObj) (key : string) : option XmlObj :=
  match field o key with
  | Some l => head l
  | None => None
  end.

(** [o?.[key]?.[0]] *)
Definition firstOpt (o : option XmlObj) (key : string) : option XmlObj :=
  match o with
  | Some v => first v key
  | None => None
  end.

(** [o?.$?.[name]] *)
Definition attrOpt (o : option XmlObj) (name : string) : option string :=
  match o with
  | Some v => match dollar v with Some a => attr a name | None => None end
  | None => None
  end.

(** [o?.$.name] at the end of an optional chain: nothing when [o] is
    [undefined], a [TypeError] (the outer [None]) when [o] has no
    attribute map. *)
Definition attrOrThrow (o : option XmlObj) (name : string) : option (option string) :=
  match o with
  | None => Some None
  | Some v =>
      match dollar v with
      | Some a => Some (attr a name)
      | None => None
      end
  end.

(** Truthiness of a value read from the tree. *)
Definition truthy (o : option XmlObj) : bool :=
  match o with
  | None => false
  | Some (XStr s) => Js.truthy s
  | Some (XObj _ _) => true
  end.

Definition truthyStr (o : option string) : bool :=
  match o with
  | None => false
  | Some s => Js.truthy s
  end.

(** [Object.keys(o)]: for a string its indices, for an object [$] and
    then the tag names. *)
Definition keys (o : XmlObj) : list string :=
  match o with
  | XStr s => map (fun i => pretty (Z.of_nat i)) (seq 0 (String.length s))
  | XObj d fs =>
      (match d with Some _ => ["$"] | None => [] end ++ map fst fs)%list
  end.

(** [String(v)] for a member of an array that [join] renders. *)
Definition itemToString (o : XmlObj) : string :=
  match o with
  | XStr s => s
  | XObj _ _ => "[object Object]"
  end.

End Xml.

(** ** The document model (src/types/index.ts) *)

Record Position := { pos_x : number; pos_y : number }.

Record Size := { size_width : number; size_height : number }.

(** Every field of [ElementStyle] is optional. *)
Record ElementStyle := {
  st_fontSize : option number;
  st_fontFamily : option string;
  st_fontWeight : option string;
  st_color : option string;
  st_backgroundColor : option string;
  st_borderColor : option string;
  st_borderWidth : option number;
  st_alignment : option string;
  st_opacity : option number
}.

Definition emptyStyle : ElementStyle :=
  {| st_fontSize := None; st_fontFamily := None; st_fontWeight := None;
     st_color := None; st_backgroundColor := None; st_borderColor := None;
     st_borderWidth := None; st_alignment := None; st_opacity := None |}.

(** [content] is [any]; these are the properties that the sources write
    or read on it.  [ct_text] holds whatever the decoder stored, which is
    a string. *)
Record Content := {
  ct_text : option string;
  ct_shapeType : option string;
  ct_imageId : option string;
  ct_imagePath : option string;
  ct_altText : option string;
  ct_imageUrl : option string;
  ct_imageDataUrl : option string;
  ct_resolved : bool
}.

Definition emptyContent : Content :=
  {| ct_text := None; ct_shapeType := None; ct_imageId := None;
     ct_imagePath := None; ct_altText := None; ct_imageUrl := None;
     ct_imageDataUrl := None; ct_resolved := false |}.

(** An element with everything it refers to: the form in which the
    decoder builds it, and in which the store is read back. *)
Record SlideElement := {
  se_id : string;
  se_type : ElementType;
  se_position : Position;
  se_size : Size;
  se_content : Content;
  se_style : option ElementStyle;
  se_originalData : option XmlObj;
  se_zIndex : option Z
}.

(** A slide over elements [E]: the elements themselves while the decoder
    builds the slide, their locations once the slide is in the store. *)
Record PPTXSlide (E : Type) := {
  s_id : string;
  s_slideNumber : Z;
  s_elements : list E;
  s_layout : option string;
  s_imageDataResolved : bool
}.
Arguments s_id {E} _.
Arguments s_slideNumber {E} _.
Arguments s_elements {E} _.
Arguments s_layout {E} _.
Arguments s_imageDataResolved {E} _.

Record DocumentMetadata := {
  md_title : string;
  md_author : string;
  md_subject : string;
  md_keywords : list string;
  md_created : Date;
  md_modified : Date
}.

(** ** The container: a zip archive read through JSZip

    An entry is a folder or a file.  A file carries its content, which
    the model identifies with the text that [async('string')] returns,
    and the document that [DOMParser] builds from that text. *)

Record Part := {
  p_dir : bool;
  p_content : string;
  p_document : DomDocument
}.

(** [zip.file(path)]: [null] for a missing entry and for a folder. *)
Definition zipFile (zip : gmap string Part) (path : string) : option Part :=
  match zip !! path with
  | Some p => if p_dir p then None else Some p
  | None => None
  end.

(** ** The object store

    Elements, and the position, size, content and style objects they
    refer to, are JavaScript objects that several owners share: the
    [elements] array of a slide, the [previousState] and [newState] of
    change records, and the copies that [{ ...element }] makes.  The store
    maps each location to the object that lives there; [st_next] is the
    next free location. *)

Record ElementObj := {
  o_id : string;
  o_type : ElementType;
  o_position : loc;
  o_size : loc;
  o_content : loc;
  o_style : option loc;
  o_originalData : option XmlObj;
  o_zIndex : option Z
}.

Record Store := {
  st_elements : gmap loc ElementObj;
  st_positions : gmap loc Position;
  st_sizes : gmap loc Size;
  st_contents : gmap loc Content;
  st_styles : gmap loc ElementStyle;
  st_next : loc
}.

Record PPTXDocument := {
  slides : list (PPTXSlide loc);
  metadata : DocumentMetadata
}.

Module Store.

Definition empty : Store :=
  {| st_elements := ∅; st_positions := ∅; st_sizes := ∅; st_contents := ∅;
     st_styles := ∅; st_next := 1%positive |}.

Definition allocPosition (p : Position) (h : Store) : loc * Store :=
  (st_next h,
   {| st_elements := st_elements h;
      st_positions := <[st_next h := p]> (st_positions h);
      st_sizes := st_sizes h; st_contents := st_contents h;
      st_styles := st_styles h; st_next := Pos.succ (st_next h) |}).

Definition allocSize (z : Size) (h : Store) : loc * Store :=
  (st_next h,
   {| st_elements := st_elements h; st_positions := st_positions h;
      st_sizes := <[st_next h := z]> (st_sizes h);
      st_contents := st_contents h;
      st_styles := st_styles h; st_next := Pos.succ (st_next h) |}).

Definition allocContent (c : Content) (h : Store) : loc * Store :=
  (st_next h,
   {| st_elements := st_elements h; st_positions := st_positions h;
      st_sizes := st_sizes h;
      st_contents := <[st_next h := c]> (st_contents h);
      st_styles := st_styles h; st_next := Pos.succ (st_next h) |}).

Definition allocStyle (s : ElementStyle) (h : Store) : loc * Store :=
  (st_next h,
   {| st_elements := st_elements h; st_positions := st_positions h;
      st_sizes := st_sizes h; st_contents := st_contents h;
      st_styles := <[st_next h := s]> (st_styles h);
      st_next := Pos.succ (st_next h) |}).

Definition allocElementObj (o : ElementObj) (h : Store) : loc * Store :=
  (st_next h,
   {| st_elements := <[st_next h := o]> (st_elements h);
      st_positions := st_positions h;
      st_sizes := st_sizes h; st_contents := st_contents h;
      st_styles := st_styles h; st_next := Pos.succ (st_next h) |}).

(** An object literal for an element: every nested literal is a new
    object. *)
Definition allocElement (v : SlideElement) (h : Store) : loc * Store :=
  let '(lp, h1) := allocPosition (se_position v) h in
  let '(lz, h2) := allocSize (se_size v) h1 in
  let '(lc, h3) := allocContent (se_content v) h2 in
  let '(ls, h4) :=
    match se_style v with
    | Some s => let '(l, h') := allocStyle s h3 in (Some l, h')
    | None => (None, h3)
    end in
  allocElementObj
    {| o_id := se_id v; o_type := se_type v; o_position := lp; o_size := lz;
       o_content := lc; o_style := ls; o_originalData := se_originalData v;
       o_zIndex := se_zIndex v |} h4.

Fixpoint allocElements (vs : list SlideElement) (h : Store) : list loc * Store :=
  match vs with
  | [] => ([], h)
  | v :: vs' =>
      let '(l, h1) := allocElement v h in
      let '(ls, h2) := allocElements vs' h1 in
      (l :: ls, h2)
  end.

Definition allocSlide (s : PPTXSlide SlideElement) (h : Store)
  : PPTXSlide loc * Store :=
  let '(ls, h') := allocElements (s_elements s) h in
  ({| s_id := s_id s; s_slideNumber := s_slideNumber s; s_elements := ls;
      s_layout := s_layout s; s_imageDataResolved := s_imageDataResolved s |},
   h').

Fixpoint allocSlides (ss : list (PPTXSlide SlideElement)) (h : Store)
  : list (PPTXSlide loc) * Store :=
  match ss with
  | [] => ([], h)
  | s :: ss' =>
      let '(s1, h1) := allocSlide s h in
      let '(rest, h2) := allocSlides ss' h1 in
      (s1 :: rest, h2)
  end.

(** [{ ...element }]: a new element object with the same property
    values, so the same position, size, content and style objects. *)
Definition shallowCopy (o : ElementObj) (h : Store) : loc * Store :=
  allocElementObj o h.

(** The element at [l] with everything it refers to. *)
Definition read (h : Store) (l : loc) : option SlideElement :=
  o ← st_elements h !! l;
  p ← st_positions h !! o_position o;
  z ← st_sizes h !! o_size o;
  c ← st_contents h !! o_content o;
  s ← match o_style o with
      | Some ls => Some <$> st_styles h !! ls
      | None => Some None
      end;
  Some {| se_id := o_id o; se_type := o_type o; se_position := p; se_size := z;
          se_content := c; se_style := s; se_originalData := o_originalData o;
          se_zIndex := o_zIndex o |}.

(** [elements.findIndex(e => e.id === elementId)]; [None] is [-1]. *)
Fixpoint findIndex (h : Store) (elements : list loc) (elementId : string)
  : option nat :=
  match elements with
  | [] => None
  | l :: rest =>
      match st_elements h !! l with
      | Some o =>
          if String.eqb (o_id o) elementId then Some O
          else S <$> findIndex h rest elementId
      | None => S <$> findIndex h rest elementId
      end
  end.

(** [elements.find(e => e.id === elementId)]: the location and the
    object found there. *)
Definition find (h : Store) (elements : list loc) (elementId : string)
  : option (loc * ElementObj) :=
  i ← findIndex h elements elementId;
  l ← elements !! i;
  o ← st_elements h !! l;
  Some (l, o).

Definition setContents (h : Store) (m : gmap loc Content) : Store :=
  {| st_elements := st_elements h; st_positions := st_positions h;
     st_sizes := st_sizes h; st_contents := m; st_styles := st_styles h;
     st_next := st_next h |}.

Definition setPositions (h : Store) (m : gmap loc Position) : Store :=
  {| st_elements := st_elements h; st_positions := m;
     st_sizes := st_sizes h; st_contents := st_contents h;
     st_styles := st_styles h; st_next := st_next h |}.

Definition setSizes (h : Store) (m : gmap loc Size) : Store :=
  {| st_elements := st_elements h; st_positions := st_positions h;
     st_sizes := m; st_contents := st_contents h;
     st_styles := st_styles h; st_next := st_next h |}.

Definition setElements (h : Store) (m : gmap loc ElementObj) : Store :=
  {| st_elements := m; st_positions := st_positions h;
     st_sizes := st_sizes h; st_contents := st_contents h;
     st_styles := st_styles h; st_next := st_next h |}.

End Store.

(** ** What a store holds

    Allocation never overwrites: these predicates say what stays
    readable. *)

(** The element at [l] and the objects it refers to lie below the next
    free location. *)
Definition closed (h : Store) (l : loc) : Prop :=
  (l < st_next h)%positive
  /\ exists o, st_elements h !! l = Some o
       /\ (o_position o < st_next h)%positive /\ (o_size o < st_next h)%positive
       /\ (o_content o < st_next h)%positive
       /\ forall ls, o_style o = Some ls -> (ls < st_next h)%positive.

(** [h'] has the objects of [h] below the next free location of [h]. *)
Definition agreeBelow (h h' : Store) : Prop :=
  (st_next h <= st_next h')%positive
  /\ forall k : loc, (k < st_next h)%positive ->
       st_elements h' !! k = st_elements h !! k
       /\ st_positions h' !! k = st_positions h !! k
       /\ st_sizes h' !! k = st_sizes h !! k
       /\ st_contents h' !! k = st_contents h !! k
       /\ st_styles h' !! k = st_styles h !! k.

(** The slide [s] of the document is the decoded slide [v]: same id,
    number and layout, and its elements read back from the store as the
    elements of [v], in order. *)
Definition represents (h : Store) (s : PPTXSlide loc) (v : PPTXSlide SlideElement)
  : Prop :=
  s_id s = s_id v /\ s_slideNumber s = s_slideNumber v /\ s_layout s = s_layout v
  /\ Forall2 (fun l x => Store.read h l = Some x /\ closed h l)
       (s_elements s) (s_elements v).

(** [document.slides.find(s => s.id === slideId)], as the index of the
    slide. *)
Fixpoint findSlideIndex (ss : list (PPTXSlide loc)) (slideId : string) : option nat :=
  match ss with
  | [] => None
  | s :: rest =>
      if String.eqb (s_id s) slideId then Some O
      else S <$> findSlideIndex rest slideId
  end.

Definition withElements (s : PPTXSlide loc) (elements : list loc) : PPTXSlide loc :=
  {| s_id := s_id s; s_slideNumber := s_slideNumber s; s_elements := elements;
     s_layout := s_layout s; s_imageDataResolved := s_imageDataResolved s |}.

(** The document after the slide at index [i] got the elements array
    [elements]. *)
Definition withSlideElements (d : PPTXDocument) (i : nat) (elements : list loc)
  : PPTXDocument :=
  match slides d !! i with
  | Some s =>
      {| slides := <[i := withElements s elements]> (slides d);
         metadata := metadata d |}
  | None => d
  end.

(** ** ChangeTracker (src/core/ChangeTracker.ts) *)

Module ChangeTracker.

Record t := {
  changes : list ChangeRecord;
  maxUndoSteps : Z;
  currentIndex : Z
}.

(** [constructor(maxUndoSteps = 50)] *)
Definition create (maxUndoSteps : Z) : t :=
  {| changes := []; maxUndoSteps := maxUndoSteps; currentIndex := -1 |}.

Definition setIndex (tr : t) (i : Z) : t :=
  {| changes := changes tr; maxUndoSteps := maxUndoSteps tr; currentIndex := i |}.

(** The arguments of one [recordChange] call, together with what the
    call reads from its environment: the id that [generateChangeId]
    draws from the clock and [Math.random], and [new Date()]. *)
Record Call := {
  k_changeId : string;
  k_now : Date;
  k_type : ChangeType;
  k_elementId : string;
  k_slideId : string;
  k_previousState : option loc;
  k_newState : option loc;
  k_description : Description
}.

Definition changeOf (k : Call) : ChangeRecord :=
  {| c_id := k_changeId k;
     c_timestamp := k_now k;
     c_type := k_type k;
     c_elementId := k_elementId k;
     c_slideId := k_slideId k;
     c_previousState := k_previousState k;
     c_newState := k_newState k;
     c_description := k_description k |}.

Definition recordChange (tr : t) (k : Call) : t :=
  let kept := Js.slice0 (changes tr) (currentIndex tr + 1) in
  let pushed := kept ++ [changeOf k] in
  let idx := currentIndex tr + 1 in
  if maxUndoSteps tr <? Z.of_nat (length pushed)
  then {| changes := Js.shift pushed;
          maxUndoSteps := maxUndoSteps tr;
          currentIndex := idx - 1 |}
  else {| changes := pushed;
          maxUndoSteps := maxUndoSteps tr;
          currentIndex := idx |}.

Definition canUndo (tr : t) : bool := 0 <=? currentIndex tr.

Definition canRedo (tr : t) : bool :=
  currentIndex tr <? Z.of_nat (length (changes tr)) - 1.

(** [undo] and [redo] return the record, or [null]; [None] also stands
    for the [undefined] that an index outside the log would give, which
    the callers treat like [null].  The tracker after the call is the
    second component. *)
Definition undo (tr : t) : option ChangeRecord * t :=
  if canUndo tr
  then (Js.index (changes tr) (currentIndex tr),
        setIndex tr (currentIndex tr - 1))
  else (None, tr).

Definition redo (tr : t) : option ChangeRecord * t :=
  if canRedo tr
  then (Js.index (changes tr) (currentIndex tr + 1),
        setIndex tr (currentIndex tr + 1))
  else (None, tr).

Definition getChangeHistory (tr : t) : list ChangeRecord := changes tr.

Definition getCurrentChangeIndex (tr : t) : Z := currentIndex tr.

Definition clearHistory (tr : t) : t :=
  {| changes := []; maxUndoSteps := maxUndoSteps tr; currentIndex := -1 |}.

Definition revertToChange (tr : t) (changeIndex : Z)
  : Js.result (list ChangeRecord * t) :=
  if (changeIndex <? 0) || (Z.of_nat (length (changes tr)) <=? changeIndex)
  then Js.Throw "Invalid change index"
  else Js.Ok (rev (Js.sliceFrom (changes tr) (changeIndex + 1)),
              setIndex tr changeIndex).

Definition revertAllChanges (tr : t) : list ChangeRecord * t :=
  (rev (changes tr), clearHistory tr).

Definition getChangesForElement (tr : t) (elementId : string) : list ChangeRecord :=
  filter (fun c => c_elementId c = elementId) (changes tr).


(** The cursor names a stored record or is -1, and the log fits the
    capacity. *)
Definition invariant (tr : t) : Prop :=
  -1 <= currentIndex tr <= Z.of_nat (length (changes tr)) - 1
  /\ Z.of_nat (length (changes tr)) <= maxUndoSteps tr.

(** The cursor alone. *)
Definition cursorInRange (tr : t) : Prop :=
  -1 <= currentIndex tr <= Z.of_nat (length (changes tr)) - 1.

(** *** getChangeSummary *)

Record ChangeSummary := {
  totalChanges : Z;
  additions : Z;
  updates : Z;
  deletions : Z;
  lastChangeTime : option Date
}.

(** [changes.filter(c => c.type === type).length] *)
Definition countType (type : ChangeType) (l : list ChangeRecord) : Z :=
  Z.of_nat (length (List.filter
                      (fun c => match c_type c, type with
                                | chAdd, chAdd | chUpdate, chUpdate
                                | chDelete, chDelete => true
                                | _, _ => false
                                end) l)).

Definition getChangeSummary (tr : t) : ChangeSummary :=
  {| totalChanges := Z.of_nat (length (changes tr));
     additions := countType chAdd (changes tr);
     updates := countType chUpdate (changes tr);
     deletions := countType chDelete (changes tr);
     lastChangeTime := c_timestamp <$> last (changes tr) |}.

(** One call of the public interface of the tracker; a call of
    [revertToChange] that throws leaves the tracker as it was. *)
Inductive Op :=
| OpRecordChange (k : Call)
| OpUndo
| OpRedo
| OpClearHistory
| OpRevertToChange (changeIndex : Z)
| OpRevertAllChanges.

Definition step (tr : t) (op : Op) : t :=
  match op with
  | OpRecordChange k => recordChange tr k
  | OpUndo => snd (undo tr)
  | OpRedo => snd (redo tr)
  | OpClearHistory => clearHistory tr
  | OpRevertToChange i =>
      match revertToChange tr i with
      | Js.Ok (_, tr') => tr'
      | Js.Throw _ => tr
      end
  | OpRevertAllChanges => snd (revertAllChanges tr)
  end.

(** A sequence of recorded mutations. *)
Definition recordAll (tr : t) (ks : list Call) : t := foldl recordChange tr ks.

(** A tracker built with capacity [n] and driven by the calls [ops]. *)
Definition run (n : Z) (ops : list Op) : t := foldl step (create n) ops.

(** *** applyChange and revertChange

    Both work on the [elements] array of the slide with the id of the
    record; the array holds locations, and a snapshot is put back by
    location.  [arr.splice(i, 1)] is [delete i]. *)

Definition applyChange (d : PPTXDocument) (h : Store) (change : ChangeRecord)
  : PPTXDocument :=
  match findSlideIndex (slides d) (c_slideId change) with
  | None => d
  | Some si =>
      let elements := default [] (s_elements <$> slides d !! si) in
      match c_type change with
      | chAdd =>
          match c_newState change with
          | Some l => withSlideElements d si (elements ++ [l])
          | None => d
          end
      | chUpdate =>
          match c_previousState change, c_newState change with
          | Some _, Some l =>
              match Store.findIndex h elements (c_elementId change) with
              | Some i => withSlideElements d si (<[i := l]> elements)
              | None => d
              end
          | _, _ => d
          end
      | chDelete =>
          match c_previousState change with
          | Some _ =>
              match Store.findIndex h elements (c_elementId change) with
              | Some i => withSlideElements d si (base.delete i elements)
              | None => d
              end
          | None => d
          end
      end
  end.

Definition revertChange (d : PPTXDocument) (h : Store) (change : ChangeRecord)
  : PPTXDocument :=
  match findSlideIndex (slides d) (c_slideId change) with
  | None => d
  | Some si =>
      let elements := default [] (s_elements <$> slides d !! si) in
      match c_type change with
      | chAdd =>
          match Store.findIndex h elements (c_elementId change) with
          | Some i => withSlideElements d si (base.delete i elements)
          | None => d
          end
      | chUpdate =>
          match c_previousState change with
          | Some l =>
              match Store.findIndex h elements (c_elementId change) with
              | Some i => withSlideElements d si (<[i := l]> elements)
              | None => d
              end
          | None => d
          end
      | chDelete =>
          match c_previousState change with
          | Some l => withSlideElements d si (elements ++ [l])
          | None => d
          end
      end
  end.

End ChangeTracker.

(** ** The slide decoder (src/core/PPTXParser.ts) *)

Module PPTXParser.

Local Open Scope string_scope.
Local Open Scope Z_scope.

Definition EMU_TO_POINTS : Q := 72 # 914400.

(** [parseInt(v || '0') * EMU_TO_POINTS] *)
Definition emuToPoints (v : option string) : number :=
  match Js.parseInt (Js.orDefault v "0") with
  | Some n => Num (inject_Z n * EMU_TO_POINTS)%Q
  | None => NaN
  end.

Definition parsePosition (spPr : XmlObj) : Position :=
  let xfrm := Xml.first spPr "a:xfrm" in
  let off := Xml.firstOpt xfrm "a:off" in
  {| pos_x := emuToPoints (Xml.attrOpt off "x");
     pos_y := emuToPoints (Xml.attrOpt off "y") |}.

Definition parseSize (spPr : XmlObj) : Size :=
  let xfrm := Xml.first spPr "a:xfrm" in
  let ext := Xml.firstOpt xfrm "a:ext" in
  {| size_width := emuToPoints (Xml.attrOpt ext "cx");
     size_height := emuToPoints (Xml.attrOpt ext "cy") |}.

(** The text of one run [r], as [join] renders it. *)
Definition runText (r : XmlObj) : string :=
  match Xml.first r "a:t" with
  | Some (XStr s) => s
  | Some (XObj d fs) =>
      match Xml.field (XObj d fs) "_" with
      | Some arr => String.concat "," (map Xml.itemToString arr)
      | None =>
          match d with
          | Some a => Js.orDefault (Xml.attr a "val") ""
          | None => ""
          end
      end
  | None => ""
  end.

Definition paragraphText (p : XmlObj) : string :=
  String.concat "" (map runText (default [] (Xml.field p "a:r"))).

Definition parseTextContent (txBody : XmlObj) : string :=
  String.concat Js.newline
    (map paragraphText (default [] (Xml.field txBody "a:p"))).

(** [if (solidFill) { const c = solidFill['a:srgbClr']?.[0]?.$.val;
    if (c) ... = `#${c}` }] *)
Definition fillColor (solidFill : option XmlObj) : Js.result (option string) :=
  if Xml.truthy solidFill then
    match Xml.attrOrThrow (Xml.firstOpt solidFill "a:srgbClr") "val" with
    | None => Js.typeError
    | Some v => Js.Ok (if Xml.truthyStr v then Some ("#" ++ default "" v) else None)
    end
  else Js.Ok None.

(** The font size and the colour of the first run of the first
    paragraph. *)
Definition runStyle (txBody : option XmlObj)
  : Js.result (option number * option string) :=
  match txBody with
  | Some body =>
      if Xml.truthy txBody then
        match default [] (Xml.field body "a:p") with
        | firstP :: _ =>
            match default [] (Xml.field firstP "a:r") with
            | firstRun :: _ =>
                let rPr := Xml.first firstRun "a:rPr" in
                if Xml.truthy rPr then
                  let sz := Xml.attrOpt (Xml.firstOpt rPr "a:sz") "val" in
                  let fontSize :=
                    if Xml.truthyStr sz then
                      Some match Js.parseInt (default "" sz) with
                           | Some n => Num (inject_Z n / 100)%Q
                           | None => NaN
                           end
                    else None in
                  color ← fillColor (Xml.firstOpt rPr "a:solidFill");
                  Js.Ok (fontSize, color)
                else Js.Ok (None, None)
            | [] => Js.Ok (None, None)
            end
        | [] => Js.Ok (None, None)
        end
      else Js.Ok (None, None)
  | None => Js.Ok (None, None)
  end.

Definition parseElementStyle (spPr : XmlObj) (txBody : option XmlObj)
  : Js.result ElementStyle :=
  backgroundColor ←
    (if bool_decide (is_Some (Xml.field spPr "a:prstGeom"))
     then fillColor (Xml.first spPr "a:solidFill")
     else Js.Ok None);
  run ← runStyle txBody;
  Js.Ok {| st_fontSize := fst run; st_fontFamily := None; st_fontWeight := None;
          st_color := snd run; st_backgroundColor := backgroundColor;
          st_borderColor := None; st_borderWidth := None;
          st_alignment := None; st_opacity := None |}.

Definition parseShapeElement (shape : XmlObj) (index : Z) : option SlideElement :=
  let spPr := Xml.first shape "p:spPr" in
  let txBody := Xml.first shape "p:txBody" in
  match spPr with
  | Some pr =>
      if Xml.truthy spPr then
        let textContent :=
          match txBody with
          | Some body => if Xml.truthy txBody then parseTextContent body else ""
          | None => ""
          end in
        Js.catchNull (
          prst ← match Xml.attrOrThrow (Xml.first pr "a:prstGeom") "prst" with
                 | Some v => Js.Ok v
                 | None => Js.typeError
                 end;
          style ← parseElementStyle pr txBody;
          Js.Ok {| se_id := "shape-" ++ pretty index;
                  se_type := tyShape;
                  se_position := parsePosition pr;
                  se_size := parseSize pr;
                  se_content :=
                    {| ct_text := Some textContent;
                       ct_shapeType := Some (Js.orDefault prst "rect");
                       ct_imageId := None; ct_imagePath := None;
                       ct_altText := None; ct_imageUrl := None;
                       ct_imageDataUrl := None; ct_resolved := false |};
                  se_style := Some style;
                  se_originalData := Some shape;
                  se_zIndex := None |})
      else None
  | None => None
  end.

Definition parsePictureElement (picture : XmlObj) (index : Z) : option SlideElement :=
  let spPr := Xml.first picture "p:spPr" in
  let blipFill := Xml.first picture "p:blipFill" in
  match spPr with
  | Some pr =>
      if Xml.truthy spPr && Xml.truthy blipFill then
        let blip := Xml.firstOpt blipFill "a:blip" in
        let imageId := Js.orElse (Xml.attrOpt blip "r:embed") (Xml.attrOpt blip "r:link") in
        Js.catchNull (
          descr ← match Xml.attrOrThrow
                          (Xml.firstOpt (Xml.first picture "p:nvPicPr") "p:cNvPr")
                          "descr" with
                  | Some v => Js.Ok v
                  | None => Js.typeError
                  end;
          style ← parseElementStyle pr None;
          Js.Ok {| se_id := "picture-" ++ pretty index;
                  se_type := tyImage;
                  se_position := parsePosition pr;
                  se_size := parseSize pr;
                  se_content :=
                    {| ct_text := None; ct_shapeType := None;
                       ct_imageId := imageId;
                       ct_imagePath := Some "";
                       ct_altText := Some (Js.orDefault descr "");
                       ct_imageUrl := None;
                       ct_imageDataUrl := None; ct_resolved := false |};
                  se_style := Some style;
                  se_originalData := Some picture;
                  se_zIndex := None |})
      else None
  | None => None
  end.

Definition parseTextBoxElement (textBox : XmlObj) (index : Z) : option SlideElement :=
  let spPr := Xml.first textBox "p:spPr" in
  let txBody := Xml.first textBox "p:txBody" in
  match spPr, txBody with
  | Some pr, Some body =>
      if Xml.truthy spPr && Xml.truthy txBody then
        Js.catchNull (
          style ← parseElementStyle pr txBody;
          Js.Ok {| se_id := "textbox-" ++ pretty index;
                  se_type := tyText;
                  se_position := parsePosition pr;
                  se_size := parseSize pr;
                  se_content :=
                    {| ct_text := Some (parseTextContent body);
                       ct_shapeType := None;
                       ct_imageId := None; ct_imagePath := None;
                       ct_altText := None; ct_imageUrl := None;
                       ct_imageDataUrl := None; ct_resolved := false |};
                  se_style := Some style;
                  se_originalData := Some textBox;
                  se_zIndex := None |})
      else None
  | _, _ => None
  end.

(** *** The shape tree (parseSlide, the loop over [spTree]) *)

(** The keys of [spTree] that start with [p:] and hold a non-empty
    array. *)
Definition allChildNodes (spTree : XmlObj) : list string :=
  List.filter
    (fun key =>
       Js.startsWith "p:" key &&
       match Xml.field spTree key with
       | Some (_ :: _) => true
       | _ => false
       end)
    (Xml.keys spTree).

(** The [switch (nodeType)] of the loop. *)
Definition parseNode (nodeType : string) (node : XmlObj) (globalIndex : Z)
  : option SlideElement :=
  if String.eqb nodeType "p:sp" then parseShapeElement node globalIndex
  else if String.eqb nodeType "p:pic" then parsePictureElement node globalIndex
  else if String.eqb nodeType "p:txBox" then parseTextBoxElement node globalIndex
  else None.

Definition setZIndex (e : SlideElement) (z : Z) : SlideElement :=
  {| se_id := se_id e; se_type := se_type e; se_position := se_position e;
     se_size := se_size e; se_content := se_content e; se_style := se_style e;
     se_originalData := se_originalData e; se_zIndex := Some z |}.

(** The state of the loop: [allElements] and [globalIndex]. *)
Definition Collected : Type := list (SlideElement * Z) * Z.

(** The body of [nodes.forEach]. *)
Definition visit (nodeType : string) (st : Collected) (node : XmlObj) : Collected :=
  match parseNode nodeType node (snd st) with
  | Some element =>
      ((fst st ++ [(setZIndex element (snd st), snd st)])%list, snd st + 1)
  | None => st
  end.

(** The body of [allChildNodes.forEach]. *)
Definition visitType (spTree : XmlObj) (st : Collected) (nodeType : string) : Collected :=
  foldl (visit nodeType) st (default [] (Xml.field spTree nodeType)).

Definition collect (spTree : XmlObj) : Collected :=
  foldl (visitType spTree) ([], 0) (allChildNodes spTree).

(** The loop numbers the elements it keeps: the entry at position [i]
    has [originalIndex] and [zIndex] equal to [i], and [globalIndex] is
    the number of entries. *)
Definition numbered (st : Collected) : Prop :=
  snd st = Z.of_nat (length (fst st))
  /\ forall i p, fst st !! i = Some p ->
       snd p = Z.of_nat i /\ se_zIndex (fst p) = Some (Z.of_nat i).

(** [allElements.sort((a, b) => a.originalIndex - b.originalIndex)]:
    a stable sort on [originalIndex]. *)
Fixpoint insertByIndex (p : SlideElement * Z) (l : list (SlideElement * Z))
  : list (SlideElement * Z) :=
  match l with
  | [] => [p]
  | q :: l' => if snd q <? snd p then q :: insertByIndex p l' else p :: l
  end.

Definition sortByIndex (l : list (SlideElement * Z)) : list (SlideElement * Z) :=
  foldr insertByIndex [] l.

(** [slide.elements] as the loop and the sort leave it. *)
Definition parseElements (spTree : XmlObj) : list SlideElement :=
  map fst (sortByIndex (fst (collect spTree))).

(** *** Image relationships (resolveImageData) *)

(** The absolute path of an image inside the container, from the
    [Target] of its relationship. *)
Definition absoluteImagePath (targetPath : string) : string :=
  if Js.startsWith "../" targetPath
  then Js.replaceLiteral "../" "ppt/" targetPath
  else if Js.startsWith "./" targetPath
  then Js.replaceLiteral "./" "ppt/slides/" targetPath
  else if negb (Js.startsWith "ppt/" targetPath)
  then "ppt/" ++ targetPath
  else targetPath.

Definition getMimeType (filePath : string) : string :=
  let extension := Js.toLowerCase (List.last (Js.split "." filePath) "") in
  if String.eqb extension "png" then "image/png"
  else if String.eqb extension "jpg" then "image/jpeg"
  else if String.eqb extension "jpeg" then "image/jpeg"
  else if String.eqb extension "gif" then "image/gif"
  else if String.eqb extension "bmp" then "image/bmp"
  else if String.eqb extension "svg" then "image/svg+xml"
  else "image/png".

(** [relationships.find(rel => rel.$.Id === imageId)] *)
Fixpoint findRelationship (relationships : list XmlObj) (imageId : string)
  : Js.result (option (list (string * string))) :=
  match relationships with
  | [] => Js.Ok None
  | rel :: rest =>
      match Xml.dollar rel with
      | None => Js.typeError
      | Some a =>
          if bool_decide (Xml.attr a "Id" = Some imageId) then Js.Ok (Some a)
          else findRelationship rest imageId
      end
  end.

Definition setImageData (e : SlideElement) (dataUrl path : string) : SlideElement :=
  let c := se_content e in
  {| se_id := se_id e; se_type := se_type e; se_position := se_position e;
     se_size := se_size e;
     se_content :=
       {| ct_text := ct_text c; ct_shapeType := ct_shapeType c;
          ct_imageId := ct_imageId c; ct_imagePath := Some path;
          ct_altText := ct_altText c; ct_imageUrl := ct_imageUrl c;
          ct_imageDataUrl := Some dataUrl; ct_resolved := true |};
     se_style := se_style e; se_originalData := se_originalData e;
     se_zIndex := se_zIndex e |}.

(** One turn of the loop over the image elements; a [Throw] leaves the
    loop. *)
Definition resolveImage (zip : gmap string Part) (relationships : list XmlObj)
    (e : SlideElement) : Js.result SlideElement :=
  match ct_imageId (se_content e) with
  | None => Js.Ok e
  | Some imageId =>
      if negb (Js.truthy imageId) then Js.Ok e
      else if ct_resolved (se_content e) then Js.Ok e
      else
        relationship ← findRelationship relationships imageId;
        match relationship with
        | None => Js.Ok e
        | Some a =>
            match Xml.attr a "Target" with
            | None => Js.typeError
            | Some targetPath =>
                let absolute := absoluteImagePath targetPath in
                match zipFile zip absolute with
                | None => Js.Ok e
                | Some imageFile =>
                    let base64 := Js.btoa (p_content imageFile) in
                    let dataUrl :=
                      "data:" ++ getMimeType targetPath ++ ";base64," ++ base64 in
                    Js.Ok (setImageData e dataUrl absolute)
                end
            end
        end
  end.

Fixpoint resolveImages (zip : gmap string Part) (relationships : list XmlObj)
    (elements : list SlideElement) : list SlideElement :=
  match elements with
  | [] => []
  | e :: rest =>
      match se_type e with
      | tyImage =>
          match resolveImage zip relationships e with
          | Js.Ok e' => e' :: resolveImages zip relationships rest
          | Js.Throw _ => elements
          end
      | _ => e :: resolveImages zip relationships rest
      end
  end.

(** The relationships of a slide, read in either of two layouts. *)
Definition slideRelationships (relsResult : XmlObj) : list XmlObj :=
  match Xml.first relsResult "Relationships" with
  | Some r =>
      match Xml.field r "Relationship" with
      | Some l => l
      | None => default [] (Xml.field relsResult "Relationship")
      end
  | None => default [] (Xml.field relsResult "Relationship")
  end.

Definition setElements (slide : PPTXSlide SlideElement) (elements : list SlideElement)
    (resolved : bool) : PPTXSlide SlideElement :=
  {| s_id := s_id slide; s_slideNumber := s_slideNumber slide;
     s_elements := elements; s_layout := s_layout slide;
     s_imageDataResolved := resolved |}.

Definition resolveImageData (zip : gmap string Part)
    (slide : PPTXSlide SlideElement) (slideRelPath : string)
  : PPTXSlide SlideElement :=
  if s_imageDataResolved slide then slide
  else
    match zipFile zip slideRelPath with
    | Some rels =>
        if Js.truthy (p_content rels) then
          let relationships :=
            slideRelationships (Xml.xmlToObject (p_document rels)) in
          setElements slide
            (resolveImages zip relationships (s_elements slide)) true
        else setElements slide (s_elements slide) true
    | None => setElements slide (s_elements slide) true
    end.

(** [zip.file(path)?.async('string')] is truthy. *)
Definition hasText (zip : gmap string Part) (path : string) : bool :=
  match zipFile zip path with
  | Some p => Js.truthy (p_content p)
  | None => false
  end.

(** *** parseSlide *)

Definition parseSlide (zip : gmap string Part) (slidePath : string)
    (slideNumber : Z) : option (PPTXSlide SlideElement) :=
  match zipFile zip slidePath with
  | None => None
  | Some part =>
      if negb (Js.truthy (p_content part)) then None
      else
        let result := Xml.xmlToObject (p_document part) in
        let slideData := Xml.first result "p:cSld" in
        match slideData with
        | None => None
        | Some data =>
            if negb (Xml.truthy slideData) then None
            else
              let layout :=
                Xml.attrOpt (Xml.first data "p:sldLayoutId") "id" in
              let slide :=
                {| s_id := "slide-" ++ pretty slideNumber;
                   s_slideNumber := slideNumber;
                   s_elements := [];
                   s_layout :=
                     if Xml.truthyStr layout then layout else Some "default";
                   s_imageDataResolved := false |} in
              match Xml.first data "p:spTree" with
              | Some spTree =>
                  if Xml.truthy (Some spTree) then
                    let slide := setElements slide (parseElements spTree) false in
                    let slideRelPath :=
                      Js.replaceLiteral ".xml" ".xml.rels"
                        (Js.replaceLiteral "ppt/slides/" "ppt/slides/_rels/" slidePath) in
                    if hasText zip slideRelPath
                    then Some (resolveImageData zip slide slideRelPath)
                    else
                      let altPath := Js.replaceLiteral ".xml" ".xml.rels" slidePath in
                      if hasText zip altPath
                      then Some (resolveImageData zip slide altPath)
                      else Some slide
                  else Some slide
              | None => Some slide
              end
        end
  end.

(** *** parseSlides *)

(** The predicate of [relationships.filter]; it throws on a
    relationship without attributes. *)
Definition isSlideRel (rel : XmlObj) : Js.result bool :=
  match Xml.dollar rel with
  | None => Js.typeError
  | Some a =>
      match Xml.attr a "Target" with
      | None => Js.Ok false
      | Some target =>
          Js.Ok (Js.includes "slide" target
                 && negb (Js.includes "slideMaster" target)
                 && negb (Js.includes "slideLayout" target))
      end
  end.

Fixpoint filterSlideRels (relationships : list XmlObj) : Js.result (list XmlObj) :=
  match relationships with
  | [] => Js.Ok []
  | rel :: rest =>
      keep ← isSlideRel rel;
      kept ← filterSlideRels rest;
      Js.Ok (if keep : bool then rel :: kept else kept)
  end.

(** The loop [for (let i = 0; i < slideRels.length; i++)]. *)
Fixpoint parseSlideRels (zip : gmap string Part) (slideRels : list XmlObj) (i : Z)
  : list (PPTXSlide SlideElement) :=
  match slideRels with
  | [] => []
  | slideRel :: rest =>
      let target := Xml.attrOpt (Some slideRel) "Target" in
      let slidePath := "ppt/" ++ default "undefined" target in
      match parseSlide zip slidePath (i + 1) with
      | Some slide => slide :: parseSlideRels zip rest (i + 1)
      | None => parseSlideRels zip rest (i + 1)
      end
  end.

(** The slides that one run of [parseSlides] pushes onto
    [document.slides]. *)
Definition parseSlides (zip : gmap string Part) : list (PPTXSlide SlideElement) :=
  match zipFile zip "ppt/_rels/presentation.xml.rels" with
  | None => []
  | Some rels =>
      if negb (Js.truthy (p_content rels)) then []
      else
        let result := Xml.xmlToObject (p_document rels) in
        match filterSlideRels (default [] (Xml.field result "Relationship")) with
        | Js.Ok slideRels => parseSlideRels zip slideRels 0
        | Js.Throw _ => []
        end
  end.

(** *** parsePresentationProperties

    [result.Properties] and [result['cp:coreProperties']] are arrays
    when they exist, so the properties read from them ([props.Title],
    [core['dc:creator']], ...) are all [undefined] and the defaults are
    stored. *)
Definition parsePresentationProperties (zip : gmap string Part) (now : Date)
    (md : DocumentMetadata) : DocumentMetadata :=
  let md1 :=
    match zipFile zip "docProps/app.xml" with
    | Some app =>
        if Js.truthy (p_content app)
           && bool_decide (is_Some (Xml.field (Xml.xmlToObject (p_document app)) "Properties"))
        then {| md_title := ""; md_author := md_author md; md_subject := "";
                md_keywords := []; md_created := md_created md;
                md_modified := md_modified md |}
        else md
    | None => md
    end in
  match zipFile zip "docProps/core.xml" with
  | Some core =>
      if Js.truthy (p_content core)
         && bool_decide (is_Some (Xml.field (Xml.xmlToObject (p_document core)) "cp:coreProperties"))
      then {| md_title := md_title md1; md_author := ""; md_subject := md_subject md1;
              md_keywords := md_keywords md1; md_created := now;
              md_modified := now |}
      else md1
  | None => md1
  end.

End PPTXParser.

(** ** What the decoder guarantees *)

(** How the decoder labels the element that it keeps as number [i]:
    the z-order is [i] and the id is the kind of the node followed by
    [i]. *)
Definition labelled (e : SlideElement) (i : Z) : Prop :=
  se_zIndex e = Some i
  /\ ((se_type e = tyShape /\ se_id e = String.append "shape-" (pretty i))
      \/ (se_type e = tyImage /\ se_id e = String.append "picture-" (pretty i))
      \/ (se_type e = tyText /\ se_id e = String.append "textbox-" (pretty i))).

(** Every element of the sequence is labelled by its position. *)
Definition labelledAll (elements : list SlideElement) : Prop :=
  forall i e, elements !! i = Some e -> labelled e (Z.of_nat i).

(** ** The re-encoder (src/core/PPTXExporter.ts) *)

Module PPTXExporter.

Local Open Scope string_scope.
Local Open Scope Z_scope.

(** [/<a:t[^>]*>.*?<\/a:t>/g] *)
Definition textPattern : Js.Matcher := Js.tagPattern "<a:t" "</a:t>".

(** [`${v}`] for a value that is a string or [undefined]. *)
Definition render (v : option string) : string := default "undefined" v.

(** The [content.text] of the element at [l]. *)
Definition contentText (h : Store) (element : ElementObj) : option string :=
  c ← st_contents h !! o_content element;
  ct_text c.

Definition updateTextElement (h : Store) (xml : string) (element : ElementObj)
  : string :=
  let replacement := "<a:t>" ++ render (contentText h element) ++ "</a:t>" in
  Js.replaceAll textPattern replacement xml.

Definition updateImageElement (xml : string) (_element : ElementObj) : string := xml.

Definition updateShapeElement (xml : string) (_element : ElementObj) : string := xml.

(** The body of the loop over [slide.elements]. *)
Definition updateElement (h : Store) (updatedXml : string) (l : loc) : string :=
  match st_elements h !! l with
  | Some element =>
      match o_type element with
      | tyText => updateTextElement h updatedXml element
      | tyImage => updateImageElement updatedXml element
      | tyShape => updateShapeElement updatedXml element
      | _ => updatedXml
      end
  | None => updatedXml
  end.

Definition updateSlideXML (h : Store) (originalXml : string) (slide : PPTXSlide loc)
  : string :=
  foldl (updateElement h) originalXml (s_elements slide).

(** The elements of type ['text'] among the elements of a slide. *)
Definition textElements (h : Store) (slide : PPTXSlide loc) : list ElementObj :=
  omap (fun l => o ← st_elements h !! l;
                 match o_type o with tyText => Some o | _ => None end)
       (s_elements slide).

Definition findSlidePath (slideNumber : Z) : string :=
  "ppt/slides/slide" ++ pretty slideNumber ++ ".xml".

(** Every entry of the original that is not a folder is copied. *)
Definition copyOriginalStructure (originalZip : gmap string Part) : gmap string string :=
  p_content <$> filter (fun kv => p_dir kv.2 = false) originalZip.

Definition updateSlide (originalZip : gmap string Part) (h : Store)
    (zip : gmap string string) (slide : PPTXSlide loc) : gmap string string :=
  let slidePath := findSlidePath (s_slideNumber slide) in
  match zipFile originalZip slidePath with
  | Some part =>
      if Js.truthy (p_content part)
      then <[slidePath := updateSlideXML h (p_content part) slide]> zip
      else zip
  | None => zip
  end.

Definition updateSlides (originalZip : gmap string Part) (h : Store)
    (d : PPTXDocument) (zip : gmap string string) : gmap string string :=
  foldl (updateSlide originalZip h) zip (slides d).

Definition appXmlPath : string := "docProps/app.xml".
Definition coreXmlPath : string := "docProps/core.xml".

Definition updateAppXml (d : PPTXDocument) (zip : gmap string string)
  : gmap string string :=
  match zip !! appXmlPath with
  | Some appXml =>
      if Js.truthy appXml then
        let xml1 :=
          if Js.truthy (md_title (metadata d))
          then Js.replaceFirst (Js.literalPattern "<Title>" "</Title>")
                 ("<Title>" ++ md_title (metadata d) ++ "</Title>") appXml
          else appXml in
        let xml2 :=
          if Js.truthy (md_subject (metadata d))
          then Js.replaceFirst (Js.literalPattern "<Subject>" "</Subject>")
                 ("<Subject>" ++ md_subject (metadata d) ++ "</Subject>") xml1
          else xml1 in
        <[appXmlPath := xml2]> zip
      else zip
  | None => zip
  end.

(** [now] is [new Date().toISOString()]. *)
Definition updateCoreXml (now : string) (zip : gmap string string)
  : gmap string string :=
  match zip !! coreXmlPath with
  | Some coreXml =>
      if Js.truthy coreXml then
        <[coreXmlPath :=
            Js.replaceFirst
              (Js.literalPattern "<dcterms:modified>" "</dcterms:modified>")
              ("<dcterms:modified>" ++ now ++ "</dcterms:modified>") coreXml]> zip
      else zip
  | None => zip
  end.

Definition updateMetadata (d : PPTXDocument) (now : string)
    (zip : gmap string string) : gmap string string :=
  updateCoreXml now (updateAppXml d zip).

(** The files from which [generateAsync] builds the archive. *)
Definition exportPPTX (originalZip : gmap string Part) (d : PPTXDocument)
    (h : Store) (now : string) : gmap string string :=
  updateMetadata d now (updateSlides originalZip h d (copyOriginalStructure originalZip)).

End PPTXExporter.

(** ** The editor (src/core/PPTXEditor.ts) *)

Record EditorState := {
  currentSlide : Z;
  selectedElement : option string;
  es_changes : list ChangeRecord;
  es_canUndo : bool;
  es_canRedo : bool
}.

(** The options that the engine reads; an absent option is [None]. *)
Record EditorOptions := {
  enableUndoRedo : option bool;
  enableAutoSave : option bool;
  maxUndoSteps : option Z
}.

(** What a mutating call reads from the clock and from [Math.random]:
    the time, the id that [generateChangeId] computes, and the id that an
    add operation gives to the new element. *)
Record Env := {
  env_now : Date;
  env_changeId : string;
  env_elementId : string
}.

Module PPTXEditor.

Local Open Scope string_scope.
Local Open Scope Z_scope.

(** [this.document] is [null] until the first load and is the
    document object of the parser from then on: [parserDocument] is
    that object, [hasDocument] tells whether [this.document] is set.
    The exporter is built at load time from [originalZip] and the same
    document object. *)
Record t := {
  parserDocument : PPTXDocument;
  hasDocument : bool;
  store : Store;
  originalZip : option (gmap string Part);
  changeTracker : ChangeTracker.t;
  state : EditorState;
  undoRedoEnabled : bool
}.

Definition document (e : t) : option PPTXDocument :=
  if hasDocument e then Some (parserDocument e) else None.

(** [now] is the [new Date()] of the parser's constructor. *)
Definition create (options : EditorOptions) (now : Date) : t :=
  {| parserDocument :=
       {| slides := [];
          metadata := {| md_title := ""; md_author := ""; md_subject := "";
                         md_keywords := []; md_created := now;
                         md_modified := now |} |};
     hasDocument := false;
     store := Store.empty;
     originalZip := None;
     changeTracker :=
       ChangeTracker.create
         (match maxUndoSteps options with
          | Some n => if n =? 0 then 50 else n
          | None => 50
          end);
     state := {| currentSlide := 0; selectedElement := None; es_changes := [];
                 es_canUndo := false; es_canRedo := false |};
     undoRedoEnabled := default true (enableUndoRedo options) |}.

Definition withTracker (e : t) (tr : ChangeTracker.t) : t :=
  {| parserDocument := parserDocument e; hasDocument := hasDocument e;
     store := store e; originalZip := originalZip e; changeTracker := tr;
     state := state e; undoRedoEnabled := undoRedoEnabled e |}.

Definition withState (e : t) (s : EditorState) : t :=
  {| parserDocument := parserDocument e; hasDocument := hasDocument e;
     store := store e; originalZip := originalZip e;
     changeTracker := changeTracker e;
     state := s; undoRedoEnabled := undoRedoEnabled e |}.

Definition withDocument (e : t) (d : PPTXDocument) (h : Store) : t :=
  {| parserDocument := d; hasDocument := hasDocument e;
     store := h; originalZip := originalZip e;
     changeTracker := changeTracker e;
     state := state e; undoRedoEnabled := undoRedoEnabled e |}.

Definition updateState (e : t) : t :=
  withState e
    {| currentSlide := currentSlide (state e);
       selectedElement := selectedElement (state e);
       es_changes := ChangeTracker.getChangeHistory (changeTracker e);
       es_canUndo := ChangeTracker.canUndo (changeTracker e);
       es_canRedo := ChangeTracker.canRedo (changeTracker e) |}.

(** [loadPPTX] for a container that JSZip has read.  The parser pushes
    the slides it decodes onto its document object. *)
Definition loadPPTX (e : t) (zip : gmap string Part) (now : Date) : t :=
  let md := PPTXParser.parsePresentationProperties zip now
              (metadata (parserDocument e)) in
  let '(newSlides, h) := Store.allocSlides (PPTXParser.parseSlides zip) (store e) in
  updateState
    {| parserDocument :=
         {| slides := slides (parserDocument e) ++ newSlides; metadata := md |};
       hasDocument := true;
       store := h;
       originalZip := Some zip;
       changeTracker := ChangeTracker.clearHistory (changeTracker e);
       state := state e;
       undoRedoEnabled := undoRedoEnabled e |}.

Definition getDocument (e : t) : option PPTXDocument := document e.

Definition getState (e : t) : EditorState := state e.

Definition setSelection (e : t) (current : Z) (selected : option string) : t :=
  withState e
    {| currentSlide := current; selectedElement := selected;
       es_changes := es_changes (state e);
       es_canUndo := es_canUndo (state e);
       es_canRedo := es_canRedo (state e) |}.

Definition goToSlide (e : t) (slideNumber : Z) : t :=
  match document e with
  | Some d =>
      if (0 <=? slideNumber) && (slideNumber <? Z.of_nat (length (slides d)))
      then updateState (setSelection e slideNumber None)
      else e
  | None => e
  end.

(** The current slide and its index in [document.slides]. *)
Definition currentSlideIndex (e : t) : option (nat * PPTXSlide loc) :=
  d ← document e;
  s ← Js.index (slides d) (currentSlide (state e));
  Some (Z.to_nat (currentSlide (state e)), s).

Definition getCurrentSlide (e : t) : option (PPTXSlide loc) :=
  snd <$> currentSlideIndex e.

Definition getSlides (e : t) : list (PPTXSlide loc) :=
  match document e with
  | Some d => slides d
  | None => []
  end.

Definition selectElement (e : t) (elementId : string) : t :=
  updateState (setSelection e (currentSlide (state e)) (Some elementId)).

Definition deselectElement (e : t) : t :=
  updateState (setSelection e (currentSlide (state e)) None).

(** The private [recordChange]. *)
Definition recordChange (e : t) (env : Env) (type : ChangeType)
    (elementId slideId : string) (previousState newState : option loc)
    (description : Description) : t :=
  if undoRedoEnabled e then
    updateState
      (withTracker e
         (ChangeTracker.recordChange (changeTracker e)
            {| ChangeTracker.k_changeId := env_changeId env;
               ChangeTracker.k_now := env_now env;
               ChangeTracker.k_type := type;
               ChangeTracker.k_elementId := elementId;
               ChangeTracker.k_slideId := slideId;
               ChangeTracker.k_previousState := previousState;
               ChangeTracker.k_newState := newState;
               ChangeTracker.k_description := description |}))
  else e.

Definition withStore (e : t) (h : Store) : t := withDocument e (parserDocument e) h.

Definition setText (newText : string) (c : Content) : Content :=
  {| ct_text := Some newText; ct_shapeType := ct_shapeType c;
     ct_imageId := ct_imageId c; ct_imagePath := ct_imagePath c;
     ct_altText := ct_altText c; ct_imageUrl := ct_imageUrl c;
     ct_imageDataUrl := ct_imageDataUrl c; ct_resolved := ct_resolved c |}.

Definition updateText (e : t) (env : Env) (elementId newText : string) : t :=
  match currentSlideIndex e with
  | None => e
  | Some (_, slide) =>
      match Store.find (store e) (s_elements slide) elementId with
      | None => e
      | Some (l, element) =>
          match o_type element with
          | tyText =>
              let '(previousState, h1) := Store.shallowCopy element (store e) in
              let h2 :=
                Store.setContents h1
                  (alter (setText newText) (o_content element) (st_contents h1)) in
              recordChange (withStore e h2) env chUpdate elementId (s_id slide)
                (Some previousState) (Some l) (UpdatedText newText)
          | _ => e
          end
      end
  end.

Definition updateElementPosition (e : t) (env : Env) (elementId : string)
    (x y : number) : t :=
  match currentSlideIndex e with
  | None => e
  | Some (_, slide) =>
      match Store.find (store e) (s_elements slide) elementId with
      | None => e
      | Some (l, element) =>
          let '(previousState, h1) := Store.shallowCopy element (store e) in
          let h2 :=
            Store.setPositions h1
              (alter (fun _ => {| pos_x := x; pos_y := y |})
                 (o_position element) (st_positions h1)) in
          recordChange (withStore e h2) env chUpdate elementId (s_id slide)
            (Some previousState) (Some l) (MovedElementTo x y)
      end
  end.

Definition updateElementSize (e : t) (env : Env) (elementId : string)
    (width height : number) : t :=
  match currentSlideIndex e with
  | None => e
  | Some (_, slide) =>
      match Store.find (store e) (s_elements slide) elementId with
      | None => e
      | Some (l, element) =>
          let '(previousState, h1) := Store.shallowCopy element (store e) in
          let h2 :=
            Store.setSizes h1
              (alter (fun _ => {| size_width := width; size_height := height |})
                 (o_size element) (st_sizes h1)) in
          recordChange (withStore e h2) env chUpdate elementId (s_id slide)
            (Some previousState) (Some l) (ResizedElementTo width height)
      end
  end.

(** [{ ...a, ...b }] on styles: a property of [b] wins where [b] has
    it. *)
Definition mergeStyle (a b : ElementStyle) : ElementStyle :=
  let pick {A} (x y : option A) : option A :=
    match y with Some _ => y | None => x end in
  {| st_fontSize := pick (st_fontSize a) (st_fontSize b);
     st_fontFamily := pick (st_fontFamily a) (st_fontFamily b);
     st_fontWeight := pick (st_fontWeight a) (st_fontWeight b);
     st_color := pick (st_color a) (st_color b);
     st_backgroundColor := pick (st_backgroundColor a) (st_backgroundColor b);
     st_borderColor := pick (st_borderColor a) (st_borderColor b);
     st_borderWidth := pick (st_borderWidth a) (st_borderWidth b);
     st_alignment := pick (st_alignment a) (st_alignment b);
     st_opacity := pick (st_opacity a) (st_opacity b) |}.

Definition setStyle (o : ElementObj) (ls : loc) : ElementObj :=
  {| o_id := o_id o; o_type := o_type o; o_position := o_position o;
     o_size := o_size o; o_content := o_content o; o_style := Some ls;
     o_originalData := o_originalData o; o_zIndex := o_zIndex o |}.

Definition updateElementStyle (e : t) (env : Env) (elementId : string)
    (style : ElementStyle) : t :=
  match currentSlideIndex e with
  | None => e
  | Some (_, slide) =>
      match Store.find (store e) (s_elements slide) elementId with
      | None => e
      | Some (l, element) =>
          let '(previousState, h1) := Store.shallowCopy element (store e) in
          let old :=
            default emptyStyle (ls ← o_style element; st_styles h1 !! ls) in
          let '(ls, h2) := Store.allocStyle (mergeStyle old style) h1 in
          let h3 :=
            Store.setElements h2 (<[l := setStyle element ls]> (st_elements h2)) in
          recordChange (withStore e h3) env chUpdate elementId (s_id slide)
            (Some previousState) (Some l) UpdatedElementStyle
      end
  end.

(** [slide.elements.push(newElement)] and the record of the addition. *)
Definition addElement (e : t) (env : Env) (newElement : SlideElement)
    (description : Description) : Js.result (string * t) :=
  if negb (hasDocument e) then Js.Throw "No document loaded"
  else
    match currentSlideIndex e with
    | None => Js.Throw "No current slide"
    | Some (i, slide) =>
        let '(l, h1) := Store.allocElement newElement (store e) in
        let d := withSlideElements (parserDocument e) i (s_elements slide ++ [l]) in
        Js.Ok (env_elementId env,
               recordChange (withDocument e d h1) env chAdd (env_elementId env)
                 (s_id slide) None (Some l) description)
    end.

(** [env_elementId] is [`text-${Date.now()}-${...}`]. *)
Definition addTextElement (e : t) (env : Env) (text : string)
    (x y width height : number) : Js.result (string * t) :=
  addElement e env
    {| se_id := env_elementId env;
       se_type := tyText;
       se_position := {| pos_x := x; pos_y := y |};
       se_size := {| size_width := width; size_height := height |};
       se_content := setText text emptyContent;
       se_style :=
         Some {| st_fontSize := Some (Num 14); st_fontFamily := Some "Arial";
                 st_fontWeight := None; st_color := Some "#000000";
                 st_backgroundColor := None; st_borderColor := None;
                 st_borderWidth := None; st_alignment := None;
                 st_opacity := None |};
       se_originalData := None;
       se_zIndex := None |}
    (AddedText text).

(** [env_elementId] is [`image-${Date.now()}-${...}`]. *)
Definition addImageElement (e : t) (env : Env) (imageUrl : string)
    (x y width height : number) : Js.result (string * t) :=
  addElement e env
    {| se_id := env_elementId env;
       se_type := tyImage;
       se_position := {| pos_x := x; pos_y := y |};
       se_size := {| size_width := width; size_height := height |};
       se_content :=
         {| ct_text := None; ct_shapeType := None; ct_imageId := None;
            ct_imagePath := None; ct_altText := Some "Added image";
            ct_imageUrl := Some imageUrl; ct_imageDataUrl := None;
            ct_resolved := false |};
       se_style := Some emptyStyle;
       se_originalData := None;
       se_zIndex := None |}
    AddedImage.

Definition deleteElement (e : t) (env : Env) (elementId : string) : t :=
  match currentSlideIndex e with
  | None => e
  | Some (si, slide) =>
      match Store.findIndex (store e) (s_elements slide) elementId with
      | None => e
      | Some i =>
          match s_elements slide !! i, Store.find (store e) (s_elements slide) elementId with
          | Some deletedElement, Some (_, o) =>
              let d := withSlideElements (parserDocument e) si
                         (base.delete i (s_elements slide)) in
              let e1 :=
                recordChange (withDocument e d (store e)) env chDelete elementId
                  (s_id slide) (Some deletedElement) None
                  (DeletedElement (o_type o)) in
              if bool_decide (selectedElement (state e1) = Some elementId)
              then deselectElement e1
              else e1
          | _, _ => e
          end
      end
  end.

Definition undo (e : t) : bool * t :=
  if negb (undoRedoEnabled e) then (false, e)
  else
    let '(change, tr) := ChangeTracker.undo (changeTracker e) in
    match change with
    | None => (false, withTracker e tr)
    | Some c =>
        let d :=
          if hasDocument e
          then ChangeTracker.revertChange (parserDocument e) (store e) c
          else parserDocument e in
        (true, updateState (withDocument (withTracker e tr) d (store e)))
    end.

Definition redo (e : t) : bool * t :=
  if negb (undoRedoEnabled e) then (false, e)
  else
    let '(change, tr) := ChangeTracker.redo (changeTracker e) in
    match change with
    | None => (false, withTracker e tr)
    | Some c =>
        let d :=
          if hasDocument e
          then ChangeTracker.applyChange (parserDocument e) (store e) c
          else parserDocument e in
        (true, updateState (withDocument (withTracker e tr) d (store e)))
    end.

Definition revertAllChanges (e : t) : t :=
  if hasDocument e then
    let '(changes, tr) := ChangeTracker.revertAllChanges (changeTracker e) in
    let d :=
      foldl (fun d c => ChangeTracker.revertChange d (store e) c)
        (parserDocument e) changes in
    updateState (withDocument (withTracker e tr) d (store e))
  else e.


(** [now] is the [new Date().toISOString()] of the exporter. *)
Definition exportPPTX (e : t) (now : string) : Js.result (gmap string string) :=
  match originalZip e, document e with
  | Some zip, Some d => Js.Ok (PPTXExporter.exportPPTX zip d (store e) now)
  | _, _ => Js.Throw "No document loaded or exporter not initialized"
  end.

Definition getChangeHistory (e : t) : list ChangeRecord :=
  ChangeTracker.getChangeHistory (changeTracker e).

Definition getChangeSummary (e : t) : ChangeTracker.ChangeSummary :=
  ChangeTracker.getChangeSummary (changeTracker e).

(** The arguments that the editor's [recordChange] hands to the
    tracker. *)
Definition callOf (env : Env) (type : ChangeType) (elementId slideId : string)
    (previousState newState : option loc) (description : Description)
  : ChangeTracker.Call :=
  {| ChangeTracker.k_changeId := env_changeId env;
     ChangeTracker.k_now := env_now env;
     ChangeTracker.k_type := type;
     ChangeTracker.k_elementId := elementId;
     ChangeTracker.k_slideId := slideId;
     ChangeTracker.k_previousState := previousState;
     ChangeTracker.k_newState := newState;
     ChangeTracker.k_description := description |}.

(** An editor with a document and with undo and redo switched on, whose
    tracker has a capacity of at least 1 and its cursor in range. *)
Definition ready (e : t) : Prop :=
  hasDocument e = true
  /\ undoRedoEnabled e = true
  /\ ChangeTracker.cursorInRange (changeTracker e)
  /\ 1 <= ChangeTracker.maxUndoSteps (changeTracker e).

(** The current slide is [slide], at index [si], and no slide before it
    has the same id. *)
Definition onSlide (e : t) (si : nat) (slide : PPTXSlide loc) : Prop :=
  currentSlideIndex e = Some (si, slide)
  /\ findSlideIndex (slides (parserDocument e)) (s_id slide) = Some si.


(** The target of a mutation is missing: there is no document, no
    current slide, or no element with the id on the current slide. *)
Definition targetMissing (e : t) (elementId : string) : Prop :=
  document e = None
  \/ getCurrentSlide e = None
  \/ exists slide, getCurrentSlide e = Some slide
       /\ Store.find (store e) (s_elements slide) elementId = None.

End PPTXEditor.

(** ** The canvas (src/components/SlideRenderer.tsx)

    The order in which [renderSlide] paints the elements of a slide. *)

Module SlideRenderer.

(** [(a as any).zIndex || 0] *)
Definition zIndexOf (e : SlideElement) : Z :=
  match se_zIndex e with
  | Some z => z
  | None => 0
  end.

(** [[...slide.elements].sort((a, b) => zIndexA - zIndexB)]: a stable
    sort on the z-order. *)
Fixpoint insertByZIndex (e : SlideElement) (l : list SlideElement)
  : list SlideElement :=
  match l with
  | [] => [e]
  | q :: l' => if zIndexOf q <? zIndexOf e then q :: insertByZIndex e l' else e :: l
  end.

Definition sortedElements (elements : list SlideElement) : list SlideElement :=
  foldr insertByZIndex [] elements.

End SlideRenderer.

(** ** The rules as the specification words them

    These definitions follow the text of the specification, not the
    sources; the theorems compare them with the code. *)

Module Spec.

Local Open Scope string_scope.

(** "a path prefixed [../] resolves against the package root; a path
    prefixed [./] resolves relative to the slides folder; an unprefixed
    path resolves relative to the package root", the package root of the
    slides being [ppt/]. *)
Definition resolveImagePath (targetPath : string) : string :=
  if Js.startsWith "../" targetPath then "ppt/" ++ Js.dropChars 3 targetPath
  else if Js.startsWith "./" targetPath then "ppt/slides/" ++ Js.dropChars 2 targetPath
  else "ppt/" ++ targetPath.

(** "first matching text node per text-bearing run is replaced" *)
Definition updateTextElement (h : Store) (xml : string) (element : ElementObj)
  : string :=
  Js.replaceFirst PPTXExporter.textPattern
    ("<a:t>" ++ PPTXExporter.render (PPTXExporter.contentText h element) ++ "</a:t>")
    xml.

(** "textual substitutions for elements that changed": [changed] holds
    the ids of the elements that a mutation touched. *)
Definition updateElement (h : Store) (changed : list string) (xml : string) (l : loc)
  : string :=
  match st_elements h !! l with
  | Some element =>
      match o_type element with
      | tyText =>
          if bool_decide (o_id element ∈ changed)
          then updateTextElement h xml element
          else xml
      | _ => xml
      end
  | None => xml
  end.

Definition updateSlideXML (h : Store) (changed : list string) (originalXml : string)
    (slide : PPTXSlide loc) : string :=
  foldl (updateElement h changed) originalXml (s_elements slide).

End Spec.

(** ** Sample presentations *)

Module Sample.

Local Open Scope string_scope.
Local Open Scope Z_scope.

Definition el (tagName : string) (attributes : list (string * string))
    (childNodes : list DomNode) : DomNode :=
  ElementNode tagName attributes childNodes.

(** [<p:spPr>] with a transform and a preset geometry. *)
Definition spPr : DomNode :=
  el "p:spPr" []
    [el "a:xfrm" []
       [el "a:off" [("x", "914400"); ("y", "457200")] [];
        el "a:ext" [("cx", "1828800"); ("cy", "914400")] []];
     el "a:prstGeom" [("prst", "rect")] []].

(** [<p:txBody>] with one paragraph of one run. *)
Definition txBody (t : string) : DomNode :=
  el "p:txBody" [] [el "a:p" [] [el "a:r" [] [el "a:t" [] [TextNode t]]]].

Definition sp (t : string) : DomNode := el "p:sp" [] [spPr; txBody t].

Definition txBox (t : string) : DomNode := el "p:txBox" [] [spPr; txBody t].

Definition pic (rId : string) : DomNode :=
  el "p:pic" []
    [el "p:nvPicPr" [] [el "p:cNvPr" [("id", "4"); ("descr", "Logo")] []];
     el "p:blipFill" [] [el "a:blip" [("r:embed", rId)] []];
     spPr].

(** A slide whose shape tree has the children [shapes]. *)
Definition slide (shapes : list DomNode) : DomDocument :=
  {| root_tagName := "p:sld";
     root_attributes :=
       [("xmlns:a", "http://schemas.openxmlformats.org/drawingml/2006/main");
        ("xmlns:r", "http://schemas.openxmlformats.org/officeDocument/2006/relationships");
        ("xmlns:p", "http://schemas.openxmlformats.org/presentationml/2006/main")];
     root_childNodes := [el "p:cSld" [] [el "p:spTree" [] shapes]] |}.

Definition presentationRels : DomDocument :=
  {| root_tagName := "Relationships";
     root_attributes :=
       [("xmlns", "http://schemas.openxmlformats.org/package/2006/relationships")];
     root_childNodes :=
       [el "Relationship"
          [("Id", "rId1");
           ("Type", "http://schemas.openxmlformats.org/officeDocument/2006/relationships/slide");
           ("Target", "slides/slide1.xml")] []] |}.

(** A file with the text of its tree. *)
Definition file (d : DomDocument) : Part :=
  {| p_dir := false; p_content := Xml.serialize d; p_document := d |}.

(** A presentation of one slide. *)
Definition deck (shapes : list DomNode) : gmap string Part :=
  <["ppt/_rels/presentation.xml.rels" := file presentationRels]>
    (<["ppt/slides/slide1.xml" := file (slide shapes)]> ∅).

(** One slide with one text box that reads "Hello". *)
Definition helloDeck : gmap string Part := deck [txBox "Hello"].

(** One slide with a title shape and a text box. *)
Definition titleDeck : gmap string Part := deck [sp "Title"; txBox "Hello"].

Definition options : EditorOptions :=
  {| enableUndoRedo := None; enableAutoSave := None; maxUndoSteps := None |}.

Definition env : Env :=
  {| env_now := 1700000000000; env_changeId := "change-1700000000000-k3j9x2m1q";
     env_elementId := "text-1700000000000-a8b7c6d5e" |}.

(** One slide with a text box in front of a title shape. *)
Definition captionDeck : gmap string Part := deck [txBox "Hello"; sp "Title"].

(** One slide with a picture between two shapes. *)
Definition layeredDeck : gmap string Part := deck [sp "A"; pic "rId2"; sp "C"].

(** One slide with a shape, a picture and a text box. *)
Definition mixedDeck : gmap string Part := deck [sp "A"; pic "rId2"; txBox "C"].

(** The [i]-th recorded mutation of a session on the slide [slide-1]. *)
Definition call (i : Z) : ChangeTracker.Call :=
  {| ChangeTracker.k_changeId := "change-" ++ pretty i;
     ChangeTracker.k_now := 1700000000000 + i;
     ChangeTracker.k_type := chAdd;
     ChangeTracker.k_elementId := "element-" ++ pretty i;
     ChangeTracker.k_slideId := "slide-1";
     ChangeTracker.k_previousState := None;
     ChangeTracker.k_newState := None;
     ChangeTracker.k_description := Literal ("Added element " ++ pretty i) |}.

(** A tracker of capacity 5 after three recordings and one undo. *)
Definition undone : ChangeTracker.t :=
  ChangeTracker.run 5
    [ChangeTracker.OpRecordChange (call 0); ChangeTracker.OpRecordChange (call 1);
     ChangeTracker.OpRecordChange (call 2); ChangeTracker.OpUndo].

(** The type, the text and the z-order of the elements of each slide. *)
Definition outline (ss : list (PPTXSlide SlideElement))
  : list (list (ElementType * option string * option Z)) :=
  map (fun s => map (fun e => (se_type e, ct_text (se_content e), se_zIndex e))
                    (s_elements s)) ss.

(** The text of the first slide part of a container. *)
Definition slideText (zip : gmap string Part) : string :=
  default "" (p_content <$> zipFile zip "ppt/slides/slide1.xml").

(** A new editor after [loadPPTX]. *)
Definition loaded (zip : gmap string Part) : PPTXEditor.t :=
  PPTXEditor.loadPPTX (PPTXEditor.create options 1700000000000) zip 1700000000000.

(** The current slide of an editor that has one. *)
Definition slideOf (e : PPTXEditor.t) : PPTXSlide loc :=
  default {| s_id := ""; s_slideNumber := 0; s_elements := []; s_layout := None;
             s_imageDataResolved := false |}
          (PPTXEditor.getCurrentSlide e).

(** The [content.text] of the element with the id [elementId] on the
    current slide. *)
Definition textOf (e : PPTXEditor.t) (elementId : string) : option string :=
  slide ← PPTXEditor.getCurrentSlide e;
  found ← Store.find (PPTXEditor.store e) (s_elements slide) elementId;
  v ← Store.read (PPTXEditor.store e) (fst found);
  ct_text (se_content v).

(** The [content.text] of a snapshot. *)
Definition snapshotText (e : PPTXEditor.t) (snapshot : option loc) : option string :=
  l ← snapshot;
  v ← Store.read (PPTXEditor.store e) l;
  ct_text (se_content v).

(** The editor after [captionDeck] was loaded and its text box
    deleted. *)
Definition deleted : PPTXEditor.t :=
  PPTXEditor.deleteElement (loaded captionDeck) env "textbox-0".

(** The editor after [helloDeck] was loaded and the text of its text
    box replaced. *)
Definition edited : PPTXEditor.t :=
  PPTXEditor.updateText (loaded helloDeck) env "textbox-0" "World".

(** A record of a change to the element [elementId] of the slide
    [slide-1]. *)
Definition record (type : ChangeType) (elementId : string)
    (previousState newState : option loc) : ChangeRecord :=
  ChangeTracker.changeOf
    (PPTXEditor.callOf env type elementId "slide-1" previousState newState
       UpdatedElementStyle).

(** Options that switch undo and redo off. *)
Definition plainOptions : EditorOptions :=
  {| enableUndoRedo := Some false; enableAutoSave := None; maxUndoSteps := None |}.

End Sample.

(** * Properties *)

(** ** Arrays *)

Lemma slice0_nonneg {A} (l : list A) (e : Z) :
  0 <= e -> Js.slice0 l e = take (Z.to_nat e) l.
Proof.
  intros He. unfold Js.slice0.
  destruct (Z.ltb_spec e 0) as [?|_]; [lia|].
  destruct (Z.le_gt_cases e (Z.of_nat (length l))) as [Hle|Hgt].
  - by rewrite Z.min_l.
  - rewrite Z.min_r by lia. rewrite Nat2Z.id.
    rewrite !take_ge; [done | lia | lia].
Qed.

Lemma index_lookup {A} (l : list A) (i : Z) :
  0 <= i < Z.of_nat (length l) ->
  exists a, Js.index l i = Some a /\ l !! Z.to_nat i = Some a.
Proof.
  intros [H0 Hlt]. unfold Js.index.
  destruct (Z.ltb_spec i 0) as [?|_]; [lia|].
  destruct (lookup_lt_is_Some_2 l (Z.to_nat i)) as [a Ha]; [lia|].
  by exists a.
Qed.

Lemma tail_drop {A} (l : list A) (m : nat) : tail (drop m l) = drop (S m) l.
Proof. revert m. induction l as [|a l IH]; intros [|m]; simpl; try done. Qed.

Lemma tail_map {A B} (f : A -> B) (l : list A) : tail (map f l) = map f (tail l).
Proof. by destruct l. Qed.

(** ** The change tracker *)

Section Tracker.
Import ChangeTracker.

(** The log and the cursor after [recordChange], for a cursor that is
    not below -1. *)
Lemma recordChange_unfold (tr : t) (k : Call) :
  -1 <= currentIndex tr ->
  let pushed := take (Z.to_nat (currentIndex tr + 1)) (changes tr) ++ [changeOf k] in
  recordChange tr k =
    if maxUndoSteps tr <? Z.of_nat (length pushed)
    then {| changes := tail pushed; maxUndoSteps := maxUndoSteps tr;
            currentIndex := currentIndex tr |}
    else {| changes := pushed; maxUndoSteps := maxUndoSteps tr;
            currentIndex := currentIndex tr + 1 |}.
Proof.
  intros Hc. unfold recordChange, Js.shift. cbv zeta.
  rewrite slice0_nonneg by lia.
  destruct (_ <? _); f_equal; lia.
Qed.

Lemma recordChange_max (tr : t) (k : Call) :
  maxUndoSteps (recordChange tr k) = maxUndoSteps tr.
Proof. unfold recordChange. by destruct (_ <? _). Qed.

Lemma pushed_length (tr : t) (k : Call) :
  -1 <= currentIndex tr <= Z.of_nat (length (changes tr)) - 1 ->
  length (take (Z.to_nat (currentIndex tr + 1)) (changes tr) ++ [changeOf k])
    = Z.to_nat (currentIndex tr + 2).
Proof. intros [Hlo Hhi]. rewrite length_app, length_take. simpl. lia. Qed.

(** After a recording the cursor is on the last record. *)
Lemma recordChange_cursor (tr : t) (k : Call) :
  cursorInRange tr ->
  currentIndex (recordChange tr k)
    = Z.of_nat (length (changes (recordChange tr k))) - 1.
Proof.
  intros Hc. pose proof (pushed_length tr k Hc) as Hlen. destruct Hc as [Hlo Hhi].
  rewrite recordChange_unfold by done. cbv zeta.
  destruct (_ <? _); simpl.
  - rewrite length_tl, Hlen. lia.
  - rewrite Hlen. lia.
Qed.

Lemma recordChange_cursorInRange (tr : t) (k : Call) :
  cursorInRange tr -> cursorInRange (recordChange tr k).
Proof.
  intros H. unfold cursorInRange. rewrite (recordChange_cursor tr k H). lia.
Qed.

Lemma recordChange_invariant (tr : t) (k : Call) :
  invariant tr -> invariant (recordChange tr k).
Proof.
  intros [Hc Hcap]. split; [by apply recordChange_cursorInRange|].
  rewrite recordChange_max.
  pose proof (pushed_length tr k Hc) as Hlen. destruct Hc as [Hlo Hhi].
  rewrite recordChange_unfold by done. cbv zeta.
  destruct (Z.ltb_spec (maxUndoSteps tr)
              (Z.of_nat (length (take (Z.to_nat (currentIndex tr + 1)) (changes tr)
                                   ++ [changeOf k])))); simpl.
  - rewrite length_tl, Hlen. lia.
  - lia.
Qed.

Lemma undo_cursorInRange (tr : t) : cursorInRange tr -> cursorInRange (snd (undo tr)).
Proof.
  unfold cursorInRange, undo, canUndo. intros [Hlo Hhi].
  destruct (Z.leb_spec 0 (currentIndex tr)); simpl; lia.
Qed.

Lemma redo_cursorInRange (tr : t) : cursorInRange tr -> cursorInRange (snd (redo tr)).
Proof.
  unfold cursorInRange, redo, canRedo. intros [Hlo Hhi].
  destruct (Z.ltb_spec (currentIndex tr) (Z.of_nat (length (changes tr)) - 1));
    simpl; lia.
Qed.

(** A [revertToChange] that returns moved the cursor to a stored record
    and changed nothing else. *)
Lemma revertToChange_Ok (tr : t) (i : Z) (l : list ChangeRecord) (tr' : t) :
  revertToChange tr i = Js.Ok (l, tr') ->
  changes tr' = changes tr /\ maxUndoSteps tr' = maxUndoSteps tr /\
  currentIndex tr' = i /\ 0 <= i < Z.of_nat (length (changes tr)).
Proof.
  unfold revertToChange.
  destruct (Z.ltb_spec i 0); simpl; [done|].
  destruct (Z.leb_spec (Z.of_nat (length (changes tr))) i); simpl; [done|].
  intros [= <- <-]. simpl. repeat split; lia.
Qed.

Lemma step_max (tr : t) (op : Op) : maxUndoSteps (step tr op) = maxUndoSteps tr.
Proof.
  destruct op; simpl; try done.
  - apply recordChange_max.
  - unfold undo. by destruct (canUndo tr).
  - unfold redo. by destruct (canRedo tr).
  - destruct (revertToChange tr changeIndex) as [[l tr']|] eqn:E; [|done].
    by apply revertToChange_Ok in E as (_ & ? & _).
Qed.

Lemma step_cursorInRange (tr : t) (op : Op) :
  cursorInRange tr -> cursorInRange (step tr op).
Proof.
  intros H. destruct op; simpl.
  - by apply recordChange_cursorInRange.
  - by apply undo_cursorInRange.
  - by apply redo_cursorInRange.
  - unfold cursorInRange. simpl. lia.
  - destruct (revertToChange tr changeIndex) as [[l tr']|] eqn:E; [|done].
    apply revertToChange_Ok in E as (Hc & _ & Hi & Hr).
    unfold cursorInRange. rewrite Hc, Hi. lia.
  - unfold cursorInRange. simpl. lia.
Qed.

Lemma step_invariant (tr : t) (op : Op) : invariant tr -> invariant (step tr op).
Proof.
  intros [Hc Hlen]. destruct op.
  - by apply recordChange_invariant.
  - split; [by apply (step_cursorInRange tr OpUndo)|].
    simpl. unfold undo. by destruct (canUndo tr).
  - split; [by apply (step_cursorInRange tr OpRedo)|].
    simpl. unfold redo. by destruct (canRedo tr).
  - split; [by apply (step_cursorInRange tr OpClearHistory)|]. simpl. lia.
  - split; [by apply (step_cursorInRange tr (OpRevertToChange changeIndex))|].
    simpl. destruct (revertToChange tr changeIndex) as [[l tr']|] eqn:E; [|done].
    by apply revertToChange_Ok in E as (-> & -> & _).
  - split; [by apply (step_cursorInRange tr OpRevertAllChanges)|]. simpl. lia.
Qed.

Lemma run_snoc (n : Z) (ops : list Op) (op : Op) :
  run n (ops ++ [op]) = step (run n ops) op.
Proof. unfold run. by rewrite foldl_app. Qed.

Lemma run_max (n : Z) (ops : list Op) : maxUndoSteps (run n ops) = n.
Proof.
  induction ops as [|op ops IH] using rev_ind; [done|].
  by rewrite run_snoc, step_max.
Qed.

(** Whatever the capacity, the cursor of a tracker that is driven
    through its interface stays on a stored record or on -1. *)
Lemma run_cursorInRange (n : Z) (ops : list Op) : cursorInRange (run n ops).
Proof.
  induction ops as [|op ops IH] using rev_ind.
  - unfold cursorInRange. simpl. lia.
  - rewrite run_snoc. by apply step_cursorInRange.
Qed.

Lemma run_invariant (n : Z) (ops : list Op) : 0 <= n -> invariant (run n ops).
Proof.
  intros Hn. induction ops as [|op ops IH] using rev_ind.
  - unfold invariant. simpl. lia.
  - rewrite run_snoc. by apply step_invariant.
Qed.

(** C10.  A tracker constructed with a capacity of at least 1 satisfies
    the invariant (the cursor lies between -1 and the index of the last
    record, and the number of records does not exceed the capacity), and
    each of [recordChange], [undo], [redo], [clearHistory],
    [revertToChange] and [revertAllChanges] leads from a state that
    satisfies it to a state that satisfies it, with the same capacity. *)
Theorem tracker_invariant_preserved (n : Z) (tr : t) (op : Op) :
  1 <= n -> maxUndoSteps tr = n -> invariant tr ->
  invariant (create n)
  /\ invariant (step tr op)
  /\ maxUndoSteps (step tr op) = n.
Proof.
  intros Hn Hmax Hinv. split_and!.
  - unfold invariant. simpl. lia.
  - by apply step_invariant.
  - by rewrite step_max.
Qed.

Lemma tracker_invariant_preserved_witness :
  1 <= 5
  /\ maxUndoSteps Sample.undone = 5
  /\ invariant Sample.undone
  /\ invariant (create 5)
  /\ invariant (step Sample.undone (OpRecordChange (Sample.call 3)))
  /\ maxUndoSteps (step Sample.undone (OpRecordChange (Sample.call 3))) = 5.
Proof.
  assert (H1 : 1 <= 5) by lia.
  assert (H2 : maxUndoSteps Sample.undone = 5) by reflexivity.
  assert (H3 : invariant Sample.undone) by (vm_compute; repeat split; discriminate).
  split_and!; [exact H1 | exact H2 | exact H3 | ..];
    apply (tracker_invariant_preserved 5 Sample.undone
             (OpRecordChange (Sample.call 3)) H1 H2 H3).
Defined.

(** In a state whose cursor is in range, [undo] returns nothing exactly
    when the cursor is below 0 and [redo] returns nothing exactly when
    the cursor is on the last record. *)
Lemma undo_redo_in_range (tr : t) :
  cursorInRange tr ->
  let last := Z.of_nat (length (changes tr)) - 1 in
  (fst (undo tr) = None <-> currentIndex tr < 0)
  /\ (currentIndex tr < 0 -> undo tr = (None, tr))
  /\ (0 <= currentIndex tr ->
      exists c, changes tr !! Z.to_nat (currentIndex tr) = Some c /\
                undo tr = (Some c, setIndex tr (currentIndex tr - 1)))
  /\ (fst (redo tr) = None <-> currentIndex tr = last)
  /\ (currentIndex tr = last -> redo tr = (None, tr))
  /\ (currentIndex tr <> last ->
      exists c, changes tr !! Z.to_nat (currentIndex tr + 1) = Some c /\
                redo tr = (Some c, setIndex tr (currentIndex tr + 1))).
Proof.
  intros [Hlo Hhi] last.
  assert (Hundo : 0 <= currentIndex tr ->
    exists c, changes tr !! Z.to_nat (currentIndex tr) = Some c /\
              undo tr = (Some c, setIndex tr (currentIndex tr - 1))).
  { intros H0.
    destruct (index_lookup (changes tr) (currentIndex tr)) as (c & Hi & Hl); [lia|].
    exists c. split; [done|]. unfold undo, canUndo.
    destruct (Z.leb_spec 0 (currentIndex tr)); [|lia]. by rewrite Hi. }
  assert (Hredo : currentIndex tr <> last ->
    exists c, changes tr !! Z.to_nat (currentIndex tr + 1) = Some c /\
              redo tr = (Some c, setIndex tr (currentIndex tr + 1))).
  { intros Hne.
    destruct (index_lookup (changes tr) (currentIndex tr + 1)) as (c & Hi & Hl);
      [unfold last in *; lia|].
    exists c. split; [done|]. unfold redo, canRedo.
    destruct (Z.ltb_spec (currentIndex tr) (Z.of_nat (length (changes tr)) - 1));
      [|unfold last in *; lia].
    by rewrite Hi. }
  assert (Hundo0 : currentIndex tr < 0 -> undo tr = (None, tr)).
  { intros Hneg. unfold undo, canUndo.
    by destruct (Z.leb_spec 0 (currentIndex tr)); [lia|]. }
  assert (Hredo0 : currentIndex tr = last -> redo tr = (None, tr)).
  { intros Heq. unfold redo, canRedo.
    by destruct (Z.ltb_spec (currentIndex tr) (Z.of_nat (length (changes tr)) - 1));
      [unfold last in *; lia|]. }
  repeat split; try done.
  - intros Hnone. destruct (Z.lt_ge_cases (currentIndex tr) 0) as [|Hge]; [done|].
    destruct (Hundo Hge) as (c & _ & E). by rewrite E in Hnone.
  - intros Hneg. by rewrite Hundo0.
  - intros Hnone. destruct (Z.eq_dec (currentIndex tr) last) as [|Hne]; [done|].
    destruct (Hredo Hne) as (c & _ & E). by rewrite E in Hnone.
  - intros Heq. by rewrite Hredo0.
Qed.

(** C7.  In every state that a tracker reaches through its interface,
    whatever its capacity: [undo] returns nothing exactly when the cursor
    is below 0, and then changes nothing; otherwise it returns the record
    at the cursor and moves the cursor one step down.  [redo] returns
    nothing exactly when the cursor is on the last record of the log (or
    the log is empty), and then changes nothing; otherwise it moves the
    cursor one step up and returns the record that is there. *)
Theorem undo_redo_contract (n : Z) (ops : list Op) :
  let tr := run n ops in
  let last := Z.of_nat (length (changes tr)) - 1 in
  (fst (undo tr) = None <-> currentIndex tr < 0)
  /\ (currentIndex tr < 0 -> undo tr = (None, tr))
  /\ (0 <= currentIndex tr ->
      exists c, changes tr !! Z.to_nat (currentIndex tr) = Some c /\
                undo tr = (Some c, setIndex tr (currentIndex tr - 1)))
  /\ (fst (redo tr) = None <-> currentIndex tr = last)
  /\ (currentIndex tr = last -> redo tr = (None, tr))
  /\ (currentIndex tr <> last ->
      exists c, changes tr !! Z.to_nat (currentIndex tr + 1) = Some c /\
                redo tr = (Some c, setIndex tr (currentIndex tr + 1))).
Proof. intros tr. apply undo_redo_in_range, run_cursorInRange. Qed.

(** After three recordings and one undo, [undo] returns the second
    record and [redo] the third. *)
Lemma undo_redo_contract_witness :
  currentIndex Sample.undone = 1
  /\ undo Sample.undone
     = (Some (changeOf (Sample.call 1)), setIndex Sample.undone 0)
  /\ redo Sample.undone
     = (Some (changeOf (Sample.call 2)), setIndex Sample.undone 2).
Proof.
  unfold Sample.undone.
  destruct (undo_redo_contract 5
              [OpRecordChange (Sample.call 0); OpRecordChange (Sample.call 1);
               OpRecordChange (Sample.call 2); OpUndo])
    as (_ & _ & Hu & _ & _ & Hr).
  split_and!; [reflexivity | |].
  - destruct Hu as (c & Hc & ->); [vm_compute; discriminate|].
    vm_compute in Hc. by injection Hc as <-.
  - destruct Hr as (c & Hc & ->); [vm_compute; discriminate|].
    vm_compute in Hc. by injection Hc as <-.
Defined.

(** After any number of recordings into a new tracker the log holds the
    latest records, as many as the capacity admits, and the cursor is on
    the last of them. *)
Lemma recordAll_create (n : nat) (ks : list Call) :
  changes (recordAll (create (Z.of_nat n)) ks)
    = map changeOf (drop (length ks - n) ks)
  /\ currentIndex (recordAll (create (Z.of_nat n)) ks)
    = Z.of_nat (length (changes (recordAll (create (Z.of_nat n)) ks))) - 1
  /\ maxUndoSteps (recordAll (create (Z.of_nat n)) ks) = Z.of_nat n.
Proof.
  induction ks as [|k ks IH] using rev_ind; [done|].
  destruct IH as (Hch & Hidx & Hmax).
  unfold recordAll in *. rewrite foldl_app. simpl.
  set (tr := foldl recordChange (create (Z.of_nat n)) ks) in *.
  split_and!; [| apply recordChange_cursor; unfold cursorInRange; lia
               | by rewrite recordChange_max].
  rewrite recordChange_unfold by lia. cbv zeta.
  rewrite Hmax, Hidx.
  replace (Z.to_nat (Z.of_nat (length (changes tr)) - 1 + 1))
    with (length (changes tr)) by lia.
  rewrite firstn_all, Hch. rewrite length_app, length_map, length_drop. simpl.
  rewrite length_app. simpl.
  destruct (Z.ltb_spec (Z.of_nat n) (Z.of_nat (length ks - (length ks - n) + 1)));
    simpl.
  - assert (n <= length ks)%nat by lia.
    replace [changeOf k] with (map changeOf [k]) by done.
    rewrite <- map_app, tail_map. f_equal.
    rewrite <- drop_app_le by lia. rewrite tail_drop. f_equal. lia.
  - replace (length ks - n)%nat with 0%nat by lia.
    replace (length ks + 1 - n)%nat with 0%nat by lia.
    rewrite !drop_0. by rewrite map_app.
Qed.

(** C5.  After [n + 5] recorded mutations a tracker of capacity [n] holds
    exactly [n] records: they are the last [n] that were recorded, in
    their order, the oldest five are gone, and the cursor is on the most
    recent record. *)
Theorem bounded_history (n : nat) (ks : list Call) :
  length ks = (n + 5)%nat ->
  let tr := recordAll (create (Z.of_nat n)) ks in
  length (getChangeHistory tr) = n
  /\ getChangeHistory tr = map changeOf (drop 5 ks)
  /\ currentIndex tr = Z.of_nat (length (getChangeHistory tr)) - 1.
Proof.
  intros Hlen tr. unfold getChangeHistory.
  destruct (recordAll_create n ks) as (Hch & Hidx & _). fold tr in Hch, Hidx.
  replace (length ks - n)%nat with 5%nat in Hch by lia.
  assert (Hl : length (changes tr) = n).
  { rewrite Hch, length_map, length_drop. lia. }
  split_and!; done.
Qed.

Lemma bounded_history_witness :
  let ks := map Sample.call [0; 1; 2; 3; 4; 5; 6] in
  length ks = (2 + 5)%nat
  /\ length (getChangeHistory (recordAll (create 2) ks)) = 2%nat
  /\ getChangeHistory (recordAll (create 2) ks)
     = map changeOf (map Sample.call [5; 6])
  /\ currentIndex (recordAll (create 2) ks) = 1.
Proof.
  intros ks. split; [reflexivity|].
  destruct (bounded_history 2 ks) as (Hlen & Hch & Hidx); [reflexivity|].
  split_and!; [exact Hlen | exact Hch |].
  change (create 2) with (create (Z.of_nat 2)). rewrite Hidx, Hlen. reflexivity.
Defined.

(** A recording keeps the records up to the cursor and appends the new
    one; nothing can be redone afterwards. *)
Lemma recordChange_truncates (tr : t) (k : Call) :
  -1 <= currentIndex tr ->
  let kept := take (Z.to_nat (currentIndex tr + 1)) (changes tr) in
  let tr' := recordChange tr k in
  (changes tr' = kept ++ [changeOf k] \/ changes tr' = tail (kept ++ [changeOf k]))
  /\ canRedo tr' = false
  /\ redo tr' = (None, tr').
Proof.
  intros Hlo kept tr'.
  assert (Hlen : Z.of_nat (length (kept ++ [changeOf k])) <= currentIndex tr + 2).
  { unfold kept. rewrite length_app, length_take. simpl. lia. }
  assert (Hcan : canRedo tr' = false).
  { unfold tr'. rewrite recordChange_unfold by done. cbv zeta. fold kept.
    destruct (maxUndoSteps tr <? Z.of_nat (length (kept ++ [changeOf k])));
      unfold canRedo; simpl.
    - rewrite length_tl. apply Z.ltb_ge. lia.
    - apply Z.ltb_ge. lia. }
  split_and!; [| done | unfold redo; by rewrite Hcan].
  unfold tr'. rewrite recordChange_unfold by done. cbv zeta. fold kept.
  destruct (_ <? _); simpl; auto.
Qed.

Lemma undo_Some_cursor (tr tr1 : t) (c : ChangeRecord) :
  undo tr = (Some c, tr1) ->
  changes tr1 = changes tr /\ currentIndex tr1 = currentIndex tr - 1
  /\ 0 <= currentIndex tr.
Proof.
  unfold undo, canUndo. destruct (Z.leb_spec 0 (currentIndex tr)); [|done].
  by intros [= _ <-].
Qed.

(** C6.  In every state whose cursor is not below -1, [recordChange]
    keeps the records up to the cursor, drops all records after it and
    appends the new record (the oldest record leaves when the capacity is
    exceeded).  In every state, once [undo] has returned a record, a
    recording leaves [canRedo] false and [redo] returns nothing: the
    record that was undone is no longer in reach. *)
Theorem redo_branch_truncated (tr : t) (k : Call) :
  (-1 <= currentIndex tr ->
   let kept := take (Z.to_nat (currentIndex tr + 1)) (changes tr) in
   (changes (recordChange tr k) = kept ++ [changeOf k]
    \/ changes (recordChange tr k) = tail (kept ++ [changeOf k]))
   /\ canRedo (recordChange tr k) = false
   /\ redo (recordChange tr k) = (None, recordChange tr k))
  /\ (forall c tr1, undo tr = (Some c, tr1) ->
      let kept := take (Z.to_nat (currentIndex tr)) (changes tr) in
      (changes (recordChange tr1 k) = kept ++ [changeOf k]
       \/ changes (recordChange tr1 k) = tail (kept ++ [changeOf k]))
      /\ canRedo (recordChange tr1 k) = false
      /\ redo (recordChange tr1 k) = (None, recordChange tr1 k)).
Proof.
  split.
  - apply recordChange_truncates.
  - intros c tr1 Hu kept.
    apply undo_Some_cursor in Hu as (Hch & Hidx & H0).
    destruct (recordChange_truncates tr1 k) as (Ht & Hc & Hr); [lia|].
    rewrite Hch, Hidx in Ht.
    replace (currentIndex tr - 1 + 1) with (currentIndex tr) in Ht by lia.
    done.
Qed.

Lemma redo_branch_truncated_witness :
  let tr := run 5 [OpRecordChange (Sample.call 0); OpRecordChange (Sample.call 1);
                   OpRecordChange (Sample.call 2)] in
  undo tr = (Some (changeOf (Sample.call 2)), Sample.undone)
  /\ changes (recordChange Sample.undone (Sample.call 3))
     = map changeOf [Sample.call 0; Sample.call 1; Sample.call 3]
  /\ canRedo (recordChange Sample.undone (Sample.call 3)) = false
  /\ redo (recordChange Sample.undone (Sample.call 3))
     = (None, recordChange Sample.undone (Sample.call 3)).
Proof.
  intros tr.
  assert (Hu : undo tr = (Some (changeOf (Sample.call 2)), Sample.undone))
    by reflexivity.
  split; [exact Hu|].
  destruct (proj2 (redo_branch_truncated tr (Sample.call 3)) _ _ Hu) as (_ & Hc & Hr).
  split_and!; [reflexivity | exact Hc | exact Hr].
Defined.

End Tracker.

(** ** Strings *)

Section Strings.
Local Open Scope string_scope.

Lemma startsWith_app (p r : string) : Js.startsWith p (p ++ r) = true.
Proof.
  induction p as [|a p IH]; simpl; [done|].
  by rewrite Ascii.eqb_refl, IH.
Qed.

Lemma startsWith_inv (p s : string) :
  Js.startsWith p s = true -> exists r, s = p ++ r.
Proof.
  revert s. induction p as [|a p IH]; intros s H.
  - by exists s.
  - destruct s as [|b s]; [done|]. simpl in H.
    apply andb_prop in H as [Hab Hps].
    apply Ascii.eqb_eq in Hab as ->.
    destruct (IH s Hps) as [r ->]. by exists r.
Qed.

Lemma dropChars_app (p r : string) : Js.dropChars (String.length p) (p ++ r) = r.
Proof. induction p as [|a p IH]; simpl; [by destruct r | done]. Qed.

(** A pattern at the very start of the input is its first occurrence. *)
Lemma replaceLiteral_prefix (pat repl r : string) :
  Js.replaceLiteral pat repl (pat ++ r) = repl ++ r.
Proof.
  destruct (pat ++ r) as [|c s] eqn:E; simpl.
  - rewrite <- E at 1. rewrite startsWith_app. rewrite <- E at 1.
    by rewrite dropChars_app.
  - rewrite <- E at 1. rewrite startsWith_app.
    rewrite <- E. by rewrite dropChars_app.
Qed.

End Strings.

(** ** Image relationships *)

Section ImagePaths.
Local Open Scope string_scope.
Import PPTXParser.

Lemma absoluteImagePath_parent (rest : string) :
  absoluteImagePath ("../" ++ rest) = "ppt/" ++ rest.
Proof.
  unfold absoluteImagePath. rewrite startsWith_app.
  apply replaceLiteral_prefix.
Qed.

Lemma absoluteImagePath_here (rest : string) :
  absoluteImagePath ("./" ++ rest) = "ppt/slides/" ++ rest.
Proof.
  unfold absoluteImagePath.
  replace (Js.startsWith "../" ("./" ++ rest)) with false by done.
  rewrite startsWith_app. apply replaceLiteral_prefix.
Qed.

Lemma absoluteImagePath_ppt (rest : string) :
  absoluteImagePath ("ppt/" ++ rest) = "ppt/" ++ rest.
Proof. done. Qed.

(** The rule as the specification words it and the code agree on every
    target that does not already start with [ppt/]. *)
Lemma absoluteImagePath_spec (targetPath : string) :
  Js.startsWith "ppt/" targetPath = false ->
  absoluteImagePath targetPath = Spec.resolveImagePath targetPath.
Proof.
  intros H. unfold absoluteImagePath, Spec.resolveImagePath. rewrite H. cbn [negb].
  destruct (Js.startsWith "../" targetPath) eqn:E1.
  { apply startsWith_inv in E1 as [r ->]. rewrite replaceLiteral_prefix. reflexivity. }
  destruct (Js.startsWith "./" targetPath) eqn:E2; [|done].
  apply startsWith_inv in E2 as [r ->]. rewrite replaceLiteral_prefix. reflexivity.
Qed.

(** C9, as stated, fails: the target [ppt/media/image1.png] has neither
    prefix, and it is kept as it is instead of being resolved against
    [ppt/]. *)
Lemma image_path_counterexample :
  Js.startsWith "../" "ppt/media/image1.png" = false
  /\ Js.startsWith "./" "ppt/media/image1.png" = false
  /\ Spec.resolveImagePath "ppt/media/image1.png" = "ppt/ppt/media/image1.png"
  /\ absoluteImagePath "ppt/media/image1.png" = "ppt/media/image1.png"
  /\ absoluteImagePath "ppt/media/image1.png"
       <> Spec.resolveImagePath "ppt/media/image1.png".
Proof. split_and!; done. Qed.

(** C9, amended.  A target [../rest] resolves to [ppt/rest]; a target
    [./rest] resolves to [ppt/slides/rest]; a target with neither prefix
    resolves to [ppt/] followed by the target, unless it already starts
    with [ppt/], in which case it is kept as it is. *)
Theorem image_path_resolution (targetPath : string) :
  (forall rest, targetPath = "../" ++ rest ->
     absoluteImagePath targetPath = "ppt/" ++ rest)
  /\ (forall rest, targetPath = "./" ++ rest ->
     absoluteImagePath targetPath = "ppt/slides/" ++ rest)
  /\ (Js.startsWith "../" targetPath = false ->
      Js.startsWith "./" targetPath = false ->
      Js.startsWith "ppt/" targetPath = false ->
      absoluteImagePath targetPath = "ppt/" ++ targetPath)
  /\ (Js.startsWith "ppt/" targetPath = true ->
      absoluteImagePath targetPath = targetPath).
Proof.
  split_and!.
  - intros rest ->. apply absoluteImagePath_parent.
  - intros rest ->. apply absoluteImagePath_here.
  - intros H1 H2 H3. unfold absoluteImagePath. by rewrite H1, H2, H3.
  - intros H. apply startsWith_inv in H as [r ->]. apply absoluteImagePath_ppt.
Qed.

Lemma image_path_resolution_witness :
  absoluteImagePath "../media/image1.png" = "ppt/media/image1.png"
  /\ absoluteImagePath "./media/image1.png" = "ppt/slides/media/image1.png"
  /\ absoluteImagePath "media/image1.png" = "ppt/media/image1.png"
  /\ absoluteImagePath "ppt/media/image1.png" = "ppt/media/image1.png".
Proof.
  split_and!.
  - apply (image_path_resolution "../media/image1.png"). reflexivity.
  - apply (image_path_resolution "./media/image1.png"). reflexivity.
  - apply (image_path_resolution "media/image1.png"); reflexivity.
  - apply (image_path_resolution "ppt/media/image1.png"). reflexivity.
Defined.

End ImagePaths.

(** ** The shape tree *)

Section ShapeTree.
Import PPTXParser.

Lemma visit_numbered (nodeType : string) (st : Collected) (node : XmlObj) :
  numbered st -> numbered (visit nodeType st node).
Proof.
  intros [Hg Hall]. unfold visit.
  destruct (parseNode nodeType node (snd st)) as [element|]; [|done].
  split; simpl.
  - rewrite length_app. simpl. lia.
  - intros i p Hp. apply lookup_app_Some in Hp as [Hp|[Hge Hp]].
    + by apply Hall.
    + apply list_lookup_singleton_Some in Hp as [Hi <-]. simpl.
      rewrite Hg. split; [lia | f_equal; lia].
Qed.

Lemma foldl_visit_numbered (nodeType : string) (nodes : list XmlObj) (st : Collected) :
  numbered st -> numbered (foldl (visit nodeType) st nodes).
Proof.
  revert st. induction nodes as [|node nodes IH]; intros st H; [done|].
  simpl. by apply IH, visit_numbered.
Qed.

Lemma collect_numbered (spTree : XmlObj) : numbered (collect spTree).
Proof.
  unfold collect.
  assert (H0 : numbered ([], 0)) by (split; [done | by intros i p]).
  revert H0. generalize (([], 0) : Collected).
  induction (allChildNodes spTree) as [|nodeType types IH]; intros st H; [done|].
  simpl. apply IH. unfold visitType. by apply foldl_visit_numbered.
Qed.

(** The sort has nothing to move in a list whose keys count upwards. *)
Lemma sortByIndex_counting (l : list (SlideElement * Z)) (b : Z) :
  (forall i p, l !! i = Some p -> snd p = b + Z.of_nat i) ->
  sortByIndex l = l.
Proof.
  revert b. induction l as [|p l IH]; intros b H; [done|].
  simpl. rewrite (IH (b + 1)).
  - destruct l as [|q l]; [done|]. simpl.
    pose proof (H 0%nat p eq_refl) as Hp. pose proof (H 1%nat q eq_refl) as Hq.
    destruct (Z.ltb_spec (snd q) (snd p)); [lia | done].
  - intros i q Hq. rewrite (H (S i) q Hq). lia.
Qed.

Lemma parseElements_collect (spTree : XmlObj) :
  parseElements spTree = map fst (fst (collect spTree)).
Proof.
  unfold parseElements. rewrite (sortByIndex_counting _ 0); [done|].
  intros i p Hp. destruct (collect_numbered spTree) as [_ H].
  destruct (H i p Hp) as [-> _]. lia.
Qed.

(** The z-order of a decoded element is its position among the elements
    of the slide: the values are 0, 1, 2, ... in the order in which the
    loop met the elements. *)
Lemma parseElements_zIndex (spTree : XmlObj) (i : nat) (e : SlideElement) :
  parseElements spTree !! i = Some e -> se_zIndex e = Some (Z.of_nat i).
Proof.
  rewrite parseElements_collect, list_lookup_fmap.
  destruct (fst (collect spTree) !! i) as [p|] eqn:Hp; [|done].
  intros [= <-]. by destruct (collect_numbered spTree) as [_ H], (H i p Hp).
Qed.

(** A shape, a picture and a text box, each tag once, come out in
    document order. *)
Lemma mixedDeck_in_document_order :
  Sample.outline (parseSlides Sample.mixedDeck)
  = [[(tyShape, Some "A", Some 0); (tyImage, None, Some 1);
      (tyText, Some "C", Some 2)]]%string.
Proof. vm_compute. reflexivity. Qed.

(** C3.  The code at the failing input: a shape tree with the children
    shape "A", picture, shape "C" is decoded into the two shapes followed
    by the picture, so the picture, second in the document, gets the
    z-order 2 and the shape "C", third in the document, gets 1. *)
Theorem shape_tree_grouped_by_tag :
  Sample.outline (parseSlides Sample.layeredDeck)
  = [[(tyShape, Some "A", Some 0); (tyShape, Some "C", Some 1);
      (tyImage, None, Some 2)]]%string.
Proof. vm_compute. reflexivity. Qed.

End ShapeTree.

(** ** The re-encoder *)

Section Exporter.
Import PPTXExporter.
Local Open Scope string_scope.

Lemma foldl_updateElement (h : Store) (els : list loc) (xml : string) :
  foldl (updateElement h) xml els
  = foldl (updateTextElement h) xml
      (omap (fun l => o ← st_elements h !! l;
                      match o_type o with tyText => Some o | _ => None end) els).
Proof.
  revert xml. induction els as [|l els IH]; intros xml; [done|].
  simpl. rewrite IH. unfold updateElement.
  destruct (st_elements h !! l) as [o|]; simpl; [|done].
  by destruct (o_type o).
Qed.

(** C8, as stated, fails.  After loading a slide with the text box
    "Hello" in front of the shape "Title", and with no mutation at all,
    the code rewrites the slide: the text box is substituted although it
    did not change, and the substitution also replaces the text node of
    the title.  The rule as worded leaves the slide as it is, whether the
    text box counts as changed or not. *)
Lemma export_substitution_counterexample :
  let e := Sample.loaded Sample.captionDeck in
  let h := PPTXEditor.store e in
  let slide := Sample.slideOf e in
  let xml := Sample.slideText Sample.captionDeck in
  PPTXEditor.getChangeHistory e = []
  /\ map o_id (textElements h slide) = ["textbox-0"]
  /\ xml = Xml.serialize (Sample.slide [Sample.txBox "Hello"; Sample.sp "Title"])
  /\ updateSlideXML h xml slide
     = Xml.serialize (Sample.slide [Sample.txBox "Hello"; Sample.sp "Hello"])
  /\ Spec.updateSlideXML h [] xml slide = xml
  /\ Spec.updateSlideXML h ["textbox-0"] xml slide = xml
  /\ updateSlideXML h xml slide <> Spec.updateSlideXML h [] xml slide
  /\ updateSlideXML h xml slide <> Spec.updateSlideXML h ["textbox-0"] xml slide.
Proof.
  vm_compute. split_and!; try reflexivity; intros H; discriminate H.
Qed.

(** C8, amended.  For each slide the re-encoder runs the text
    substitution once for every element of type text, in the order of the
    elements and whether or not an element changed; elements of type
    image or shape leave the XML as it is, so a slide without an element
    of type text is written back unchanged. *)
Theorem export_substitutes_every_text_element (h : Store) (xml : string)
    (slide : PPTXSlide loc) :
  updateSlideXML h xml slide
    = foldl (updateTextElement h) xml (textElements h slide)
  /\ (textElements h slide = [] -> updateSlideXML h xml slide = xml)
  /\ (forall element, updateImageElement xml element = xml)
  /\ (forall element, updateShapeElement xml element = xml).
Proof.
  assert (H : updateSlideXML h xml slide
              = foldl (updateTextElement h) xml (textElements h slide))
    by apply foldl_updateElement.
  split_and!; [done | | done | done].
  intros Hnil. by rewrite H, Hnil.
Qed.

Lemma export_substitutes_every_text_element_witness :
  let e := Sample.loaded Sample.layeredDeck in
  let h := PPTXEditor.store e in
  let slide := Sample.slideOf e in
  let xml := Sample.slideText Sample.layeredDeck in
  length (s_elements slide) = 3%nat
  /\ textElements h slide = []
  /\ updateSlideXML h xml slide = xml.
Proof.
  intros e h slide xml.
  assert (H : textElements h slide = []) by (vm_compute; reflexivity).
  split_and!; [vm_compute; reflexivity | exact H |].
  exact (proj1 (proj2 (export_substitutes_every_text_element h xml slide)) H).
Defined.

Lemma copyOriginalStructure_lookup (zip : gmap string Part) (path : string) :
  copyOriginalStructure zip !! path = p_content <$> zipFile zip path.
Proof.
  unfold copyOriginalStructure, zipFile. rewrite lookup_fmap.
  destruct (zip !! path) as [p|] eqn:E.
  - destruct (p_dir p) eqn:Ed.
    + rewrite (map_lookup_filter_None_2 _ zip path); [done|].
      right. intros x Hx. simplify_eq. simpl. by rewrite Ed.
    + by rewrite (map_lookup_filter_Some_2 _ zip path p E Ed).
  - rewrite (map_lookup_filter_None_2 _ zip path); [done|]. by left.
Qed.

Lemma updateSlide_other (zip0 : gmap string Part) (h : Store)
    (zip : gmap string string) (slide : PPTXSlide loc) (path : string) :
  findSlidePath (s_slideNumber slide) <> path ->
  updateSlide zip0 h zip slide !! path = zip !! path.
Proof.
  intros Hne. unfold updateSlide.
  destruct (zipFile zip0 _) as [part|]; [|done].
  destruct (Js.truthy _); [|done].
  by rewrite lookup_insert_ne.
Qed.

Lemma updateSlides_other (zip0 : gmap string Part) (h : Store) (d : PPTXDocument)
    (zip : gmap string string) (path : string) :
  (forall slide, slide ∈ slides d -> findSlidePath (s_slideNumber slide) <> path) ->
  updateSlides zip0 h d zip !! path = zip !! path.
Proof.
  unfold updateSlides. generalize (slides d) as ss. intros ss. revert zip.
  induction ss as [|s ss IH]; intros zip H; [done|].
  simpl. rewrite IH.
  - apply updateSlide_other, H. by left.
  - intros s' Hs'. apply H. by right.
Qed.

Lemma updateMetadata_other (d : PPTXDocument) (now : string)
    (zip : gmap string string) (path : string) :
  path <> appXmlPath -> path <> coreXmlPath ->
  updateMetadata d now zip !! path = zip !! path.
Proof.
  intros Ha Hc. unfold updateMetadata, updateCoreXml, updateAppXml.
  destruct (zip !! appXmlPath) as [appXml|] eqn:Ea.
  - destruct (Js.truthy appXml).
    + rewrite lookup_insert_ne by done.
      destruct (zip !! coreXmlPath) as [coreXml|]; simpl.
      * destruct (Js.truthy coreXml); by rewrite ?lookup_insert_ne.
      * by rewrite lookup_insert_ne.
    + destruct (zip !! coreXmlPath) as [coreXml|]; [|done].
      destruct (Js.truthy coreXml); by rewrite ?lookup_insert_ne.
  - destruct (zip !! coreXmlPath) as [coreXml|]; [|done].
    destruct (Js.truthy coreXml); by rewrite ?lookup_insert_ne.
Qed.

(** Every part that is neither a metadata part nor the part of a slide
    of the document leaves the exporter as it came in. *)
Lemma exportPPTX_untouched (zip : gmap string Part) (d : PPTXDocument) (h : Store)
    (now path : string) :
  path <> appXmlPath -> path <> coreXmlPath ->
  (forall slide, slide ∈ slides d -> findSlidePath (s_slideNumber slide) <> path) ->
  exportPPTX zip d h now !! path = p_content <$> zipFile zip path.
Proof.
  intros Ha Hc Hs. unfold exportPPTX.
  rewrite updateMetadata_other by done.
  rewrite updateSlides_other by done.
  apply copyOriginalStructure_lookup.
Qed.

(** After a load and an export with nothing in between, every part that
    is neither a slide part nor a metadata part is the original one. *)
Lemma roundtrip_other_parts (options : EditorOptions) (now : Date)
    (zip : gmap string Part) (iso path : string) :
  path <> appXmlPath -> path <> coreXmlPath ->
  (forall n, findSlidePath n <> path) ->
  exists exported,
    PPTXEditor.exportPPTX
      (PPTXEditor.loadPPTX (PPTXEditor.create options now) zip now) iso
      = Js.Ok exported
    /\ exported !! path = p_content <$> zipFile zip path.
Proof.
  intros Ha Hc Hs. unfold PPTXEditor.exportPPTX, PPTXEditor.loadPPTX.
  destruct (Store.allocSlides _ _) as [newSlides h]. simpl.
  eexists. split; [reflexivity|].
  apply exportPPTX_untouched; [done | done |]. intros slide _. apply Hs.
Qed.

(** C2.  The code at the failing input: a presentation of one slide with
    the shape "Title" and the text box "Hello" is loaded and exported
    with no mutation in between, and the slide part of the result
    differs from the original: the text node of the title reads
    "Hello". *)
Theorem roundtrip_rewrites_text_nodes :
  let e := Sample.loaded Sample.titleDeck in
  let exported :=
    default ∅ (Js.catchNull (PPTXEditor.exportPPTX e "2026-01-01T00:00:00.000Z")) in
  PPTXEditor.getChangeHistory e = []
  /\ Sample.slideText Sample.titleDeck
     = Xml.serialize (Sample.slide [Sample.sp "Title"; Sample.txBox "Hello"])
  /\ exported !! "ppt/slides/slide1.xml"
     = Some (Xml.serialize (Sample.slide [Sample.sp "Hello"; Sample.txBox "Hello"]))
  /\ exported !! "ppt/slides/slide1.xml"
     <> Some (Sample.slideText Sample.titleDeck).
Proof.
  vm_compute. split_and!; try reflexivity. intros H; discriminate H.
Qed.

End Exporter.

(** ** The editor *)

Section Editor.
Import PPTXEditor.
Local Open Scope string_scope.

Lemma findIndex_Some (h : Store) (els : list loc) (elementId : string) (i : nat) :
  Store.findIndex h els elementId = Some i ->
  exists l o, els !! i = Some l /\ st_elements h !! l = Some o
              /\ o_id o = elementId.
Proof.
  revert i. induction els as [|l els IH]; intros i H; [done|].
  simpl in H. destruct (st_elements h !! l) as [o|] eqn:El.
  - destruct (String.eqb (o_id o) elementId) eqn:Eid.
    + injection H as <-. exists l, o. by apply String.eqb_eq in Eid.
    + destruct (Store.findIndex h els elementId) as [j|]; [|done].
      injection H as <-. by apply IH.
  - destruct (Store.findIndex h els elementId) as [j|]; [|done].
    injection H as <-. by apply IH.
Qed.

(** [find] and [findIndex] miss together. *)
Lemma find_None (h : Store) (els : list loc) (elementId : string) :
  Store.find h els elementId = None <-> Store.findIndex h els elementId = None.
Proof.
  unfold Store.find. split.
  - intros H. destruct (Store.findIndex h els elementId) as [i|] eqn:E; [|done].
    destruct (findIndex_Some _ _ _ _ E) as (l & o & Hl & Ho & _).
    simpl in H. rewrite Hl in H. simpl in H. by rewrite Ho in H.
  - by intros ->.
Qed.

Lemma currentSlideIndex_None (e : t) :
  getCurrentSlide e = None -> currentSlideIndex e = None.
Proof. unfold getCurrentSlide. by destruct (currentSlideIndex e). Qed.

Lemma document_None_slide (e : t) : document e = None -> getCurrentSlide e = None.
Proof. unfold getCurrentSlide, currentSlideIndex. by intros ->. Qed.

Lemma targetMissing_cases (e : t) (elementId : string) :
  targetMissing e elementId ->
  currentSlideIndex e = None
  \/ exists i slide, currentSlideIndex e = Some (i, slide)
       /\ Store.find (store e) (s_elements slide) elementId = None.
Proof.
  intros [H|[H|(slide & Hs & Hf)]].
  - left. by apply currentSlideIndex_None, document_None_slide.
  - left. by apply currentSlideIndex_None.
  - right. unfold getCurrentSlide in Hs.
    destruct (currentSlideIndex e) as [[i s]|]; [|done].
    injection Hs as ->. by exists i, slide.
Qed.

(** C4, as stated, fails for the add operations: without a document
    [addTextElement] does not return, it throws. *)
Lemma add_without_document_counterexample :
  let e := create Sample.options 1700000000000 in
  targetMissing e "textbox-0"
  /\ document e = None
  /\ addTextElement e Sample.env "Hello" (Num 0) (Num 0) (Num 100) (Num 50)
     = Js.Throw "No document loaded"
  /\ ~ exists r, addTextElement e Sample.env "Hello" (Num 0) (Num 0) (Num 100) (Num 50)
                 = Js.Ok r.
Proof.
  split_and!; [by left | done | done |].
  by intros [r Hr].
Qed.

(** C4, amended.  When the document, the current slide or the element
    with the given id does not exist, [updateText],
    [updateElementPosition], [updateElementSize], [updateElementStyle]
    and [deleteElement] return without throwing and leave the whole
    editor, the document, the store and the change log included, as it
    was.  [addTextElement] and [addImageElement] throw: "No document
    loaded" without a document, "No current slide" without a current
    slide. *)
Theorem mutations_tolerate_missing_target (e : t) (env : Env) (elementId : string)
    (newText imageUrl : string) (x y width height : number) (style : ElementStyle) :
  targetMissing e elementId ->
  updateText e env elementId newText = e
  /\ updateElementPosition e env elementId x y = e
  /\ updateElementSize e env elementId width height = e
  /\ updateElementStyle e env elementId style = e
  /\ deleteElement e env elementId = e
  /\ (document e = None ->
      addTextElement e env newText x y width height = Js.Throw "No document loaded"
      /\ addImageElement e env imageUrl x y width height
         = Js.Throw "No document loaded")
  /\ (document e <> None -> getCurrentSlide e = None ->
      addTextElement e env newText x y width height = Js.Throw "No current slide"
      /\ addImageElement e env imageUrl x y width height
         = Js.Throw "No current slide").
Proof.
  intros H. apply targetMissing_cases in H.
  split_and!.
  - unfold updateText. destruct H as [->|(i & s & -> & ->)]; done.
  - unfold updateElementPosition. destruct H as [->|(i & s & -> & ->)]; done.
  - unfold updateElementSize. destruct H as [->|(i & s & -> & ->)]; done.
  - unfold updateElementStyle. destruct H as [->|(i & s & -> & ->)]; done.
  - unfold deleteElement. destruct H as [->|(i & s & -> & Hf)]; [done|].
    apply find_None in Hf. by rewrite Hf.
  - unfold document. intros Hd. unfold addTextElement, addImageElement, addElement.
    destruct (hasDocument e); done.
  - unfold document. intros Hd Hs. apply currentSlideIndex_None in Hs.
    unfold addTextElement, addImageElement, addElement. rewrite Hs.
    destruct (hasDocument e); done.
Qed.

Lemma mutations_tolerate_missing_target_witness :
  let e := Sample.loaded Sample.helloDeck in
  targetMissing e "textbox-7"
  /\ updateText e Sample.env "textbox-7" "World" = e
  /\ updateElementPosition e Sample.env "textbox-7" (Num 10) (Num 20) = e
  /\ updateElementSize e Sample.env "textbox-7" (Num 30) (Num 40) = e
  /\ updateElementStyle e Sample.env "textbox-7" emptyStyle = e
  /\ deleteElement e Sample.env "textbox-7" = e.
Proof.
  intros e.
  assert (H : targetMissing e "textbox-7").
  { right. right. eexists. split; vm_compute; reflexivity. }
  split; [exact H|].
  destruct (mutations_tolerate_missing_target e Sample.env "textbox-7" "World" ""
              (Num 10) (Num 20) (Num 30) (Num 40) emptyStyle H)
    as (H1 & H2 & H3 & H4 & H5 & _).
  split_and!; assumption.
Defined.

Lemma recordChange_store (e : t) (env : Env) (type : ChangeType)
    (elementId slideId : string) (previousState newState : option loc)
    (description : Description) :
  store (recordChange e env type elementId slideId previousState newState description)
  = store e.
Proof. unfold recordChange. by destruct (undoRedoEnabled e). Qed.

(** The snapshot that [updateText] takes is a new element object with
    the content object of the element itself: once the text is
    assigned, the snapshot reads the new text. *)
Lemma updateText_snapshot_shares_content (e : t) (env : Env)
    (elementId newText : string) (i : nat) (slide : PPTXSlide loc)
    (l : loc) (element : ElementObj) (c : Content) :
  currentSlideIndex e = Some (i, slide) ->
  Store.find (store e) (s_elements slide) elementId = Some (l, element) ->
  o_type element = tyText ->
  st_contents (store e) !! o_content element = Some c ->
  let e' := updateText e env elementId newText in
  let snapshot := st_next (store e) in
  st_elements (store e') !! snapshot = Some element
  /\ st_contents (store e') !! o_content element = Some (setText newText c).
Proof.
  intros Hs Hf Ht Hc e' snapshot. unfold e', updateText.
  rewrite Hs, Hf, Ht. simpl. rewrite recordChange_store. simpl.
  split.
  - apply lookup_insert_eq.
  - rewrite lookup_alter_eq. by rewrite Hc.
Qed.

(** [updateElementStyle] assigns a new style object to the element, so
    its snapshot keeps the style that the element had. *)
Lemma updateElementStyle_snapshot_keeps_style (e : t) (env : Env)
    (elementId : string) (style : ElementStyle) (i : nat) (slide : PPTXSlide loc)
    (l : loc) (element : ElementObj) (ls : loc) (old : ElementStyle) :
  currentSlideIndex e = Some (i, slide) ->
  Store.find (store e) (s_elements slide) elementId = Some (l, element) ->
  o_style element = Some ls ->
  st_styles (store e) !! ls = Some old ->
  (ls < st_next (store e))%positive ->
  let e' := updateElementStyle e env elementId style in
  let snapshot := st_next (store e) in
  l <> snapshot ->
  st_elements (store e') !! snapshot = Some element
  /\ st_styles (store e') !! ls = Some old
  /\ exists ls', (o_style <$> st_elements (store e') !! l) = Some (Some ls')
       /\ st_styles (store e') !! ls' = Some (mergeStyle old style).
Proof.
  intros Hs Hf Hst Hold Hlt e' snapshot Hne. unfold e', updateElementStyle.
  rewrite Hs, Hf. simpl. rewrite recordChange_store. simpl.
  rewrite Hst. simpl. rewrite Hold. simpl.
  split_and!.
  - rewrite lookup_insert_ne by done. apply lookup_insert_eq.
  - rewrite lookup_insert_ne; [done|]. lia.
  - eexists. split.
    + rewrite lookup_insert_eq. reflexivity.
    + apply lookup_insert_eq.
Qed.

(** C1.  The code at the failing input: after loading a slide with the
    text box "Hello", [updateText] records one change of kind update
    whose new state reads "World", but whose previous state reads "World"
    as well, since the snapshot shares the content object of the element;
    [undo] returns true and the text still reads "World". *)
Theorem updateText_snapshot_is_shallow :
  let e0 := Sample.loaded Sample.helloDeck in
  let e1 := updateText e0 Sample.env "textbox-0" "World" in
  let u := undo e1 in
  let r := redo (snd u) in
  Sample.textOf e0 "textbox-0" = Some "Hello"
  /\ Sample.textOf e1 "textbox-0" = Some "World"
  /\ map c_type (getChangeHistory e1) = [chUpdate]
  /\ map (fun c => Sample.snapshotText e1 (c_previousState c)) (getChangeHistory e1)
     = [Some "World"]
  /\ map (fun c => Sample.snapshotText e1 (c_newState c)) (getChangeHistory e1)
     = [Some "World"]
  /\ fst u = true
  /\ Sample.textOf (snd u) "textbox-0" = Some "World"
  /\ fst r = true
  /\ Sample.textOf (snd r) "textbox-0" = Some "World".
Proof. vm_compute. split_and!; reflexivity. Qed.

End Editor.

(** ** The tracker: round trips and summaries *)

Section TrackerLaws.
Import ChangeTracker.

Lemma setIndex_same (tr : t) : setIndex tr (currentIndex tr) = tr.
Proof. by destruct tr. Qed.

Lemma undo_then_redo (tr : t) :
  cursorInRange tr -> 0 <= currentIndex tr ->
  is_Some (fst (undo tr)) /\ redo (snd (undo tr)) = (fst (undo tr), tr).
Proof.
  intros Hr H0. destruct (undo_redo_in_range tr Hr) as (_ & _ & Hu & _ & _ & _).
  destruct Hr as [Hlo Hhi]. destruct (Hu H0) as (c & Hc & ->). simpl.
  split; [by eexists|].
  unfold redo, canRedo. simpl.
  destruct (Z.ltb_spec (currentIndex tr - 1) (Z.of_nat (length (changes tr)) - 1));
    [|lia].
  replace (currentIndex tr - 1 + 1) with (currentIndex tr) by lia.
  change (setIndex (setIndex tr (currentIndex tr - 1)) (currentIndex tr))
    with (setIndex tr (currentIndex tr)).
  rewrite setIndex_same.
  destruct (index_lookup (changes tr) (currentIndex tr)) as (a & -> & Ha); [lia|].
  congruence.
Qed.

Lemma redo_then_undo (tr : t) :
  cursorInRange tr -> currentIndex tr < Z.of_nat (length (changes tr)) - 1 ->
  is_Some (fst (redo tr)) /\ undo (snd (redo tr)) = (fst (redo tr), tr).
Proof.
  intros Hr Hlt. destruct (undo_redo_in_range tr Hr) as (_ & _ & _ & _ & _ & Hd).
  destruct Hr as [Hlo Hhi]. destruct Hd as (c & Hc & ->); [lia|]. simpl.
  split; [by eexists|].
  unfold undo, canUndo. simpl.
  destruct (Z.leb_spec 0 (currentIndex tr + 1)); [|lia].
  replace (currentIndex tr + 1 - 1) with (currentIndex tr) by lia.
  change (setIndex (setIndex tr (currentIndex tr + 1)) (currentIndex tr))
    with (setIndex tr (currentIndex tr)).
  rewrite setIndex_same.
  destruct (index_lookup (changes tr) (currentIndex tr + 1)) as (a & -> & Ha); [lia|].
  congruence.
Qed.

(** X1.  In every tracker whose cursor is in range, [undo] and [redo]
    are inverse to each other: when there is a change to undo, [undo]
    returns it and a following [redo] returns the same record and brings
    the tracker back to the state before the [undo]; when there is a
    change to redo, [redo] followed by [undo] does the same. *)
Theorem undo_redo_round_trip (tr : t) :
  cursorInRange tr ->
  (0 <= currentIndex tr ->
   is_Some (fst (undo tr)) /\ redo (snd (undo tr)) = (fst (undo tr), tr))
  /\ (currentIndex tr < Z.of_nat (length (changes tr)) - 1 ->
      is_Some (fst (redo tr)) /\ undo (snd (redo tr)) = (fst (redo tr), tr)).
Proof.
  intros Hr. split; intros H.
  - by apply undo_then_redo.
  - by apply redo_then_undo.
Qed.

(** After three recordings and one undo, both directions apply. *)
Lemma undo_redo_round_trip_witness :
  cursorInRange Sample.undone
  /\ redo (snd (undo Sample.undone)) = (fst (undo Sample.undone), Sample.undone)
  /\ undo (snd (redo Sample.undone)) = (fst (redo Sample.undone), Sample.undone).
Proof.
  assert (Hr : cursorInRange Sample.undone) by (vm_compute; split; discriminate).
  destruct (undo_redo_round_trip Sample.undone Hr) as [Hu Hd].
  split_and!; [exact Hr | |].
  - apply Hu. vm_compute. discriminate.
  - apply Hd. vm_compute. reflexivity.
Defined.

(** X2.  [revertToChange] with an index inside the history moves the
    cursor there and returns the records after the index, latest first:
    the records up to the index followed by the returned ones in reverse
    are the history, which is kept, so the reverted changes can be
    redone unless the index was the last one.  With any other index it
    throws and changes nothing. *)
Theorem revertToChange_contract (tr : t) (i : Z) :
  (0 <= i < Z.of_nat (length (changes tr)) ->
   exists reverted,
     revertToChange tr i = Js.Ok (reverted, setIndex tr i)
     /\ take (Z.to_nat (i + 1)) (changes tr) ++ rev reverted = changes tr
     /\ Z.of_nat (length reverted) = Z.of_nat (length (changes tr)) - 1 - i
     /\ canRedo (setIndex tr i) = negb (i =? Z.of_nat (length (changes tr)) - 1))
  /\ (~ 0 <= i < Z.of_nat (length (changes tr)) ->
      revertToChange tr i = Js.Throw "Invalid change index").
Proof.
  unfold revertToChange. split.
  - intros [H0 Hlt].
    destruct (Z.ltb_spec i 0); [lia|].
    destruct (Z.leb_spec (Z.of_nat (length (changes tr))) i); [lia|]. simpl.
    eexists. split; [reflexivity|].
    unfold Js.sliceFrom.
    destruct (Z.ltb_spec (i + 1) 0); [lia|].
    rewrite Z.min_l by lia.
    rewrite rev_involutive, take_drop, length_rev, length_drop.
    split_and!; [done | lia |].
    unfold canRedo. simpl.
    destruct (Z.eqb_spec i (Z.of_nat (length (changes tr)) - 1)); simpl.
    + apply Z.ltb_ge. lia.
    + apply Z.ltb_lt. lia.
  - intros Hn.
    destruct (Z.ltb_spec i 0); [done|].
    destruct (Z.leb_spec (Z.of_nat (length (changes tr))) i); [done|]. lia.
Qed.

(** Reverting three recordings to the first one returns the third and
    the second; the index 3 is refused. *)
Lemma revertToChange_contract_witness :
  let tr := recordAll (create 5) [Sample.call 0; Sample.call 1; Sample.call 2] in
  revertToChange tr 0
  = Js.Ok ([changeOf (Sample.call 2); changeOf (Sample.call 1)], setIndex tr 0)
  /\ revertToChange tr 3 = Js.Throw "Invalid change index".
Proof.
  intros tr. destruct (revertToChange_contract tr 0) as [Hin _].
  destruct (revertToChange_contract tr 3) as [_ Hout].
  split.
  - destruct Hin as (reverted & Hrev & _); [vm_compute; split; [discriminate | reflexivity]|].
    rewrite Hrev.
    assert (reverted = [changeOf (Sample.call 2); changeOf (Sample.call 1)]) as ->
      by (vm_compute in Hrev; vm_compute; congruence).
    reflexivity.
  - apply Hout. vm_compute. intros [_ H]. discriminate H.
Defined.

Lemma last_snoc_tail {A} (l : list A) (a : A) :
  (1 <= length l)%nat -> last (tail (l ++ [a])) = Some a.
Proof.
  destruct l as [|b l]; simpl; [lia|]. intros _. by rewrite last_snoc.
Qed.

Lemma index_last {A} (l : list A) :
  Js.index l (Z.of_nat (length l) - 1) = last l.
Proof.
  unfold Js.index. destruct l as [|a l] using rev_ind; [done|].
  rewrite length_app. simpl.
  destruct (Z.ltb_spec (Z.of_nat (length l + 1) - 1) 0); [lia|].
  rewrite last_snoc.
  replace (Z.to_nat (Z.of_nat (length l + 1) - 1)) with (length l) by lia.
  by rewrite lookup_app_r, Nat.sub_diag.
Qed.

(** The record that [recordChange] made is the one that [undo] returns
    next. *)
Lemma recordChange_undo (tr : t) (k : Call) :
  cursorInRange tr -> 1 <= maxUndoSteps tr ->
  0 <= currentIndex (recordChange tr k)
  /\ fst (undo (recordChange tr k)) = Some (changeOf k).
Proof.
  intros Hr Hcap.
  pose proof (recordChange_cursor tr k Hr) as Hcur.
  pose proof (pushed_length tr k Hr) as Hlen.
  assert (Hlast : last (changes (recordChange tr k)) = Some (changeOf k)).
  { destruct Hr as [Hlo Hhi]. rewrite recordChange_unfold by done. cbv zeta.
    destruct (Z.ltb_spec (maxUndoSteps tr)
                (Z.of_nat (length (take (Z.to_nat (currentIndex tr + 1)) (changes tr)
                                     ++ [changeOf k])))); simpl.
    - apply last_snoc_tail. rewrite length_take. rewrite Hlen in *. lia.
    - apply last_snoc. }
  assert (H0 : 0 <= currentIndex (recordChange tr k)).
  { rewrite Hcur. destruct (changes (recordChange tr k)); [done | simpl; lia]. }
  split; [done|].
  unfold undo, canUndo. destruct (Z.leb_spec 0 (currentIndex (recordChange tr k))); [|lia].
  simpl. by rewrite Hcur, index_last.
Qed.

(** X3.  In a tracker of capacity at least 1 whose cursor is in range,
    the change that was just recorded is the one that [undo] returns,
    also when the recording evicted the oldest record, and a following
    [redo] returns it again and restores the tracker as it was after the
    recording. *)
Theorem record_then_undo (tr : t) (k : Call) :
  cursorInRange tr -> 1 <= maxUndoSteps tr ->
  fst (undo (recordChange tr k)) = Some (changeOf k)
  /\ redo (snd (undo (recordChange tr k))) = (Some (changeOf k), recordChange tr k).
Proof.
  intros Hr Hcap. destruct (recordChange_undo tr k Hr Hcap) as [H0 Hu].
  split; [done|].
  destruct (undo_then_redo (recordChange tr k)) as [_ ->];
    [by apply recordChange_cursorInRange | done |].
  by rewrite Hu.
Qed.

(** A full tracker of capacity 2: the third recording evicts the first
    record and is the one undone. *)
Lemma record_then_undo_witness :
  let tr := recordAll (create 2) [Sample.call 0; Sample.call 1] in
  cursorInRange tr /\ 1 <= maxUndoSteps tr
  /\ fst (undo (recordChange tr (Sample.call 2))) = Some (changeOf (Sample.call 2))
  /\ redo (snd (undo (recordChange tr (Sample.call 2))))
     = (Some (changeOf (Sample.call 2)), recordChange tr (Sample.call 2)).
Proof.
  intros tr.
  assert (Hr : cursorInRange tr) by (vm_compute; split; discriminate).
  assert (Hcap : 1 <= maxUndoSteps tr) by (vm_compute; discriminate).
  destruct (record_then_undo tr (Sample.call 2) Hr Hcap) as [Hu Hd].
  split_and!; assumption.
Defined.

Lemma countType_cons (c : ChangeRecord) (l : list ChangeRecord) :
  countType chAdd (c :: l) + countType chUpdate (c :: l) + countType chDelete (c :: l)
  = 1 + (countType chAdd l + countType chUpdate l + countType chDelete l).
Proof. unfold countType. simpl. destruct (c_type c); simpl; lia. Qed.

(** X4.  [getChangeSummary] counts the whole history, also the part
    that was undone: the total is the length of the history, the
    additions, updates and deletions are not negative and add up to the
    total, and the last change time is missing exactly when the history
    is empty and is otherwise the time of the last record. *)
Theorem change_summary_partition (tr : t) :
  let s := getChangeSummary tr in
  totalChanges s = Z.of_nat (length (getChangeHistory tr))
  /\ additions s + updates s + deletions s = totalChanges s
  /\ 0 <= additions s /\ 0 <= updates s /\ 0 <= deletions s
  /\ (lastChangeTime s = None <-> getChangeHistory tr = [])
  /\ (forall c, last (getChangeHistory tr) = Some c ->
        lastChangeTime s = Some (c_timestamp c)).
Proof.
  unfold getChangeSummary, getChangeHistory. simpl. split_and!.
  - done.
  - induction (changes tr) as [|c l IH]; [done|].
    rewrite countType_cons. rewrite IH. simpl length. lia.
  - unfold countType. lia.
  - unfold countType. lia.
  - unfold countType. lia.
  - destruct (changes tr) as [|c l] using rev_ind; [done|].
    rewrite last_snoc. simpl. split; [done|]. by destruct l.
  - intros c ->. done.
Qed.

End TrackerLaws.

(** ** Applying and reverting a change record *)

Section ApplyRevert.
Import ChangeTracker.

Lemma findIndex_snoc_absent (h : Store) (els : list loc) (elementId : string)
    (l : loc) (o : ElementObj) :
  Store.findIndex h els elementId = None ->
  st_elements h !! l = Some o -> o_id o = elementId ->
  Store.findIndex h (els ++ [l]) elementId = Some (length els).
Proof.
  intros Hnone Hl Hid. induction els as [|a els IH]; simpl in *.
  - rewrite Hl. by rewrite (proj2 (String.eqb_eq _ _) Hid).
  - destruct (st_elements h !! a) as [oa|].
    + destruct (String.eqb (o_id oa) elementId); [done|].
      destruct (Store.findIndex h els elementId); [done|]. by rewrite IH.
    + destruct (Store.findIndex h els elementId); [done|]. by rewrite IH.
Qed.

Lemma findIndex_insert_same (h : Store) (els : list loc) (elementId : string)
    (i : nat) (n : loc) (o : ElementObj) :
  Store.findIndex h els elementId = Some i ->
  st_elements h !! n = Some o -> o_id o = elementId ->
  Store.findIndex h (<[i := n]> els) elementId = Some i.
Proof.
  intros Hf Hn Hid. revert i Hf. induction els as [|a els IH]; intros i Hf; [done|].
  simpl in Hf. destruct i as [|j].
  - simpl. rewrite Hn. by rewrite (proj2 (String.eqb_eq _ _) Hid).
  - simpl. destruct (st_elements h !! a) as [oa|].
    + destruct (String.eqb (o_id oa) elementId); [done|].
      destruct (Store.findIndex h els elementId) as [j'|] eqn:E; [|done].
      injection Hf as ->. by rewrite (IH j eq_refl).
    + destruct (Store.findIndex h els elementId) as [j'|] eqn:E; [|done].
      injection Hf as ->. by rewrite (IH j eq_refl).
Qed.

Lemma findSlideIndex_lookup (ss : list (PPTXSlide loc)) (slideId : string) (si : nat) :
  findSlideIndex ss slideId = Some si -> exists s, ss !! si = Some s /\ s_id s = slideId.
Proof.
  revert si. induction ss as [|s ss IH]; intros si H; [done|]. simpl in H.
  destruct (String.eqb (s_id s) slideId) eqn:E.
  - injection H as <-. exists s. by apply String.eqb_eq in E.
  - destruct (findSlideIndex ss slideId) as [j|]; [|done].
    injection H as <-. by apply IH.
Qed.

Lemma findSlideIndex_insert (ss : list (PPTXSlide loc)) (slideId : string)
    (i : nat) (s : PPTXSlide loc) (els : list loc) :
  ss !! i = Some s ->
  findSlideIndex (<[i := withElements s els]> ss) slideId = findSlideIndex ss slideId.
Proof.
  revert i. induction ss as [|a ss IH]; intros i H; [done|].
  destruct i as [|j]; simpl in *.
  - by injection H as ->.
  - by rewrite (IH j H).
Qed.

Lemma withElements_same (s : PPTXSlide loc) : withElements s (s_elements s) = s.
Proof. by destruct s. Qed.

Lemma withSlideElements_slides (d : PPTXDocument) (si : nat) (s : PPTXSlide loc)
    (els : list loc) :
  slides d !! si = Some s ->
  slides (withSlideElements d si els) = <[si := withElements s els]> (slides d).
Proof. intros H. unfold withSlideElements. by rewrite H. Qed.

Lemma withSlideElements_lookup (d : PPTXDocument) (si : nat) (s : PPTXSlide loc)
    (els : list loc) :
  slides d !! si = Some s ->
  slides (withSlideElements d si els) !! si = Some (withElements s els).
Proof.
  intros H. rewrite (withSlideElements_slides d si s els H).
  apply list_lookup_insert_eq. by apply lookup_lt_Some in H.
Qed.

Lemma withSlideElements_twice (d : PPTXDocument) (si : nat) (s : PPTXSlide loc)
    (a b : list loc) :
  slides d !! si = Some s ->
  withSlideElements (withSlideElements d si a) si b = withSlideElements d si b.
Proof.
  intros H. unfold withSlideElements at 1.
  rewrite (withSlideElements_lookup d si s a H).
  rewrite (withSlideElements_slides d si s a H).
  unfold withSlideElements. rewrite H. simpl.
  by rewrite list_insert_insert_eq.
Qed.

Lemma withSlideElements_same (d : PPTXDocument) (si : nat) (s : PPTXSlide loc) :
  slides d !! si = Some s -> withSlideElements d si (s_elements s) = d.
Proof.
  intros H. unfold withSlideElements. rewrite H, withElements_same.
  rewrite list_insert_id by done. by destruct d.
Qed.

Lemma withSlideElements_findSlideIndex (d : PPTXDocument) (si : nat)
    (s : PPTXSlide loc) (els : list loc) (slideId : string) :
  slides d !! si = Some s ->
  findSlideIndex (slides (withSlideElements d si els)) slideId
  = findSlideIndex (slides d) slideId.
Proof.
  intros H. rewrite (withSlideElements_slides d si s els H).
  by apply findSlideIndex_insert.
Qed.

(** The effect of [applyChange] and [revertChange] on the slide that
    the record names. *)
Lemma applyChange_on (d : PPTXDocument) (h : Store) (c : ChangeRecord)
    (si : nat) (s : PPTXSlide loc) :
  findSlideIndex (slides d) (c_slideId c) = Some si -> slides d !! si = Some s ->
  applyChange d h c =
    match c_type c with
    | chAdd =>
        match c_newState c with
        | Some l => withSlideElements d si (s_elements s ++ [l])
        | None => d
        end
    | chUpdate =>
        match c_previousState c, c_newState c with
        | Some _, Some l =>
            match Store.findIndex h (s_elements s) (c_elementId c) with
            | Some i => withSlideElements d si (<[i := l]> (s_elements s))
            | None => d
            end
        | _, _ => d
        end
    | chDelete =>
        match c_previousState c with
        | Some _ =>
            match Store.findIndex h (s_elements s) (c_elementId c) with
            | Some i => withSlideElements d si (base.delete i (s_elements s))
            | None => d
            end
        | None => d
        end
    end.
Proof. intros Hf Hs. unfold applyChange. by rewrite Hf, Hs. Qed.

Lemma revertChange_on (d : PPTXDocument) (h : Store) (c : ChangeRecord)
    (si : nat) (s : PPTXSlide loc) :
  findSlideIndex (slides d) (c_slideId c) = Some si -> slides d !! si = Some s ->
  revertChange d h c =
    match c_type c with
    | chAdd =>
        match Store.findIndex h (s_elements s) (c_elementId c) with
        | Some i => withSlideElements d si (base.delete i (s_elements s))
        | None => d
        end
    | chUpdate =>
        match c_previousState c with
        | Some l =>
            match Store.findIndex h (s_elements s) (c_elementId c) with
            | Some i => withSlideElements d si (<[i := l]> (s_elements s))
            | None => d
            end
        | None => d
        end
    | chDelete =>
        match c_previousState c with
        | Some l => withSlideElements d si (s_elements s ++ [l])
        | None => d
        end
    end.
Proof. intros Hf Hs. unfold revertChange. by rewrite Hf, Hs. Qed.

Lemma delete_snoc_last {A} (l : list A) (a : A) : base.delete (length l) (l ++ [a]) = l.
Proof. induction l as [|b l IH]; simpl; [done|]. by rewrite IH. Qed.

(** X5.  Additions and deletions are inverse on the slide that the
    record names, for an element whose id is not on the slide: applying
    an addition appends the element and reverting it gives the document
    back, and reverting a deletion appends the element (at the end of
    the slide, wherever it was deleted from) and applying the deletion
    again gives the document back. *)
Theorem add_delete_inverse (d : PPTXDocument) (h : Store) (c : ChangeRecord)
    (si : nat) (s : PPTXSlide loc) (l : loc) (o : ElementObj) :
  findSlideIndex (slides d) (c_slideId c) = Some si ->
  slides d !! si = Some s ->
  Store.findIndex h (s_elements s) (c_elementId c) = None ->
  st_elements h !! l = Some o -> o_id o = c_elementId c ->
  (c_type c = chAdd -> c_newState c = Some l ->
   s_elements <$> slides (applyChange d h c) !! si = Some (s_elements s ++ [l])
   /\ revertChange (applyChange d h c) h c = d)
  /\ (c_type c = chDelete -> c_previousState c = Some l ->
      s_elements <$> slides (revertChange d h c) !! si = Some (s_elements s ++ [l])
      /\ applyChange (revertChange d h c) h c = d).
Proof.
  intros Hf Hs Hnone Hl Hid.
  pose proof (withSlideElements_lookup d si s (s_elements s ++ [l]) Hs) as Hlk.
  pose proof (findIndex_snoc_absent h (s_elements s) _ l o Hnone Hl Hid) as Hfound.
  split.
  - intros Hty Hnew.
    assert (Ha : applyChange d h c = withSlideElements d si (s_elements s ++ [l])).
    { rewrite (applyChange_on d h c si s Hf Hs). by rewrite Hty, Hnew. }
    rewrite Ha. split; [by rewrite Hlk|].
    rewrite (revertChange_on _ h c si (withElements s (s_elements s ++ [l])));
      [| by rewrite (withSlideElements_findSlideIndex d si s) | done].
    rewrite Hty. simpl. rewrite Hfound, delete_snoc_last.
    rewrite (withSlideElements_twice d si s) by done.
    by apply withSlideElements_same.
  - intros Hty Hprev.
    assert (Hr : revertChange d h c = withSlideElements d si (s_elements s ++ [l])).
    { rewrite (revertChange_on d h c si s Hf Hs). by rewrite Hty, Hprev. }
    rewrite Hr. split; [by rewrite Hlk|].
    rewrite (applyChange_on _ h c si (withElements s (s_elements s ++ [l])));
      [| by rewrite (withSlideElements_findSlideIndex d si s) | done].
    rewrite Hty, Hprev. simpl. rewrite Hfound, delete_snoc_last.
    rewrite (withSlideElements_twice d si s) by done.
    by apply withSlideElements_same.
Qed.

(** The slide of [Sample.deleted] holds the shape only; the deleted
    text box is still in the store at location 5. *)
Lemma add_delete_inverse_witness :
  let d := PPTXEditor.parserDocument Sample.deleted in
  let h := PPTXEditor.store Sample.deleted in
  let s := Sample.slideOf Sample.deleted in
  let added := Sample.record chAdd "textbox-0" None (Some 5%positive) in
  let removed := Sample.record chDelete "textbox-0" (Some 5%positive) None in
  s_elements s = [10%positive]
  /\ (s_elements <$> slides (applyChange d h added) !! 0%nat
        = Some (s_elements s ++ [5%positive])
      /\ revertChange (applyChange d h added) h added = d)
  /\ (s_elements <$> slides (revertChange d h removed) !! 0%nat
        = Some (s_elements s ++ [5%positive])
      /\ applyChange (revertChange d h removed) h removed = d).
Proof.
  intros d h s added removed.
  assert (Hl : exists o, st_elements h !! 5%positive = Some o /\ o_id o = "textbox-0")
    by (eexists; split; vm_compute; reflexivity).
  destruct Hl as (o & Hl & Hid).
  assert (Hf : findSlideIndex (slides d) "slide-1" = Some 0%nat)
    by (vm_compute; reflexivity).
  assert (Hs : slides d !! 0%nat = Some s) by (vm_compute; reflexivity).
  assert (Hnone : Store.findIndex h (s_elements s) "textbox-0" = None)
    by (vm_compute; reflexivity).
  split; [vm_compute; reflexivity|]. split.
  - exact (proj1 (add_delete_inverse d h added 0 s 5%positive o Hf Hs Hnone Hl Hid)
             eq_refl eq_refl).
  - exact (proj2 (add_delete_inverse d h removed 0 s 5%positive o Hf Hs Hnone Hl Hid)
             eq_refl eq_refl).
Defined.

(** X6.  An update record for an element that is on the slide
    replaces the element in place: applying it puts the new state and
    reverting it the previous state at the index of the element, the
    other elements keep their places, reverting after applying equals
    reverting, applying after reverting equals applying, and the
    document is restored when the slot held that state before. *)
Theorem update_keeps_position (d : PPTXDocument) (h : Store) (c : ChangeRecord)
    (si : nat) (s : PPTXSlide loc) (i : nat) (p n : loc) (op on : ElementObj) :
  findSlideIndex (slides d) (c_slideId c) = Some si ->
  slides d !! si = Some s ->
  c_type c = chUpdate ->
  c_previousState c = Some p -> c_newState c = Some n ->
  Store.findIndex h (s_elements s) (c_elementId c) = Some i ->
  st_elements h !! p = Some op -> o_id op = c_elementId c ->
  st_elements h !! n = Some on -> o_id on = c_elementId c ->
  applyChange d h c = withSlideElements d si (<[i := n]> (s_elements s))
  /\ revertChange d h c = withSlideElements d si (<[i := p]> (s_elements s))
  /\ revertChange (applyChange d h c) h c = revertChange d h c
  /\ applyChange (revertChange d h c) h c = applyChange d h c
  /\ (s_elements s !! i = Some p -> revertChange (applyChange d h c) h c = d)
  /\ (s_elements s !! i = Some n -> applyChange (revertChange d h c) h c = d).
Proof.
  intros Hf Hs Hty Hp Hn Hi Hop Hidp Hon Hidn.
  assert (Ha : applyChange d h c = withSlideElements d si (<[i := n]> (s_elements s))).
  { rewrite (applyChange_on d h c si s Hf Hs). by rewrite Hty, Hp, Hn, Hi. }
  assert (Hr : revertChange d h c = withSlideElements d si (<[i := p]> (s_elements s))).
  { rewrite (revertChange_on d h c si s Hf Hs). by rewrite Hty, Hp, Hi. }
  assert (Hra : revertChange (applyChange d h c) h c = revertChange d h c).
  { rewrite Ha, Hr.
    rewrite (revertChange_on _ h c si (withElements s (<[i := n]> (s_elements s))));
      [| by rewrite (withSlideElements_findSlideIndex d si s)
       | by apply withSlideElements_lookup].
    rewrite Hty, Hp. simpl.
    rewrite (findIndex_insert_same h _ _ i n on Hi Hon Hidn).
    rewrite (withSlideElements_twice d si s) by done.
    by rewrite list_insert_insert_eq. }
  assert (Har : applyChange (revertChange d h c) h c = applyChange d h c).
  { rewrite Ha, Hr.
    rewrite (applyChange_on _ h c si (withElements s (<[i := p]> (s_elements s))));
      [| by rewrite (withSlideElements_findSlideIndex d si s)
       | by apply withSlideElements_lookup].
    rewrite Hty, Hp, Hn. simpl.
    rewrite (findIndex_insert_same h _ _ i p op Hi Hop Hidp).
    rewrite (withSlideElements_twice d si s) by done.
    by rewrite list_insert_insert_eq. }
  split_and!; try done.
  - intros Hat. rewrite Hra, Hr. rewrite list_insert_id by done.
    by apply withSlideElements_same.
  - intros Hat. rewrite Har, Ha. rewrite list_insert_id by done.
    by apply withSlideElements_same.
Qed.

(** The update record of [Sample.edited]: the text box is at location
    5 and its snapshot at location 6. *)
Lemma update_keeps_position_witness :
  let d := PPTXEditor.parserDocument Sample.edited in
  let h := PPTXEditor.store Sample.edited in
  let s := Sample.slideOf Sample.edited in
  let c := Sample.record chUpdate "textbox-0" (Some 6%positive) (Some 5%positive) in
  s_elements s = [5%positive]
  /\ revertChange d h c = withSlideElements d 0 (<[0%nat := 6%positive]> (s_elements s))
  /\ applyChange (revertChange d h c) h c = d.
Proof.
  intros d h s c.
  assert (Hp : exists o, st_elements h !! 6%positive = Some o /\ o_id o = "textbox-0")
    by (eexists; split; vm_compute; reflexivity).
  assert (Hn : exists o, st_elements h !! 5%positive = Some o /\ o_id o = "textbox-0")
    by (eexists; split; vm_compute; reflexivity).
  destruct Hp as (op & Hp & Hidp). destruct Hn as (on & Hn & Hidn).
  assert (Hf : findSlideIndex (slides d) "slide-1" = Some 0%nat)
    by (vm_compute; reflexivity).
  assert (Hs : slides d !! 0%nat = Some s) by (vm_compute; reflexivity).
  assert (Hi : Store.findIndex h (s_elements s) "textbox-0" = Some 0%nat)
    by (vm_compute; reflexivity).
  assert (Hat : s_elements s !! 0%nat = Some 5%positive) by (vm_compute; reflexivity).
  destruct (update_keeps_position d h c 0 s 0 6%positive 5%positive op on
              Hf Hs eq_refl eq_refl eq_refl Hi Hp Hidp Hn Hidn)
    as (_ & Hr & _ & _ & _ & Hd).
  split; [vm_compute; reflexivity|]. split; [exact Hr | exact (Hd Hat)].
Defined.

End ApplyRevert.

(** ** The editor: mutations, undo and redo *)

Section EditorLaws.
Import PPTXEditor.

Lemma recordChange_tracker (e : t) (env : Env) (type : ChangeType)
    (elementId slideId : string) (previousState newState : option loc)
    (description : Description) :
  changeTracker (recordChange e env type elementId slideId previousState newState
                   description)
  = if undoRedoEnabled e
    then ChangeTracker.recordChange (changeTracker e)
           (callOf env type elementId slideId previousState newState description)
    else changeTracker e.
Proof. unfold recordChange. by destruct (undoRedoEnabled e). Qed.

Lemma recordChange_frame (e : t) (env : Env) (type : ChangeType)
    (elementId slideId : string) (previousState newState : option loc)
    (description : Description) :
  let e' := recordChange e env type elementId slideId previousState newState
              description in
  parserDocument e' = parserDocument e /\ hasDocument e' = hasDocument e
  /\ store e' = store e /\ originalZip e' = originalZip e
  /\ undoRedoEnabled e' = undoRedoEnabled e
  /\ currentSlide (state e') = currentSlide (state e)
  /\ selectedElement (state e') = selectedElement (state e).
Proof.
  unfold recordChange. destruct (undoRedoEnabled e) eqn:E; simpl; by rewrite ?E.
Qed.

Lemma currentSlideIndex_lookup (e : t) (si : nat) (slide : PPTXSlide loc) :
  currentSlideIndex e = Some (si, slide) ->
  hasDocument e = true /\ 0 <= currentSlide (state e)
  /\ si = Z.to_nat (currentSlide (state e))
  /\ slides (parserDocument e) !! si = Some slide.
Proof.
  unfold currentSlideIndex, document, Js.index.
  destruct (hasDocument e); [|done]. simpl.
  destruct (Z.ltb_spec (currentSlide (state e)) 0); [done|].
  destruct (slides (parserDocument e) !! Z.to_nat (currentSlide (state e))) eqn:E;
    [|done].
  simpl. by intros [= <- <-].
Qed.

Lemma currentSlideIndex_eq (e : t) (si : nat) (slide : PPTXSlide loc) :
  hasDocument e = true -> 0 <= currentSlide (state e) ->
  si = Z.to_nat (currentSlide (state e)) ->
  slides (parserDocument e) !! si = Some slide ->
  currentSlideIndex e = Some (si, slide).
Proof.
  intros Hd H0 -> Hs. unfold currentSlideIndex, document, Js.index. rewrite Hd. simpl.
  destruct (Z.ltb_spec (currentSlide (state e)) 0); [lia|]. by rewrite Hs.
Qed.

(** What [deleteElement] does when it finds the element. *)
Lemma deleteElement_found (e : t) (env : Env) (elementId : string) (si i : nat)
    (slide : PPTXSlide loc) :
  currentSlideIndex e = Some (si, slide) ->
  Store.findIndex (store e) (s_elements slide) elementId = Some i ->
  exists l o,
    s_elements slide !! i = Some l /\ st_elements (store e) !! l = Some o
    /\ o_id o = elementId
    /\ let e1 := deleteElement e env elementId in
       parserDocument e1
         = withSlideElements (parserDocument e) si (base.delete i (s_elements slide))
       /\ store e1 = store e /\ hasDocument e1 = hasDocument e
       /\ undoRedoEnabled e1 = undoRedoEnabled e
       /\ currentSlide (state e1) = currentSlide (state e)
       /\ changeTracker e1
          = if undoRedoEnabled e
            then ChangeTracker.recordChange (changeTracker e)
                   (callOf env chDelete elementId (s_id slide) (Some l) None
                      (DeletedElement (o_type o)))
            else changeTracker e.
Proof.
  intros Hs Hi. destruct (findIndex_Some _ _ _ _ Hi) as (l & o & Hl & Ho & Hid).
  exists l, o. split_and!; try done.
  unfold deleteElement. rewrite Hs, Hi, Hl. unfold Store.find. rewrite Hi. simpl.
  rewrite Hl. simpl. rewrite Ho. simpl.
  set (e0 := withDocument e _ (store e)).
  pose proof (recordChange_frame e0 env chDelete elementId (s_id slide) (Some l) None
                (DeletedElement (o_type o))) as (H1 & H2 & H3 & H4 & H5 & H6 & H7).
  pose proof (recordChange_tracker e0 env chDelete elementId (s_id slide) (Some l) None
                (DeletedElement (o_type o))) as Ht.
  destruct (bool_decide _); simpl; rewrite ?H1, ?H2, ?H3, ?H5, ?H6, ?Ht; done.
Qed.

(** X7.  In an editor with undo switched on, deleting an element of
    the current slide and then calling [undo] brings the element back at
    the end of the slide's element sequence, above every other element,
    not at the index it was deleted from; the objects of the store are
    untouched. *)
Theorem delete_then_undo_appends (e : t) (env : Env) (elementId : string)
    (si i : nat) (slide : PPTXSlide loc) :
  ready e -> onSlide e si slide ->
  Store.findIndex (store e) (s_elements slide) elementId = Some i ->
  exists l,
    s_elements slide !! i = Some l
    /\ s_elements <$> getCurrentSlide (deleteElement e env elementId)
       = Some (base.delete i (s_elements slide))
    /\ fst (undo (deleteElement e env elementId)) = true
    /\ s_elements <$> getCurrentSlide (snd (undo (deleteElement e env elementId)))
       = Some (base.delete i (s_elements slide) ++ [l])
    /\ store (snd (undo (deleteElement e env elementId))) = store e.
Proof.
  intros (Hdoc & Hen & Hrange & Hcap) [Hs Hfs] Hi.
  destruct (deleteElement_found e env elementId si i slide Hs Hi)
    as (l & o & Hl & Ho & Hid & Hd & Hst & Hhd & Hue & Hcs & Htr).
  destruct (currentSlideIndex_lookup e si slide Hs) as (_ & H0 & Hsi & Hlk).
  exists l. split; [done|].
  set (e1 := deleteElement e env elementId) in *.
  rewrite Hen in Htr, Hue. rewrite Hdoc in Hhd.
  set (k := callOf env chDelete elementId (s_id slide) (Some l) None
              (DeletedElement (o_type o))) in *.
  pose proof (withSlideElements_lookup (parserDocument e) si slide
                (base.delete i (s_elements slide)) Hlk) as Hlk1.
  assert (Hcur1 : currentSlideIndex e1
            = Some (si, withElements slide (base.delete i (s_elements slide)))).
  { apply currentSlideIndex_eq; [done | by rewrite Hcs | by rewrite Hcs |].
    by rewrite Hd. }
  split. { unfold getCurrentSlide. by rewrite Hcur1. }
  destruct (recordChange_undo (changeTracker e) k Hrange Hcap) as [_ Hu].
  unfold undo. rewrite Hue. simpl. rewrite Htr.
  destruct (ChangeTracker.undo (ChangeTracker.recordChange (changeTracker e) k))
    as [change tr] eqn:Eu.
  simpl in Hu. subst change. simpl. rewrite Hhd.
  split; [done|].
  assert (Hrev : ChangeTracker.revertChange (parserDocument e1) (store e1)
                   (ChangeTracker.changeOf k)
                 = withSlideElements (parserDocument e) si
                     (base.delete i (s_elements slide) ++ [l])).
  { rewrite (revertChange_on _ _ _ si
               (withElements slide (base.delete i (s_elements slide)))).
    - simpl. rewrite Hd. by rewrite (withSlideElements_twice _ si slide).
    - simpl. rewrite Hd.
      by rewrite (withSlideElements_findSlideIndex _ si slide).
    - by rewrite Hd. }
  rewrite Hrev. split; [|done].
  unfold getCurrentSlide.
  rewrite (currentSlideIndex_eq _ si
             (withElements slide (base.delete i (s_elements slide) ++ [l]))); try done.
  - simpl. by rewrite Hcs.
  - simpl. by rewrite Hcs.
  - simpl. by apply withSlideElements_lookup.
Qed.

(** Deleting the text box of [Sample.captionDeck], which is the first
    of two elements, and undoing: the text box comes back last. *)
Lemma delete_then_undo_appends_witness :
  let e := Sample.loaded Sample.captionDeck in
  let e1 := deleteElement e Sample.env "textbox-0" in
  ready e /\ onSlide e 0 (Sample.slideOf e)
  /\ s_elements (Sample.slideOf e) = [5%positive; 10%positive]
  /\ s_elements <$> getCurrentSlide e1
     = Some (base.delete 0%nat (s_elements (Sample.slideOf e)))
  /\ fst (undo e1) = true
  /\ s_elements <$> getCurrentSlide (snd (undo e1))
     = Some (base.delete 0%nat (s_elements (Sample.slideOf e)) ++ [5%positive]).
Proof.
  intros e e1.
  assert (Hr : ready e) by (vm_compute; split_and!; (reflexivity || discriminate)).
  assert (Hs : onSlide e 0 (Sample.slideOf e)) by (vm_compute; split; reflexivity).
  assert (Hi : Store.findIndex (store e) (s_elements (Sample.slideOf e)) "textbox-0"
               = Some 0%nat) by (vm_compute; reflexivity).
  destruct (delete_then_undo_appends e Sample.env "textbox-0" 0 0 (Sample.slideOf e)
              Hr Hs Hi) as (l & Hl & H1 & H2 & H3 & _).
  assert (l = 5%positive) as -> by (vm_compute in Hl; congruence).
  split_and!; try assumption. vm_compute. reflexivity.
Defined.







(** X9.  With undo and redo switched off in the options, [undo] and
    [redo] return false and change nothing, and no mutation records a
    change: the tracker is the same after each of them. *)
Theorem undo_disabled_records_nothing (e : t) (env : Env) (elementId : string)
    (newText : string) (x y width height : number) (style : ElementStyle) :
  undoRedoEnabled e = false ->
  undo e = (false, e) /\ redo e = (false, e)
  /\ changeTracker (updateText e env elementId newText) = changeTracker e
  /\ changeTracker (updateElementPosition e env elementId x y) = changeTracker e
  /\ changeTracker (updateElementSize e env elementId width height) = changeTracker e
  /\ changeTracker (updateElementStyle e env elementId style) = changeTracker e
  /\ changeTracker (deleteElement e env elementId) = changeTracker e
  /\ (forall r, addTextElement e env newText x y width height = Js.Ok r ->
        changeTracker (snd r) = changeTracker e).
Proof.
  intros Hoff.
  assert (Hrec : forall e0 ty id sid p n desc,
            undoRedoEnabled e0 = false ->
            recordChange e0 env ty id sid p n desc = e0).
  { intros e0 ty id sid p n desc H. unfold recordChange. by rewrite H. }
  split_and!.
  - unfold undo. by rewrite Hoff.
  - unfold redo. by rewrite Hoff.
  - unfold updateText. destruct (currentSlideIndex e) as [[i s]|]; [|done].
    destruct (Store.find _ _ _) as [[l o]|]; [|done].
    destruct (o_type o); try done.
    unfold Store.shallowCopy, Store.allocElementObj. by rewrite Hrec.
  - unfold updateElementPosition. destruct (currentSlideIndex e) as [[i s]|]; [|done].
    destruct (Store.find _ _ _) as [[l o]|]; [|done].
    unfold Store.shallowCopy, Store.allocElementObj. by rewrite Hrec.
  - unfold updateElementSize. destruct (currentSlideIndex e) as [[i s]|]; [|done].
    destruct (Store.find _ _ _) as [[l o]|]; [|done].
    unfold Store.shallowCopy, Store.allocElementObj. by rewrite Hrec.
  - unfold updateElementStyle. destruct (currentSlideIndex e) as [[i s]|]; [|done].
    destruct (Store.find _ _ _) as [[l o]|]; [|done].
    unfold Store.shallowCopy, Store.allocElementObj, Store.allocStyle.
    by rewrite Hrec.
  - unfold deleteElement. destruct (currentSlideIndex e) as [[i s]|]; [|done].
    destruct (Store.findIndex _ _ _) as [j|]; [|done].
    destruct (s_elements s !! j) as [l|]; [|done].
    destruct (Store.find _ _ _) as [[l' o]|]; [|done].
    rewrite Hrec by done. by destruct (bool_decide _).
  - intros r. unfold addTextElement, addElement.
    destruct (hasDocument e); cbn [negb]; [|done].
    destruct (currentSlideIndex e) as [[i s]|]; [|done].
    match goal with
    | |- context [Store.allocElement ?v ?h] =>
        destruct (Store.allocElement v h) as [l h1]
    end.
    intros [= <-]. simpl. by rewrite Hrec.
Qed.

(** An editor created with undo and redo switched off. *)
Lemma undo_disabled_records_nothing_witness :
  let e := loadPPTX (create Sample.plainOptions 1700000000000) Sample.helloDeck
             1700000000000 in
  undoRedoEnabled e = false
  /\ undo e = (false, e)
  /\ changeTracker (updateText e Sample.env "textbox-0" "World") = changeTracker e
  /\ changeTracker (deleteElement e Sample.env "textbox-0") = changeTracker e.
Proof.
  intros e.
  assert (Hoff : undoRedoEnabled e = false) by (vm_compute; reflexivity).
  destruct (undo_disabled_records_nothing e Sample.env "textbox-0" "World"
              (Num 10) (Num 20) (Num 30) (Num 40) emptyStyle Hoff)
    as (H1 & _ & H3 & _ & _ & _ & H7 & _).
  split_and!; assumption.
Defined.

(** X10.  The four update operations never add, remove or reorder
    elements or slides: the document's slide sequence, with the element
    references of every slide, is the same after each of them (they
    change the objects that the references point to). *)
Theorem updates_keep_slides (e : t) (env : Env) (elementId : string)
    (newText : string) (x y width height : number) (style : ElementStyle) :
  parserDocument (updateText e env elementId newText) = parserDocument e
  /\ parserDocument (updateElementPosition e env elementId x y) = parserDocument e
  /\ parserDocument (updateElementSize e env elementId width height) = parserDocument e
  /\ parserDocument (updateElementStyle e env elementId style) = parserDocument e.
Proof.
  assert (Hrec : forall e0 ty id sid p n desc,
            parserDocument (recordChange e0 env ty id sid p n desc)
            = parserDocument e0).
  { intros. by destruct (recordChange_frame e0 env ty id sid p n desc) as [-> _]. }
  split_and!.
  - unfold updateText. destruct (currentSlideIndex e) as [[i s]|]; [|done].
    destruct (Store.find _ _ _) as [[l o]|]; [|done].
    destruct (o_type o); try done.
    unfold Store.shallowCopy, Store.allocElementObj. by rewrite Hrec.
  - unfold updateElementPosition. destruct (currentSlideIndex e) as [[i s]|]; [|done].
    destruct (Store.find _ _ _) as [[l o]|]; [|done].
    unfold Store.shallowCopy, Store.allocElementObj. by rewrite Hrec.
  - unfold updateElementSize. destruct (currentSlideIndex e) as [[i s]|]; [|done].
    destruct (Store.find _ _ _) as [[l o]|]; [|done].
    unfold Store.shallowCopy, Store.allocElementObj. by rewrite Hrec.
  - unfold updateElementStyle. destruct (currentSlideIndex e) as [[i s]|]; [|done].
    destruct (Store.find _ _ _) as [[l o]|]; [|done].
    unfold Store.shallowCopy, Store.allocElementObj, Store.allocStyle.
    by rewrite Hrec.
Qed.

End EditorLaws.

(** ** The editor: what an update changes *)

Section UpdateEffects.
Import PPTXEditor.

(** Reading an element gives the same result in two stores that agree
    on the element object and on the objects it refers to. *)
Lemma read_ext (h h' : Store) (l : loc) :
  st_elements h' !! l = st_elements h !! l ->
  (forall o, st_elements h !! l = Some o ->
     st_positions h' !! o_position o = st_positions h !! o_position o
     /\ st_sizes h' !! o_size o = st_sizes h !! o_size o
     /\ st_contents h' !! o_content o = st_contents h !! o_content o
     /\ forall ls, o_style o = Some ls -> st_styles h' !! ls = st_styles h !! ls) ->
  Store.read h' l = Store.read h l.
Proof.
  intros He Ho. unfold Store.read. rewrite He.
  destruct (st_elements h !! l) as [o|]; [|done]. simpl.
  destruct (Ho o eq_refl) as (-> & -> & -> & Hst).
  destruct (o_style o) as [ls|]; [|done]. by rewrite (Hst ls eq_refl).
Qed.

Lemma read_Some (h : Store) (l : loc) (v : SlideElement) :
  Store.read h l = Some v ->
  exists o, st_elements h !! l = Some o
    /\ st_positions h !! o_position o = Some (se_position v)
    /\ st_sizes h !! o_size o = Some (se_size v)
    /\ st_contents h !! o_content o = Some (se_content v)
    /\ match o_style o with
       | Some ls => exists s, st_styles h !! ls = Some s /\ se_style v = Some s
       | None => se_style v = None
       end
    /\ se_id v = o_id o /\ se_type v = o_type o
    /\ se_originalData v = o_originalData o /\ se_zIndex v = o_zIndex o.
Proof.
  unfold Store.read. intros H.
  destruct (st_elements h !! l) as [o|]; [|done]. simpl in H.
  destruct (st_positions h !! o_position o) as [p|] eqn:Ep; [|done]. simpl in H.
  destruct (st_sizes h !! o_size o) as [z|] eqn:Ez; [|done]. simpl in H.
  destruct (st_contents h !! o_content o) as [c|] eqn:Ec; [|done]. simpl in H.
  exists o. destruct (o_style o) as [ls|].
  - destruct (st_styles h !! ls) as [s|] eqn:Es; [|done]. simpl in H. injection H as <-.
    simpl. split_and!; eauto.
  - simpl in H. injection H as <-. simpl. by split_and!.
Qed.

Lemma find_Some (h : Store) (els : list loc) (elementId : string) (l : loc)
    (o : ElementObj) :
  Store.find h els elementId = Some (l, o) ->
  st_elements h !! l = Some o /\ o_id o = elementId.
Proof.
  unfold Store.find. destruct (Store.findIndex h els elementId) as [i|] eqn:Hi; [|done].
  destruct (findIndex_Some _ _ _ _ Hi) as (l' & o' & Hl & Ho & Hid).
  simpl. rewrite Hl. simpl. rewrite Ho. simpl. by intros [= <- <-].
Qed.

(** X11.  [updateText] on an element of the current slide that is
    not of type text changes nothing, and on a text element it sets the
    text and nothing else of the element: the element reads back with
    the new text and its id, type, position, size, style and other
    content properties as before, and every other element object that
    does not share its content object reads back as before. *)
Theorem updateText_sets_text_only (e : t) (env : Env) (elementId newText : string)
    (si : nat) (slide : PPTXSlide loc) (l : loc) (o : ElementObj) (v : SlideElement) :
  currentSlideIndex e = Some (si, slide) ->
  Store.find (store e) (s_elements slide) elementId = Some (l, o) ->
  Store.read (store e) l = Some v ->
  let e' := updateText e env elementId newText in
  (o_type o <> tyText -> e' = e)
  /\ (o_type o = tyText ->
      Store.read (store e') l
      = Some {| se_id := se_id v; se_type := se_type v;
                se_position := se_position v; se_size := se_size v;
                se_content := setText newText (se_content v);
                se_style := se_style v; se_originalData := se_originalData v;
                se_zIndex := se_zIndex v |}
      /\ forall (l' : loc) (o' : ElementObj),
           (l' < st_next (store e))%positive ->
           st_elements (store e) !! l' = Some o' ->
           o_content o' <> o_content o ->
           Store.read (store e') l' = Store.read (store e) l').
Proof.
  intros Hs Hf Hread e'. unfold e', updateText. rewrite Hs, Hf.
  destruct (find_Some _ _ _ _ _ Hf) as [Hl Hid].
  split.
  - intros Hty. by destruct (o_type o).
  - intros ->. unfold Store.shallowCopy, Store.allocElementObj.
    rewrite recordChange_store. cbn [withStore withDocument store].
    split.
    + destruct (read_Some _ _ _ Hread) as (o1 & Ho1 & Hp & Hz & Hc & Hst & H1 & H2 & H3 & H4).
      rewrite Hl in Ho1. injection Ho1 as <-.
      unfold Store.read. cbn [Store.setContents st_elements st_positions st_sizes
                               st_contents st_styles].
      assert (He : <[st_next (store e) := o]> (st_elements (store e)) !! l = Some o).
      { destruct (decide (l = st_next (store e))) as [->|Hne].
        - apply lookup_insert_eq.
        - by rewrite lookup_insert_ne. }
      rewrite He. simpl. rewrite Hp, Hz. simpl. rewrite lookup_alter_eq, Hc. simpl.
      destruct (o_style o) as [ls|].
      * destruct Hst as (s & -> & ->). simpl. by rewrite H1, H2, H3, H4.
      * rewrite Hst. simpl. by rewrite H1, H2, H3, H4.
    + intros l' o' Hlt Ho' Hne. apply read_ext.
      * cbn [Store.setContents st_elements]. rewrite lookup_insert_ne; [done|lia].
      * intros o1 Ho1. assert (o1 = o') as -> by congruence.
        cbn [Store.setContents st_positions st_sizes st_contents st_styles].
        split_and!; try done. by rewrite lookup_alter_ne.
Qed.

(** Replacing the text of the text box of [Sample.captionDeck]: the
    shape, at location 10, reads back as before. *)
Lemma updateText_sets_text_only_witness :
  let e := Sample.loaded Sample.captionDeck in
  let e' := updateText e Sample.env "textbox-0" "World" in
  (ct_text <$> (se_content <$> Store.read (store e') 5%positive)) = Some (Some "World")
  /\ Store.read (store e') 10%positive = Store.read (store e) 10%positive.
Proof.
  intros e e'.
  assert (Hs : currentSlideIndex e = Some (0%nat, Sample.slideOf e))
    by (vm_compute; reflexivity).
  assert (Hf : exists o, Store.find (store e) (s_elements (Sample.slideOf e)) "textbox-0"
                         = Some (5%positive, o)
                         /\ o_type o = tyText /\ o_content o = 3%positive)
    by (eexists; split_and!; vm_compute; reflexivity).
  assert (Hr : exists v, Store.read (store e) 5%positive = Some v)
    by (eexists; vm_compute; reflexivity).
  assert (Ho : exists o', st_elements (store e) !! 10%positive = Some o'
                          /\ o_content o' = 8%positive)
    by (eexists; split; vm_compute; reflexivity).
  destruct Hf as (o & Hf & Hty & Hc). destruct Hr as (v & Hr).
  destruct Ho as (o' & Ho' & Hc').
  destruct (updateText_sets_text_only e Sample.env "textbox-0" "World" 0
              (Sample.slideOf e) 5%positive o v Hs Hf Hr) as [_ Ht].
  destruct (Ht Hty) as [H1 H2]. split.
  - unfold e'. rewrite H1. reflexivity.
  - assert (Hlt : (10 < st_next (store e))%positive) by (vm_compute; reflexivity).
    unfold e'. apply (H2 10%positive o' Hlt Ho'). rewrite Hc, Hc'. discriminate.
Defined.

(** X12.  [updateElementPosition] and [updateElementSize] on an
    element of the current slide set its position, respectively its
    size, to the values given and leave the rest of the element as it
    was; every other element object that does not share the position
    (size) object reads back as before. *)
Theorem update_geometry_sets_target_only (e : t) (env : Env) (elementId : string)
    (x y width height : number) (si : nat) (slide : PPTXSlide loc) (l : loc)
    (o : ElementObj) (v : SlideElement) :
  currentSlideIndex e = Some (si, slide) ->
  Store.find (store e) (s_elements slide) elementId = Some (l, o) ->
  Store.read (store e) l = Some v ->
  let moved := updateElementPosition e env elementId x y in
  let resized := updateElementSize e env elementId width height in
  Store.read (store moved) l
  = Some {| se_id := se_id v; se_type := se_type v;
            se_position := {| pos_x := x; pos_y := y |}; se_size := se_size v;
            se_content := se_content v; se_style := se_style v;
            se_originalData := se_originalData v; se_zIndex := se_zIndex v |}
  /\ Store.read (store resized) l
     = Some {| se_id := se_id v; se_type := se_type v;
               se_position := se_position v;
               se_size := {| size_width := width; size_height := height |};
               se_content := se_content v; se_style := se_style v;
               se_originalData := se_originalData v; se_zIndex := se_zIndex v |}
  /\ forall (l' : loc) (o' : ElementObj),
       (l' < st_next (store e))%positive ->
       st_elements (store e) !! l' = Some o' ->
       (o_position o' <> o_position o ->
        Store.read (store moved) l' = Store.read (store e) l')
       /\ (o_size o' <> o_size o ->
           Store.read (store resized) l' = Store.read (store e) l').
Proof.
  intros Hs Hf Hread moved resized.
  unfold moved, resized, updateElementPosition, updateElementSize. rewrite Hs, Hf.
  destruct (find_Some _ _ _ _ _ Hf) as [Hl Hid].
  unfold Store.shallowCopy, Store.allocElementObj.
  rewrite !recordChange_store. cbn [withStore withDocument store].
  destruct (read_Some _ _ _ Hread)
    as (o1 & Ho1 & Hp & Hz & Hc & Hst & H1 & H2 & H3 & H4).
  assert (o1 = o) as -> by congruence.
  assert (He : <[st_next (store e) := o]> (st_elements (store e)) !! l = Some o).
  { destruct (decide (l = st_next (store e))) as [->|Hne].
    - apply lookup_insert_eq.
    - by rewrite lookup_insert_ne. }
  split_and!.
  - unfold Store.read. cbn [Store.setPositions st_elements st_positions st_sizes
                             st_contents st_styles].
    rewrite He. simpl. rewrite lookup_alter_eq, Hp, Hz, Hc. simpl.
    destruct (o_style o) as [ls|].
    + destruct Hst as (s & -> & ->). simpl. by rewrite H1, H2, H3, H4.
    + rewrite Hst. simpl. by rewrite H1, H2, H3, H4.
  - unfold Store.read. cbn [Store.setSizes st_elements st_positions st_sizes
                             st_contents st_styles].
    rewrite He. simpl. rewrite lookup_alter_eq, Hp, Hz, Hc. simpl.
    destruct (o_style o) as [ls|].
    + destruct Hst as (s & -> & ->). simpl. by rewrite H1, H2, H3, H4.
    + rewrite Hst. simpl. by rewrite H1, H2, H3, H4.
  - intros l' o' Hlt Ho'. split; intros Hne; apply read_ext.
    + cbn [Store.setPositions st_elements]. rewrite lookup_insert_ne; [done|lia].
    + intros o2 Ho2. assert (o2 = o') as -> by congruence.
      cbn [Store.setPositions st_positions st_sizes st_contents st_styles].
      split_and!; try done. by rewrite lookup_alter_ne.
    + cbn [Store.setSizes st_elements]. rewrite lookup_insert_ne; [done|lia].
    + intros o2 Ho2. assert (o2 = o') as -> by congruence.
      cbn [Store.setSizes st_positions st_sizes st_contents st_styles].
      split_and!; try done. by rewrite lookup_alter_ne.
Qed.

(** Moving and resizing the text box of [Sample.captionDeck]. *)
Lemma update_geometry_sets_target_only_witness :
  let e := Sample.loaded Sample.captionDeck in
  let moved := updateElementPosition e Sample.env "textbox-0" (Num 10) (Num 20) in
  let resized := updateElementSize e Sample.env "textbox-0" (Num 30) (Num 40) in
  (se_position <$> Store.read (store moved) 5%positive)
  = Some {| pos_x := Num 10; pos_y := Num 20 |}
  /\ (se_size <$> Store.read (store resized) 5%positive)
     = Some {| size_width := Num 30; size_height := Num 40 |}
  /\ Store.read (store moved) 10%positive = Store.read (store e) 10%positive.
Proof.
  intros e moved resized.
  assert (Hs : currentSlideIndex e = Some (0%nat, Sample.slideOf e))
    by (vm_compute; reflexivity).
  assert (Hf : exists o, Store.find (store e) (s_elements (Sample.slideOf e)) "textbox-0"
                         = Some (5%positive, o) /\ o_position o = 1%positive)
    by (eexists; split; vm_compute; reflexivity).
  assert (Hr : exists v, Store.read (store e) 5%positive = Some v)
    by (eexists; vm_compute; reflexivity).
  assert (Ho : exists o', st_elements (store e) !! 10%positive = Some o'
                          /\ o_position o' = 6%positive)
    by (eexists; split; vm_compute; reflexivity).
  destruct Hf as (o & Hf & Hp). destruct Hr as (v & Hr).
  destruct Ho as (o' & Ho' & Hp').
  destruct (update_geometry_sets_target_only e Sample.env "textbox-0" (Num 10) (Num 20)
              (Num 30) (Num 40) 0 (Sample.slideOf e) 5%positive o v Hs Hf Hr)
    as (H1 & H2 & H3).
  split_and!.
  - unfold moved. rewrite H1. reflexivity.
  - unfold resized. rewrite H2. reflexivity.
  - assert (Hlt : (10 < st_next (store e))%positive) by (vm_compute; reflexivity).
    destruct (H3 10%positive o' Hlt Ho') as [Hm _].
    unfold moved. apply Hm. rewrite Hp, Hp'. discriminate.
Defined.





End UpdateEffects.

(** ** The editor: loading *)

Section Load.
Import PPTXEditor.

Lemma agreeBelow_refl (h : Store) : agreeBelow h h.
Proof. split; [lia | done]. Qed.

Lemma agreeBelow_trans (h1 h2 h3 : Store) :
  agreeBelow h1 h2 -> agreeBelow h2 h3 -> agreeBelow h1 h3.
Proof.
  intros [Hn1 H1] [Hn2 H2]. split; [lia|]. intros k Hk.
  destruct (H1 k Hk) as (A1 & A2 & A3 & A4 & A5).
  destruct (H2 k ltac:(lia)) as (B1 & B2 & B3 & B4 & B5).
  split_and!; congruence.
Qed.

Lemma agreeBelow_read (h h' : Store) (l : loc) :
  agreeBelow h h' -> closed h l ->
  Store.read h' l = Store.read h l /\ closed h' l.
Proof.
  intros [Hn H] (Hl & o & Ho & Hp & Hz & Hc & Hs).
  destruct (H l Hl) as (A1 & _). split.
  - unfold Store.read. rewrite A1, Ho. simpl.
    destruct (H _ Hp) as (_ & -> & _). destruct (H _ Hz) as (_ & _ & -> & _).
    destruct (H _ Hc) as (_ & _ & _ & -> & _).
    destruct (o_style o) as [ls|]; [|done].
    by destruct (H _ (Hs ls eq_refl)) as (_ & _ & _ & _ & ->).
  - split; [lia|]. exists o. rewrite A1. split_and!; try done; try lia.
    intros ls E. specialize (Hs ls E). lia.
Qed.

Lemma allocElement_agreeBelow (v : SlideElement) (h : Store) :
  agreeBelow h (snd (Store.allocElement v h)).
Proof.
  destruct v as [id ty pos sz ct [st|] od z];
    cbn [Store.allocElement Store.allocPosition Store.allocSize Store.allocContent
         Store.allocStyle Store.allocElementObj fst snd st_next st_elements
         se_position se_size se_content se_style se_id se_type se_originalData
         se_zIndex];
    (split; [cbn [st_next]; lia|]); intros k Hk;
    cbn [st_elements st_positions st_sizes st_contents st_styles];
    split_and!; try done; rewrite lookup_insert_ne; done || lia.
Qed.

Lemma allocElement_closed (v : SlideElement) (h : Store) :
  Store.read (snd (Store.allocElement v h)) (fst (Store.allocElement v h)) = Some v
  /\ closed (snd (Store.allocElement v h)) (fst (Store.allocElement v h)).
Proof.
  destruct v as [id ty pos sz ct [st|] od z];
    cbn [Store.allocElement Store.allocPosition Store.allocSize Store.allocContent
         Store.allocStyle Store.allocElementObj fst snd st_next st_elements
         se_position se_size se_content se_style se_id se_type se_originalData
         se_zIndex].
  - split.
    + unfold Store.read. cbn [st_elements st_positions st_sizes st_contents st_styles].
      rewrite lookup_insert_eq.
      cbn [mbind option_bind o_position o_size o_content o_style o_id o_type
           o_originalData o_zIndex].
      by rewrite !lookup_insert_eq.
    + split; [cbn [st_next]; lia|]. eexists. cbn [st_elements st_next].
      split; [apply lookup_insert_eq|]. cbn [o_position o_size o_content o_style].
      split_and!; try lia. intros ls [= <-]. lia.
  - split.
    + unfold Store.read. cbn [st_elements st_positions st_sizes st_contents st_styles].
      rewrite lookup_insert_eq.
      cbn [mbind option_bind o_position o_size o_content o_style o_id o_type
           o_originalData o_zIndex].
      by rewrite !lookup_insert_eq.
    + split; [cbn [st_next]; lia|]. eexists. cbn [st_elements st_next].
      split; [apply lookup_insert_eq|]. cbn [o_position o_size o_content o_style].
      split_and!; try lia. done.
Qed.

Lemma allocElements_reads (vs : list SlideElement) (h : Store) :
  agreeBelow h (snd (Store.allocElements vs h))
  /\ Forall2 (fun l v => Store.read (snd (Store.allocElements vs h)) l = Some v
                         /\ closed (snd (Store.allocElements vs h)) l)
       (fst (Store.allocElements vs h)) vs.
Proof.
  revert h. induction vs as [|v vs IH]; intros h; simpl.
  - split; [apply agreeBelow_refl | constructor].
  - pose proof (allocElement_agreeBelow v h) as Ha.
    destruct (allocElement_closed v h) as [Hr Hc].
    destruct (Store.allocElement v h) as [l h1]. simpl in *.
    destruct (IH h1) as [Hb Hf].
    destruct (Store.allocElements vs h1) as [ls h2]. simpl in *.
    split; [by eapply agreeBelow_trans|].
    constructor; [|done].
    destruct (agreeBelow_read h1 h2 l Hb Hc) as [-> Hc2]. done.
Qed.

Lemma represents_agreeBelow (h h' : Store) (s : PPTXSlide loc)
    (v : PPTXSlide SlideElement) :
  agreeBelow h h' -> represents h s v -> represents h' s v.
Proof.
  intros Ha (H1 & H2 & H3 & Hf). split_and!; try done.
  eapply Forall2_impl; [exact Hf|]. intros l x [Hr Hc].
  destruct (agreeBelow_read h h' l Ha Hc) as [-> Hc']. done.
Qed.

Lemma allocSlides_represents (vs : list (PPTXSlide SlideElement)) (h : Store) :
  agreeBelow h (snd (Store.allocSlides vs h))
  /\ Forall2 (represents (snd (Store.allocSlides vs h)))
       (fst (Store.allocSlides vs h)) vs.
Proof.
  revert h. induction vs as [|v vs IH]; intros h; simpl.
  - split; [apply agreeBelow_refl | constructor].
  - unfold Store.allocSlide.
    destruct (allocElements_reads (s_elements v) h) as [Ha Hf].
    destruct (Store.allocElements (s_elements v) h) as [ls h1]. simpl in *.
    destruct (IH h1) as [Hb Hg].
    destruct (Store.allocSlides vs h1) as [rest h2]. simpl in *.
    split; [by eapply agreeBelow_trans|].
    constructor; [|done].
    apply (represents_agreeBelow h1 h2); [done|]. by split_and!.
Qed.

(** X14.  [loadPPTX] appends to the slides that the editor's parser
    already holds, for each slide that the decoder yields and in the
    same order, a slide with the same id, number and layout whose
    elements read back from the store as the decoded elements; it
    empties the change history, so [undo] returns false, keeps the
    current slide index, and does not change any object that was in the
    store. *)
Theorem load_exposes_decoded_slides (e : t) (zip : gmap string Part) (now : Date) :
  let e' := loadPPTX e zip now in
  let before := slides (parserDocument e) in
  hasDocument e' = true
  /\ take (length before) (getSlides e') = before
  /\ Forall2 (represents (store e')) (drop (length before) (getSlides e'))
       (PPTXParser.parseSlides zip)
  /\ getChangeHistory e' = []
  /\ fst (undo e') = false
  /\ currentSlide (state e') = currentSlide (state e)
  /\ agreeBelow (store e) (store e').
Proof.
  intros e' before. unfold e', loadPPTX.
  destruct (allocSlides_represents (PPTXParser.parseSlides zip) (store e)) as [Ha Hf].
  destruct (Store.allocSlides (PPTXParser.parseSlides zip) (store e)) as [ls h].
  simpl in *. unfold getSlides, document. simpl.
  split_and!; try done.
  - by rewrite take_app_length.
  - by rewrite drop_app_length.
  - unfold undo. simpl. by destruct (undoRedoEnabled e).
Qed.

End Load.

(** ** The decoder: numbering and ids *)

Section Decoded.
Import PPTXParser.

Lemma bind_Ok {A B} (m : Js.result A) (f : A -> Js.result B) (b : B) :
  m ≫= f = Js.Ok b -> exists a, m = Js.Ok a /\ f a = Js.Ok b.
Proof. destruct m as [a|s]; [by exists a | done]. Qed.

Lemma parseShapeElement_label (shape : XmlObj) (index : Z) (e : SlideElement) :
  parseShapeElement shape index = Some e ->
  se_type e = tyShape /\ se_id e = String.append "shape-" (pretty index).
Proof.
  unfold parseShapeElement.
  destruct (Xml.first shape "p:spPr") as [pr|]; [|done].
  destruct (Xml.truthy (Some pr)); [|done].
  unfold Js.catchNull.
  match goal with |- match ?m with _ => _ end = _ -> _ => destruct m as [a|s] eqn:E end;
    [|done].
  intros [= <-].
  apply bind_Ok in E as (prst & _ & E). apply bind_Ok in E as (style & _ & E).
  by injection E as <-.
Qed.

Lemma parsePictureElement_label (picture : XmlObj) (index : Z) (e : SlideElement) :
  parsePictureElement picture index = Some e ->
  se_type e = tyImage /\ se_id e = String.append "picture-" (pretty index).
Proof.
  unfold parsePictureElement.
  destruct (Xml.first picture "p:spPr") as [pr|]; [|done].
  destruct (Xml.truthy (Some pr) && Xml.truthy (Xml.first picture "p:blipFill")); [|done].
  unfold Js.catchNull.
  match goal with |- match ?m with _ => _ end = _ -> _ => destruct m as [a|s] eqn:E end;
    [|done].
  intros [= <-].
  apply bind_Ok in E as (prst & _ & E). apply bind_Ok in E as (style & _ & E).
  by injection E as <-.
Qed.

Lemma parseTextBoxElement_label (textBox : XmlObj) (index : Z) (e : SlideElement) :
  parseTextBoxElement textBox index = Some e ->
  se_type e = tyText /\ se_id e = String.append "textbox-" (pretty index).
Proof.
  unfold parseTextBoxElement.
  destruct (Xml.first textBox "p:spPr") as [pr|]; [|done].
  destruct (Xml.first textBox "p:txBody") as [body|]; [|done].
  destruct (Xml.truthy (Some pr) && Xml.truthy (Some body)); [|done].
  unfold Js.catchNull.
  match goal with |- match ?m with _ => _ end = _ -> _ => destruct m as [a|s] eqn:E end;
    [|done].
  intros [= <-].
  apply bind_Ok in E as (style & _ & E).
  by injection E as <-.
Qed.

Lemma parseNode_label (nodeType : string) (node : XmlObj) (i : Z) (e : SlideElement) :
  parseNode nodeType node i = Some e -> labelled (setZIndex e i) i.
Proof.
  unfold parseNode, labelled. simpl.
  destruct (String.eqb nodeType "p:sp").
  { intros H. apply parseShapeElement_label in H. auto. }
  destruct (String.eqb nodeType "p:pic").
  { intros H. apply parsePictureElement_label in H. auto. }
  destruct (String.eqb nodeType "p:txBox"); [|done].
  intros H. apply parseTextBoxElement_label in H. auto.
Qed.

(** The entries that the loop has collected are labelled by their
    positions. *)
Lemma visit_labelled (nodeType : string) (st : Collected) (node : XmlObj) :
  numbered st ->
  (forall i p, fst st !! i = Some p -> labelled (fst p) (Z.of_nat i)) ->
  forall i p, fst (visit nodeType st node) !! i = Some p -> labelled (fst p) (Z.of_nat i).
Proof.
  intros [Hg _] Hall i p. unfold visit.
  destruct (parseNode nodeType node (snd st)) as [element|] eqn:E; [|by apply Hall].
  simpl. intros Hp. apply lookup_app_Some in Hp as [Hp|[Hge Hp]]; [by apply Hall|].
  apply list_lookup_singleton_Some in Hp as [Hi <-]. simpl.
  replace (Z.of_nat i) with (snd st) by lia. by eapply parseNode_label.
Qed.

Lemma foldl_visit_labelled (nodeType : string) (nodes : list XmlObj) (st : Collected) :
  numbered st ->
  (forall i p, fst st !! i = Some p -> labelled (fst p) (Z.of_nat i)) ->
  forall i p, fst (foldl (visit nodeType) st nodes) !! i = Some p ->
    labelled (fst p) (Z.of_nat i).
Proof.
  revert st. induction nodes as [|node nodes IH]; intros st Hn H; [done|].
  simpl. apply IH; [by apply visit_numbered | by apply visit_labelled].
Qed.

Lemma collect_labelled (spTree : XmlObj) (i : nat) (p : SlideElement * Z) :
  fst (collect spTree) !! i = Some p -> labelled (fst p) (Z.of_nat i).
Proof.
  unfold collect. revert i p.
  assert (H0 : numbered ([], 0)) by (split; [done | by intros i p]).
  assert (H1 : forall i p, fst (([], 0) : Collected) !! i = Some p ->
                 labelled (fst p) (Z.of_nat i)) by (by intros i p).
  revert H0 H1. generalize (([], 0) : Collected).
  induction (allChildNodes spTree) as [|nodeType types IH]; intros st Hn H; [done|].
  simpl. apply IH; unfold visitType.
  - by apply foldl_visit_numbered.
  - by apply foldl_visit_labelled.
Qed.

Lemma parseElements_labelled (spTree : XmlObj) (i : nat) (e : SlideElement) :
  parseElements spTree !! i = Some e -> labelled e (Z.of_nat i).
Proof.
  rewrite parseElements_collect, list_lookup_fmap.
  destruct (fst (collect spTree) !! i) as [p|] eqn:Hp; [|done].
  intros [= <-]. by eapply collect_labelled.
Qed.

(** Resolving the images changes the content of image elements only. *)
Lemma resolveImage_label (zip : gmap string Part) (relationships : list XmlObj)
    (e e' : SlideElement) :
  resolveImage zip relationships e = Js.Ok e' ->
  se_id e' = se_id e /\ se_type e' = se_type e /\ se_zIndex e' = se_zIndex e.
Proof.
  unfold resolveImage.
  destruct (ct_imageId (se_content e)) as [imageId|]; [|by intros [= <-]].
  destruct (negb (Js.truthy imageId)); [by intros [= <-]|].
  destruct (ct_resolved (se_content e)); [by intros [= <-]|].
  intros H. apply bind_Ok in H as (relationship & _ & H).
  destruct relationship as [a|]; [|by injection H as <-].
  destruct (Xml.attr a "Target") as [targetPath|]; [|done].
  destruct (zipFile zip (absoluteImagePath targetPath)); by injection H as <-.
Qed.

Lemma resolveImages_labels (zip : gmap string Part) (relationships : list XmlObj)
    (elements : list SlideElement) :
  Forall2 (fun e' e => se_id e' = se_id e /\ se_type e' = se_type e
                       /\ se_zIndex e' = se_zIndex e)
    (resolveImages zip relationships elements) elements.
Proof.
  induction elements as [|e rest IH]; [constructor|]. simpl.
  destruct (se_type e) eqn:Ety; try (constructor; [done | exact IH]).
  destruct (resolveImage zip relationships e) as [e'|msg] eqn:E.
  - constructor; [|exact IH]. by apply resolveImage_label in E.
  - apply Forall2_same_length_lookup_2; [done|]. intros i a b Ha Hb.
    by assert (a = b) as -> by congruence.
Qed.

Lemma labelledAll_resolveImages (zip : gmap string Part) (relationships : list XmlObj)
    (elements : list SlideElement) :
  labelledAll elements -> labelledAll (resolveImages zip relationships elements).
Proof.
  intros H i e' He'.
  destruct (Forall2_lookup_l _ _ _ i e' (resolveImages_labels zip relationships elements)
              He') as (e & He & H1 & H2 & H3).
  specialize (H i e He). unfold labelled in *. rewrite H1, H2, H3. exact H.
Qed.

Lemma labelled_inj (e e' : SlideElement) (i j : Z) :
  labelled e i -> labelled e' j -> se_id e = se_id e' -> i = j.
Proof.
  intros [_ H] [_ H'] Hid.
  destruct H as [[_ H]|[[_ H]|[_ H]]], H' as [[_ H']|[[_ H']|[_ H']]];
    rewrite H, H' in Hid; try discriminate;
    injection Hid as Hid; change (pretty i = pretty j) in Hid;
    by apply (inj pretty) in Hid.
Qed.

Lemma labelledAll_NoDup (elements : list SlideElement) :
  labelledAll elements -> NoDup (map se_id elements).
Proof.
  intros H. apply NoDup_alt. intros i j x Hi Hj.
  rewrite list_lookup_fmap in Hi, Hj.
  destruct (elements !! i) as [a|] eqn:Ha; [|done].
  destruct (elements !! j) as [b|] eqn:Hb; [|done].
  simpl in *. injection Hi as Hi. injection Hj as Hj.
  pose proof (labelled_inj a b _ _ (H i a Ha) (H j b Hb) ltac:(congruence)). lia.
Qed.

Lemma resolveImageData_labelled (zip : gmap string Part)
    (slide : PPTXSlide SlideElement) (slideRelPath : string) :
  let r := resolveImageData zip slide slideRelPath in
  s_id r = s_id slide /\ s_slideNumber r = s_slideNumber slide
  /\ (labelledAll (s_elements slide) -> labelledAll (s_elements r)).
Proof.
  unfold resolveImageData.
  destruct (s_imageDataResolved slide); [done|].
  destruct (zipFile zip slideRelPath) as [rels|]; [|done].
  destruct (Js.truthy (p_content rels)); [|done].
  simpl. split_and!; try done. apply labelledAll_resolveImages.
Qed.

Lemma parseSlide_labelled (zip : gmap string Part) (slidePath : string)
    (slideNumber : Z) (s : PPTXSlide SlideElement) :
  parseSlide zip slidePath slideNumber = Some s ->
  s_slideNumber s = slideNumber
  /\ s_id s = String.append "slide-" (pretty slideNumber)
  /\ labelledAll (s_elements s).
Proof.
  unfold parseSlide.
  destruct (zipFile zip slidePath) as [part|]; [|done].
  destruct (negb (Js.truthy (p_content part))); [done|].
  destruct (Xml.first (Xml.xmlToObject (p_document part)) "p:cSld") as [data|]; [|done].
  destruct (negb (Xml.truthy (Some data))); [done|].
  assert (Hnil : labelledAll []) by (by intros i e).
  destruct (Xml.first data "p:spTree") as [spTree|]; [|by intros [= <-]].
  destruct (Xml.truthy (Some spTree)); [|by intros [= <-]].
  assert (Hel : labelledAll (parseElements spTree))
    by (intros i e; apply parseElements_labelled).
  match goal with
  | |- (if ?a then Some (resolveImageData zip ?sl ?p1)
        else if ?b then Some (resolveImageData zip ?sl ?p2) else Some ?sl) = _ -> _ =>
      destruct (resolveImageData_labelled zip sl p1) as (A1 & A2 & A3);
      destruct (resolveImageData_labelled zip sl p2) as (B1 & B2 & B3);
      destruct a; [|destruct b]
  end; intros [= <-].
  - rewrite A1, A2. split_and!; try done. by apply A3.
  - rewrite B1, B2. split_and!; try done. by apply B3.
  - done.
Qed.

Lemma parseSlideRels_numbered (zip : gmap string Part) (slideRels : list XmlObj)
    (i : Z) :
  (forall a b sa sb,
     parseSlideRels zip slideRels i !! a = Some sa ->
     parseSlideRels zip slideRels i !! b = Some sb ->
     (a < b)%nat -> s_slideNumber sa < s_slideNumber sb)
  /\ Forall (fun s => i < s_slideNumber s
                      <= i + Z.of_nat (length slideRels)
                      /\ s_id s = String.append "slide-" (pretty (s_slideNumber s))
                      /\ labelledAll (s_elements s))
       (parseSlideRels zip slideRels i).
Proof.
  revert i. induction slideRels as [|rel rest IH]; intros i.
  - split; [by intros a b sa sb | constructor].
  - cbn [parseSlideRels]. destruct (IH (i + 1)) as [Hs Hf].
    assert (Hf' : Forall (fun s => i < s_slideNumber s
                      <= i + Z.of_nat (length (rel :: rest))
                      /\ s_id s = String.append "slide-" (pretty (s_slideNumber s))
                      /\ labelledAll (s_elements s))
                    (parseSlideRels zip rest (i + 1))).
    { eapply Forall_impl; [exact Hf|]. intros s (Hn & Hid & Hl).
      split_and!; try done; simpl length; lia. }
    cbv zeta.
    destruct (parseSlide zip _ (i + 1)) as [slide|] eqn:E; [|done].
    apply parseSlide_labelled in E as (En & Eid & El).
    split.
    + intros a b sa sb Ha Hb Hlt. destruct b as [|b]; [lia|]. simpl in Hb.
      destruct a as [|a].
      * injection Ha as <-. rewrite En.
        destruct (Forall_lookup_1 _ _ _ _ Hf Hb) as [Hn _]. lia.
      * simpl in Ha. apply (Hs a b); [done | done | lia].
    + constructor; [|done]. rewrite En. split_and!; try done; simpl length; lia.
Qed.

(** X15.  The slides that the decoder yields are numbered by the
    position of their relationship among the slide relationships of the
    presentation: the slide numbers are at least 1 and strictly
    increasing along the document, the id of a slide is [slide-]
    followed by its number, and so no two slides have the same id. *)
Theorem decoded_slides_numbered (zip : gmap string Part) :
  let decoded := parseSlides zip in
  (forall a b sa sb,
     decoded !! a = Some sa -> decoded !! b = Some sb ->
     (a < b)%nat -> s_slideNumber sa < s_slideNumber sb)
  /\ Forall (fun s => 1 <= s_slideNumber s
                      /\ s_id s = String.append "slide-" (pretty (s_slideNumber s)))
       decoded
  /\ NoDup (map s_id decoded).
Proof.
  intros decoded.
  assert (H : (forall a b sa sb,
                 decoded !! a = Some sa -> decoded !! b = Some sb ->
                 (a < b)%nat -> s_slideNumber sa < s_slideNumber sb)
              /\ Forall (fun s => 1 <= s_slideNumber s
                           /\ s_id s = String.append "slide-" (pretty (s_slideNumber s)))
                   decoded).
  { unfold decoded, parseSlides.
    destruct (zipFile zip "ppt/_rels/presentation.xml.rels") as [rels|];
      [|split; [by intros a b sa sb | constructor]].
    destruct (negb (Js.truthy (p_content rels)));
      [split; [by intros a b sa sb | constructor]|].
    destruct (filterSlideRels _) as [slideRels|msg];
      [|split; [by intros a b sa sb | constructor]].
    destruct (parseSlideRels_numbered zip slideRels 0) as [Hs Hf].
    split; [done|]. eapply Forall_impl; [exact Hf|].
    intros s (Hn & Hid & _). split; [lia | done]. }
  destruct H as [Hs Hf]. split_and!; try done.
  apply NoDup_alt. intros i j x Hi Hj.
  rewrite list_lookup_fmap in Hi, Hj.
  destruct (decoded !! i) as [a|] eqn:Ha; [|done].
  destruct (decoded !! j) as [b|] eqn:Hb; [|done].
  simpl in *. injection Hi as Hi. injection Hj as Hj.
  destruct (Forall_lookup_1 _ _ _ _ Hf Ha) as [_ Hia].
  destruct (Forall_lookup_1 _ _ _ _ Hf Hb) as [_ Hib].
  assert (Hn : s_slideNumber a = s_slideNumber b).
  { rewrite Hia, Hib in *. subst x. injection Hj as Hj.
    change (pretty (s_slideNumber b) = pretty (s_slideNumber a)) in Hj.
    by apply (inj pretty) in Hj. }
  destruct (Nat.lt_trichotomy i j) as [Hlt|[->|Hlt]]; [|done|].
  - pose proof (Hs i j a b Ha Hb Hlt). lia.
  - pose proof (Hs j i b a Hb Ha Hlt). lia.
Qed.

(** The elements of every decoded slide are labelled by their
    positions. *)
Lemma parseSlides_labelledAll (zip : gmap string Part) (k : nat)
    (s : PPTXSlide SlideElement) :
  parseSlides zip !! k = Some s -> labelledAll (s_elements s).
Proof.
  unfold parseSlides.
  destruct (zipFile zip "ppt/_rels/presentation.xml.rels") as [rels|]; [|done].
  destruct (negb (Js.truthy (p_content rels))); [done|].
  destruct (filterSlideRels _) as [slideRels|msg]; [|done].
  destruct (parseSlideRels_numbered zip slideRels 0) as [_ Hf].
  intros Hin. by destruct (Forall_lookup_1 _ _ _ _ Hf Hin) as (_ & _ & Hl).
Qed.

(** X16.  On every decoded slide the element at position [i] has the
    z-order [i] and the id [shape-i], [picture-i] or [textbox-i] with
    the type shape, image or text, also after the images were resolved;
    so no two elements of a slide have the same id. *)
Theorem decoded_elements_labelled (zip : gmap string Part) (k : nat)
    (s : PPTXSlide SlideElement) :
  parseSlides zip !! k = Some s ->
  (forall i e, s_elements s !! i = Some e -> labelled e (Z.of_nat i))
  /\ NoDup (map se_id (s_elements s)).
Proof.
  intros Hin. pose proof (parseSlides_labelledAll zip k s Hin) as H.
  split; [exact H | by apply labelledAll_NoDup].
Qed.

(** The slide of [Sample.mixedDeck]. *)
Lemma decoded_elements_labelled_witness :
  exists s, parseSlides Sample.mixedDeck !! 0%nat = Some s
    /\ map se_id (s_elements s) = ["shape-0"; "picture-1"; "textbox-2"]%string
    /\ NoDup (map se_id (s_elements s)).
Proof.
  destruct (parseSlides Sample.mixedDeck !! 0%nat) as [s|] eqn:E;
    [|vm_compute in E; discriminate].
  exists s. split; [done|]. split.
  - vm_compute in E. injection E as <-. reflexivity.
  - exact (proj2 (decoded_elements_labelled Sample.mixedDeck 0 s E)).
Defined.

End Decoded.

(** ** The canvas: paint order *)

Section Renderer.
Import PPTXParser SlideRenderer.

Lemma sortedElements_counting (l : list SlideElement) (b : Z) :
  (forall i e, l !! i = Some e -> zIndexOf e = b + Z.of_nat i) ->
  sortedElements l = l.
Proof.
  revert b. induction l as [|p l IH]; intros b H; [done|].
  unfold sortedElements in *. simpl. rewrite (IH (b + 1)).
  - destruct l as [|q l]; [done|]. simpl.
    pose proof (H 0%nat p eq_refl) as Hp. pose proof (H 1%nat q eq_refl) as Hq.
    destruct (Z.ltb_spec (zIndexOf q) (zIndexOf p)); [lia | done].
  - intros i q Hq. rewrite (H (S i) q Hq). lia.
Qed.

Lemma foldr_insert_above (new : SlideElement) (l : list SlideElement) (b : Z) :
  zIndexOf new < b ->
  (forall i e, l !! i = Some e -> zIndexOf e = b + Z.of_nat i) ->
  foldr insertByZIndex [new] l = new :: l.
Proof.
  intros Hnew. revert b Hnew. induction l as [|p l IH]; intros b Hnew H; [done|].
  simpl. rewrite (IH (b + 1)).
  - simpl. pose proof (H 0%nat p eq_refl) as Hp.
    destruct (Z.ltb_spec (zIndexOf new) (zIndexOf p)); [|lia].
    f_equal. destruct l as [|q l]; [done|]. simpl.
    pose proof (H 1%nat q eq_refl) as Hq.
    destruct (Z.ltb_spec (zIndexOf q) (zIndexOf p)); [lia | done].
  - lia.
  - intros i q Hq. rewrite (H (S i) q Hq). lia.
Qed.

Lemma labelled_zIndexOf (e : SlideElement) (i : Z) : labelled e i -> zIndexOf e = i.
Proof. intros [H _]. unfold zIndexOf. by rewrite H. Qed.

(** X17.  The canvas paints the elements of a decoded slide in the
    order of the slide's element sequence, the sort on the z-order
    having nothing to move.  An element without a z-order, as
    [addTextElement] and [addImageElement] create it, counts as z-order
    0: appended to a decoded slide it is painted directly after the
    first element and beneath all the others. *)
Theorem paint_order_of_decoded_slide (zip : gmap string Part) (k : nat)
    (s : PPTXSlide SlideElement) :
  parseSlides zip !! k = Some s ->
  sortedElements (s_elements s) = s_elements s
  /\ forall new : SlideElement,
       se_zIndex new = None ->
       sortedElements (s_elements s ++ [new])
       = take 1 (s_elements s) ++ [new] ++ drop 1 (s_elements s).
Proof.
  intros Hs. pose proof (parseSlides_labelledAll zip k s Hs) as Hl.
  assert (Hz : forall i e, s_elements s !! i = Some e -> zIndexOf e = 0 + Z.of_nat i).
  { intros i e He. by rewrite (labelled_zIndexOf e _ (Hl i e He)). }
  split; [by apply (sortedElements_counting _ 0)|].
  intros new Hnew.
  assert (Hn : zIndexOf new = 0) by (unfold zIndexOf; by rewrite Hnew).
  unfold sortedElements. rewrite foldr_app. simpl.
  destruct (s_elements s) as [|e0 rest]; [done|].
  simpl. rewrite (foldr_insert_above new rest 1).
  - simpl. pose proof (Hz 0%nat e0 eq_refl) as H0.
    destruct (Z.ltb_spec (zIndexOf new) (zIndexOf e0)); [lia|]. by rewrite drop_0.
  - lia.
  - intros i e He. rewrite (Hz (S i) e He). lia.
Qed.

(** A new text element on the slide of [Sample.mixedDeck] is painted
    second of four. *)
Lemma paint_order_of_decoded_slide_witness :
  let new :=
    {| se_id := "text-1700000000000-a8b7c6d5e"; se_type := tyText;
       se_position := {| pos_x := Num 10; pos_y := Num 20 |};
       se_size := {| size_width := Num 30; size_height := Num 40 |};
       se_content := emptyContent; se_style := None; se_originalData := None;
       se_zIndex := None |} in
  exists s, parseSlides Sample.mixedDeck !! 0%nat = Some s
    /\ sortedElements (s_elements s) = s_elements s
    /\ map se_id (sortedElements (s_elements s ++ [new]))
       = ["shape-0"; "text-1700000000000-a8b7c6d5e"; "picture-1"; "textbox-2"]%string.
Proof.
  intros new.
  destruct (parseSlides Sample.mixedDeck !! 0%nat) as [s|] eqn:E;
    [|vm_compute in E; discriminate].
  destruct (paint_order_of_decoded_slide Sample.mixedDeck 0 s E) as [H1 H2].
  exists s. split; [done|]. split; [exact H1|].
  rewrite (H2 new eq_refl). vm_compute in E. injection E as <-. reflexivity.
Defined.

End Renderer.

(** ** The re-encoder: files and metadata *)

Section ExporterLaws.
Import PPTXExporter.

Lemma updateSlide_is_Some (zip0 : gmap string Part) (h : Store)
    (zip : gmap string string) (slide : PPTXSlide loc) (path : string) :
  (forall p, is_Some (zipFile zip0 p) -> is_Some (zip !! p)) ->
  is_Some (updateSlide zip0 h zip slide !! path) <-> is_Some (zip !! path).
Proof.
  intros Hdom. unfold updateSlide.
  destruct (zipFile zip0 (findSlidePath (s_slideNumber slide))) as [part|] eqn:E; [|done].
  destruct (Js.truthy (p_content part)); [|done].
  destruct (decide (findSlidePath (s_slideNumber slide) = path)) as [<-|Hne].
  - rewrite lookup_insert_eq. split; [|by eexists].
    intros _. apply Hdom. by rewrite E.
  - by rewrite lookup_insert_ne.
Qed.

Lemma updateSlides_is_Some (zip0 : gmap string Part) (h : Store) (d : PPTXDocument)
    (zip : gmap string string) (path : string) :
  (forall p, is_Some (zipFile zip0 p) -> is_Some (zip !! p)) ->
  is_Some (updateSlides zip0 h d zip !! path) <-> is_Some (zip !! path).
Proof.
  unfold updateSlides. generalize (slides d) as ss. intros ss. revert zip path.
  induction ss as [|s ss IH]; intros zip path Hdom; [done|].
  simpl. rewrite IH.
  - by apply updateSlide_is_Some.
  - intros p Hp. apply updateSlide_is_Some; [done|]. by apply Hdom.
Qed.

Lemma updateMetadata_is_Some (d : PPTXDocument) (now : string)
    (zip : gmap string string) (path : string) :
  is_Some (updateMetadata d now zip !! path) <-> is_Some (zip !! path).
Proof.
  assert (Hins : forall (z : gmap string string) (k v : string),
            is_Some (z !! k) -> is_Some (<[k := v]> z !! path) <-> is_Some (z !! path)).
  { intros z k v Hk. destruct (decide (k = path)) as [<-|Hne].
    - rewrite lookup_insert_eq. split; [done | by eexists].
    - by rewrite lookup_insert_ne. }
  unfold updateMetadata.
  assert (Ha : is_Some (updateAppXml d zip !! path) <-> is_Some (zip !! path)).
  { unfold updateAppXml. destruct (zip !! appXmlPath) as [appXml|] eqn:E; [|done].
    destruct (Js.truthy appXml); [|done]. apply Hins. by rewrite E. }
  rewrite <- Ha. unfold updateCoreXml.
  destruct (updateAppXml d zip !! coreXmlPath) as [coreXml|] eqn:E; [|done].
  destruct (Js.truthy coreXml); [|done]. apply Hins. by rewrite E.
Qed.

(** X18.  Export neither adds nor drops a file: the exported
    container has an entry at a path exactly when the original has a
    file (not a folder) there, whatever the document holds; and an
    entry that is neither a metadata part nor the part of a slide number
    of the document has the original text. *)
Theorem export_keeps_the_files (zip : gmap string Part) (d : PPTXDocument)
    (h : Store) (now path : string) :
  (is_Some (exportPPTX zip d h now !! path) <-> is_Some (zipFile zip path))
  /\ (path <> appXmlPath -> path <> coreXmlPath ->
      (forall slide, slide ∈ slides d -> findSlidePath (s_slideNumber slide) <> path) ->
      exportPPTX zip d h now !! path = p_content <$> zipFile zip path).
Proof.
  split; [|apply exportPPTX_untouched].
  unfold exportPPTX. rewrite updateMetadata_is_Some, updateSlides_is_Some.
  - rewrite copyOriginalStructure_lookup. by rewrite fmap_is_Some.
  - intros p Hp. rewrite copyOriginalStructure_lookup. by rewrite fmap_is_Some.
Qed.

(** The relationships part of [Sample.helloDeck] is exported as it is,
    and no part is invented. *)
Lemma export_keeps_the_files_witness :
  let e := Sample.loaded Sample.helloDeck in
  let exported :=
    exportPPTX Sample.helloDeck (PPTXEditor.parserDocument e) (PPTXEditor.store e)
      "2023-11-14T22:13:20.000Z" in
  exported !! "ppt/_rels/presentation.xml.rels"
  = p_content <$> zipFile Sample.helloDeck "ppt/_rels/presentation.xml.rels"
  /\ ~ is_Some (exported !! "ppt/slides/slide2.xml").
Proof.
  intros e exported. split.
  - apply export_keeps_the_files; [discriminate | discriminate |].
    intros slide Hs. vm_compute in Hs.
    apply list_elem_of_singleton in Hs as ->. vm_compute. discriminate.
  - intros H. apply export_keeps_the_files in H. vm_compute in H.
    by destruct H.
Defined.

(** The global pattern finds nothing in a text that does not contain
    its opening. *)
Lemma replaceAllFrom_no_match (open close template before : string) (s : string) :
  Js.includes open s = false ->
  Js.replaceAllFrom (Js.tagPattern open close) template before 0 s = s.
Proof.
  revert before. induction s as [|c s IH]; intros before H; [done|].
  cbn [Js.includes] in H. apply orb_false_iff in H as [Hs Hi].
  cbn [Js.replaceAllFrom]. unfold Js.tagPattern at 1. rewrite Hs.
  by rewrite IH.
Qed.

(** X19.  Slide markup that contains no [<a:t] is written back
    unchanged, whatever elements the slide has: the substitution finds
    nothing to replace and never inserts a text node. *)
Theorem markup_without_text_nodes_unchanged (h : Store) (xml : string)
    (slide : PPTXSlide loc) :
  Js.includes "<a:t" xml = false -> updateSlideXML h xml slide = xml.
Proof.
  intros H. unfold updateSlideXML.
  induction (s_elements slide) as [|l els IH] using rev_ind; [done|].
  rewrite foldl_app. simpl. rewrite IH. unfold updateElement.
  destruct (st_elements h !! l) as [o|]; [|done].
  destruct (o_type o); try done.
  unfold updateTextElement, Js.replaceAll, textPattern.
  by apply replaceAllFrom_no_match.
Qed.

(** The markup of a slide that holds a picture only, with the elements
    of [Sample.helloDeck], whose text box reads Hello. *)
Lemma markup_without_text_nodes_unchanged_witness :
  let e := Sample.loaded Sample.helloDeck in
  let xml := Sample.slideText (Sample.deck [Sample.pic "rId2"]) in
  Js.includes "<a:t" xml = false
  /\ updateSlideXML (PPTXEditor.store e) xml (Sample.slideOf e) = xml.
Proof.
  intros e xml.
  assert (H : Js.includes "<a:t" xml = false) by (vm_compute; reflexivity).
  split; [exact H|]. exact (markup_without_text_nodes_unchanged _ xml _ H).
Defined.

Lemma findSlidePath_not_docProps (n : Z) :
  findSlidePath n <> appXmlPath /\ findSlidePath n <> coreXmlPath.
Proof. split; discriminate. Qed.

(** X20.  The decoder never reads the title, the subject, the
    keywords or the author from the container: after [loadPPTX] into a
    new editor they are empty, and therefore export succeeds and writes
    [docProps/app.xml] back with its original text. *)
Theorem metadata_is_never_decoded (options : EditorOptions) (created now : Date)
    (zip : gmap string Part) (iso : string) :
  let e := PPTXEditor.loadPPTX (PPTXEditor.create options created) zip now in
  let m := metadata (PPTXEditor.parserDocument e) in
  md_title m = EmptyString /\ md_subject m = EmptyString
  /\ md_author m = EmptyString /\ md_keywords m = []
  /\ exists exported,
       PPTXEditor.exportPPTX e iso = Js.Ok exported
       /\ exported !! appXmlPath = p_content <$> zipFile zip appXmlPath.
Proof.
  intros e m.
  assert (Hm : md_title m = EmptyString /\ md_subject m = EmptyString
               /\ md_author m = EmptyString /\ md_keywords m = []).
  { unfold m, e, PPTXEditor.loadPPTX.
    destruct (Store.allocSlides _ _) as [ls h]. simpl.
    unfold PPTXParser.parsePresentationProperties.
    destruct (zipFile zip "docProps/app.xml") as [app|];
      destruct (zipFile zip "docProps/core.xml") as [core|];
      repeat match goal with |- context [if ?b then _ else _] => destruct b end;
      done. }
  split_and!; try apply Hm.
  assert (He : PPTXEditor.exportPPTX e iso
               = Js.Ok (exportPPTX zip (PPTXEditor.parserDocument e)
                          (PPTXEditor.store e) iso)).
  { unfold e, PPTXEditor.loadPPTX, PPTXEditor.exportPPTX, PPTXEditor.document.
    by destruct (Store.allocSlides _ _) as [ls h]. }
  eexists. split; [exact He|].
  unfold exportPPTX, updateMetadata.
  assert (Hz : forall z0, updateSlides zip (PPTXEditor.store e)
                 (PPTXEditor.parserDocument e) z0 !! appXmlPath = z0 !! appXmlPath).
  { intros z0. apply updateSlides_other. intros slide _.
    apply findSlidePath_not_docProps. }
  assert (Ha : forall z0 : gmap string string,
            updateAppXml (PPTXEditor.parserDocument e) z0 !! appXmlPath
            = z0 !! appXmlPath).
  { intros z0. unfold updateAppXml.
    destruct (z0 !! appXmlPath) as [appXml|] eqn:E; [|done].
    destruct (Js.truthy appXml); [|done].
    fold m. destruct Hm as (-> & -> & _). simpl.
    by rewrite lookup_insert_eq. }
  assert (Hc : forall z0 : gmap string string,
            updateCoreXml iso z0 !! appXmlPath = z0 !! appXmlPath).
  { intros z0. unfold updateCoreXml.
    destruct (z0 !! coreXmlPath) as [coreXml|]; [|done].
    destruct (Js.truthy coreXml); [|done]. by rewrite lookup_insert_ne. }
  rewrite Hc, Ha, Hz. apply copyOriginalStructure_lookup.
Qed.

End ExporterLaws.

(** ** The editor: reverting all changes *)

Section RevertAll.
Import PPTXEditor.




End RevertAll.

(** ** Image paths and types *)

Section Paths.
Import PPTXParser.

(** X22.  Every resolved image path lies under [ppt/], and resolving
    a resolved path changes nothing. *)
Theorem absoluteImagePath_normal_form (targetPath : string) :
  Js.startsWith "ppt/" (absoluteImagePath targetPath) = true
  /\ absoluteImagePath (absoluteImagePath targetPath) = absoluteImagePath targetPath.
Proof.
  assert (H : Js.startsWith "ppt/" (absoluteImagePath targetPath) = true).
  { unfold absoluteImagePath.
    destruct (Js.startsWith "../" targetPath) eqn:E1.
    { apply startsWith_inv in E1 as [r ->]. by rewrite replaceLiteral_prefix. }
    destruct (Js.startsWith "./" targetPath) eqn:E2.
    { apply startsWith_inv in E2 as [r ->]. by rewrite replaceLiteral_prefix. }
    by destruct (Js.startsWith "ppt/" targetPath) eqn:E3. }
  split; [exact H|].
  apply startsWith_inv in H as [r Hr]. rewrite Hr. reflexivity.
Qed.


Lemma split_no_sep (sep : ascii) (e : string) :
  (forall c, In c (list_ascii_of_string e) -> c <> sep) -> Js.split sep e = [e].
Proof.
  induction e as [|c e IH]; intros H; [done|]. simpl.
  destruct (Ascii.eqb_spec c sep) as [->|Hne].
  - exfalso. apply (H sep); [by left | done].
  - rewrite IH; [done|]. intros c' Hc'. apply H. by right.
Qed.








End Paths.

(** ** The editor: undo followed by redo *)

Section UndoRedo.
Import PPTXEditor.







End UndoRedo.
